(** * JNI bindings of the Bluetooth AVRCP controller and vendor services

    A shallow embedding of
      jni/com_android_bluetooth_avrcp_controller.cpp
      jni/com_android_bluetooth_btservice_vendor.cpp
    Every native function is written as a computation in a small monad that
    threads the file-scope statics, asks an oracle for the answers of the
    foreign calls (JNI and HAL) and records the calls it makes.

    Conventions.
    - uint8_t and jbyte values are 8-bit patterns ([byte]); a cast between the
      two keeps the pattern.  Where the code compares or widens a jbyte, its
      signed value is [jbyte_val].  jint and uint32_t values are [Z]; a
      uint32_t that the code hands to Java as a jint arrives as the signed
      reading of its 32 bits ([to_jint]).
    - A pointer is NULL or an address.  A pointer to a C array of the
      native stack is the list of the elements it points to; reading past
      its end is a fault.  The pinned elements of a Java array are read
      without a fault past their end.
    - A C string is the list of bytes before its terminator.
    - Java array parameters that the code hands to GetXxxArrayElements
      without testing them are non-null references to the given contents. *)

From Stdlib Require Import String Ascii.
From Stdlib.Strings Require Import Byte.
From Stdlib Require Import ZArith Bool Arith Lia List.
Import ListNotations.
Local Open Scope string_scope.
Local Open Scope list_scope.
Local Open Scope nat_scope.
Set Warnings "-register-all".

(** ** Values crossing the boundary *)

Inductive ptr : Type :=
| NULL
| Ptr (a : N).

Definition is_null (p : ptr) : bool :=
  match p with NULL => true | Ptr _ => false end.

Inductive bt_status_t : Type :=
| BT_STATUS_SUCCESS
| BT_STATUS_ERROR (code : positive).

Definition is_success (s : bt_status_t) : bool :=
  match s with BT_STATUS_SUCCESS => true | BT_STATUS_ERROR _ => false end.

Definition jboolean := bool.
Definition JNI_TRUE : jboolean := true.
Definition JNI_FALSE : jboolean := false.

(** A class reference: the result of FindClass / NewGlobalRef. *)
Inductive jclass : Type :=
| NoClass
| Class (name : string).

(** What GetMethodID resolves: a Java method name and its signature. *)
Record jmethodID : Type := GetMethodID { java_name : string; java_sig : string }.

Inductive jvalue : Type :=
| JNull
| JBool (b : bool)
| JByte (b : byte)
| JInt (z : Z)
| JByteArray (l : list byte)
| JIntArray (l : list Z)
| JString (utf : list byte)
| JObjectArray (cls : jclass) (l : list jvalue)
| JObject (h : N).

(** Arguments of a HAL call. *)
Inductive harg : Type :=
| AAddr (bytes : list byte)
| AInt (z : Z)
| AByte (b : byte)
| ABool (b : bool)
| ABytes (p : option (list byte))
| AInts (p : option (list Z))
| ACallbacks (table : string)
| AProfile (id : string).

Inductive hres : Type :=
| RVoid
| RStatus (s : bt_status_t)
| RBool (b : bool)
| RPtr (p : ptr).

(** The interface a HAL call is made through. *)
Inductive iface : Type :=
| BtInterface            (* the bt_interface_t of getBluetoothInterface() *)
| AvrcpCtrl              (* sBluetoothAvrcpInterface *)
| AvrcpVendorCtrl        (* sBluetoothAvrcpVendorInterface *)
| BtVendor.              (* sBluetoothVendorInterface *)

Definition iface_eqb (a b : iface) : bool :=
  match a, b with
  | BtInterface, BtInterface | AvrcpCtrl, AvrcpCtrl
  | AvrcpVendorCtrl, AvrcpVendorCtrl | BtVendor, BtVendor => true
  | _, _ => false
  end.

Inductive level : Type := LogV | LogI | LogW | LogE.

Inductive event : Type :=
| Log (lv : level) (msg : string)
| HalCall (via : iface) (fn : string) (args : list harg) (res : hres)
| JavaCall (obj : ptr) (m : jmethodID) (args : list jvalue)
| Throw (exn : string)
| Jni (fn : string).

Inductive fault : Type :=
| NullDeref (what : string)
| OutOfBounds
| BadAlloc.

(** ** The statics of the two translation units *)

Record statics : Type := mkStatics {
  sBluetoothAvrcpInterface : ptr;
  sBluetoothAvrcpVendorInterface : ptr;
  sCallbacksObj : ptr;
  class_MediaBrowser_MediaItem : jclass;
  class_AvrcpPlayer : jclass;
  sBluetoothVendorInterface : ptr;
  mCallbacksObj : ptr
}.

Definition initial_statics : statics :=
  mkStatics NULL NULL NULL NoClass NoClass NULL NULL.

(** ** The foreign side *)

(** The answers of the foreign calls, indexed by the number of foreign calls
    made so far: does a call that yields a reference yield a non-null one,
    which pointer or object handle comes back, which status a HAL call
    reports.  [ext_mem name k] is the byte that the process finds [k] bytes
    past the end of the pinned elements of the Java array [name]. *)
Record env : Type := mkEnv {
  ext_ok : nat -> bool;
  ext_ptr : nat -> ptr;
  ext_status : nat -> bt_status_t;
  ext_mem : string -> nat -> byte
}.

Record state : Type := mkState { globals : statics; tick : nat }.

Definition initial_state : state := mkState initial_statics 0.

(** ** The monad: statics and oracle position, early return, faults, trace *)

Inductive outcome (R A : Type) : Type :=
| Val (a : A)
| Return (r : R)
| Crash (f : fault).
Arguments Val {R A} a.
Arguments Return {R A} r.
Arguments Crash {R A} f.

Definition M (R A : Type) : Type :=
  env -> state -> outcome R A * state * list event.

Definition ret {R A} (a : A) : M R A := fun _ s => (Val a, s, []).

Definition bind {R A B} (m : M R A) (k : A -> M R B) : M R B :=
  fun e s =>
    match m e s return outcome R B * state * list event with
    | (Val a, s1, t1) =>
        let '(o, s2, t2) := k a e s1 in (o, s2, t1 ++ t2)
    | (Return r, s1, t1) => (Return r, s1, t1)
    | (Crash f, s1, t1) => (Crash f, s1, t1)
    end.

Declare Scope jni_scope.
Delimit Scope jni_scope with jni.
Notation "x <- m ;; k" := (bind m (fun x => k))
  (at level 100, m at next level, right associativity) : jni_scope.
Notation "m ;; k" := (bind m (fun _ => k))
  (at level 100, right associativity) : jni_scope.
Local Open Scope jni_scope.

(** The C++ [return r;] in the middle of a function. *)
Definition return_ {R A} (r : R) : M R A := fun _ s => (Return r, s, []).

Definition crash {R A} (f : fault) : M R A := fun _ s => (Crash f, s, []).

Definition emit {R} (ev : event) : M R unit := fun _ s => (Val tt, s, [ev]).

Definition get_globals {R} : M R statics := fun _ s => (Val (globals s), s, []).

Definition set_globals {R} (g : statics) : M R unit :=
  fun _ s => (Val tt, mkState g (tick s), []).

(** One foreign call: its index, the oracle position moves on. *)
Definition foreign {R} : M R nat :=
  fun _ s => (Val (tick s), mkState (globals s) (S (tick s)), []).

Definition ask_ok {R} : M R bool :=
  fun e s => (Val (ext_ok e (tick s)), mkState (globals s) (S (tick s)), []).

Definition ask_ptr {R} : M R ptr :=
  fun e s => (Val (ext_ptr e (tick s)), mkState (globals s) (S (tick s)), []).

Definition ask_status {R} : M R bt_status_t :=
  fun e s => (Val (ext_status e (tick s)), mkState (globals s) (S (tick s)), []).

(** A call of a function of the file from another one: its [return] ends
    the callee only. *)
Definition call {R A} (m : M A A) : M R A :=
  fun e s =>
    match m e s return outcome R A * state * list event with
    | (Val a, s1, t1) => (Val a, s1, t1)
    | (Return a, s1, t1) => (Val a, s1, t1)
    | (Crash f, s1, t1) => (Crash f, s1, t1)
    end.

(** A whole native function, entered from the foreign side. *)
Definition run {A} (m : M A A) (e : env) (s : state)
  : option A * state * list event :=
  match m e s with
  | (Val a, s1, t1) => (Some a, s1, t1)
  | (Return a, s1, t1) => (Some a, s1, t1)
  | (Crash _, s1, t1) => (None, s1, t1)
  end.

(** A native function entered from the foreign side, its result dropped: did it come
    back, the state it leaves, the calls it made. *)
Definition enter {A} (m : M A A) (e : env) (s : state)
  : bool * state * list event :=
  match run m e s with
  | (Some _, s1, t1) => (true, s1, t1)
  | (None, s1, t1) => (false, s1, t1)
  end.

Definition when {R} (b : bool) (m : M R unit) : M R unit :=
  if b then m else ret tt.

(** [for (i = i0; i < bound && cond; i++) body], the loop variables other
    than [i] in [S]. *)
Fixpoint for_loop {R S} (fuel i : nat) (cond : nat -> S -> bool)
  (body : nat -> S -> M R S) (s : S) : M R S :=
  match fuel with
  | O => ret s
  | Datatypes.S fuel' =>
      if cond i s
      then s' <- body i s ;; for_loop fuel' (Datatypes.S i) cond body s'
      else ret s
  end.

Definition for_upto {R S} (bound : nat) (cond : nat -> S -> bool)
  (body : nat -> S -> M R S) (s : S) : M R S :=
  for_loop bound 0 (fun i s => (i <? bound) && cond i s) body s.

(** ** Logging *)

Definition ALOGV {R} (msg : string) : M R unit := emit (Log LogV msg).
Definition ALOGI {R} (msg : string) : M R unit := emit (Log LogI msg).
Definition ALOGW {R} (msg : string) : M R unit := emit (Log LogW msg).
Definition ALOGE {R} (msg : string) : M R unit := emit (Log LogE msg).

(** ** Fixed-width values *)

Definition u8 (b : byte) : nat := Byte.to_nat b.

(** The value of a jbyte (signed char). *)
Definition jbyte_val (b : byte) : Z :=
  let z := Z.of_nat (Byte.to_nat b) in
  if (z <? 128)%Z then z else (z - 256)%Z.

(** (uint8_t)x for a jint x. *)
Definition to_uint8 (z : Z) : Z := (z mod 256)%Z.

(** (uint16_t)x for a jint x. *)
Definition to_uint16 (z : Z) : Z := (z mod 65536)%Z.

(** (jint)x for a uint32_t x, and the jint read at the address of a
    uint32_t: the same 32-bit word, read as a signed number. *)
Definition to_jint (z : Z) : Z :=
  ((z + 2147483648) mod 4294967296 - 2147483648)%Z.

(** ** C arrays and strings *)

(** [p[i]] *)
Definition index {R A} (p : list A) (i : nat) : M R A :=
  match nth_error p i with
  | Some x => ret x
  | None => crash OutOfBounds
  end.

(** [p[i]] for the pinned elements [p] of the Java array [name]: the code
    has no length to compare [i] with, and past the end of the elements it
    reads what the memory holds there. *)
Definition peek (e : env) (name : string) (p : list byte) (i : nat) : byte :=
  match nth_error p i with
  | Some x => x
  | None => ext_mem e name (i - length p)
  end.

Definition index_pinned {R} (name : string) (p : list byte) (i : nat)
  : M R byte :=
  fun e s => (Val (peek e name p i), s, []).

(** The [n] elements at [p]. *)
Definition read_n {A} (p : list A) (n : nat) : option (list A) :=
  if n <=? length p then Some (firstn n p) else None.

Definition set_region {A} (arr : list A) (start : nat) (src : list A) : list A :=
  firstn start arr ++ src ++ skipn (start + length src) arr.

(** The C string at [p]: the bytes before the first NUL. *)
Fixpoint c_str (p : list byte) : list byte :=
  match p with
  | [] => []
  | b :: p' => if Byte.eqb b x00 then [] else b :: c_str p'
  end.

(** RawAddress: uint8_t address[6]. *)
Record RawAddress : Type := mkRawAddress {
  a0 : byte; a1 : byte; a2 : byte; a3 : byte; a4 : byte; a5 : byte
}.

Definition raw_bytes (a : RawAddress) : list byte :=
  [a0 a; a1 a; a2 a; a3 a; a4 a; a5 a].

Definition sizeof_RawAddress : nat := 6.

(** ** JNI functions *)

Definition NewByteArray {R} (n : nat) : M R (option (list byte)) :=
  ok <- ask_ok ;;
  ret (if ok then Some (repeat x00 n) else None).

Definition NewIntArray {R} (n : nat) : M R (option (list Z)) :=
  ok <- ask_ok ;;
  ret (if ok then Some (repeat 0%Z n) else None).

Definition FindClass {R} (name : string) : M R jclass :=
  ok <- ask_ok ;;
  ret (if ok then Class name else NoClass).

(** A null element class is outside the contract of NewObjectArray (the
    runtime aborts on it). *)
Definition NewObjectArray {R} (n : nat) (cls : jclass)
  : M R (option (list jvalue)) :=
  match cls with
  | NoClass => crash (NullDeref "element_jclass")
  | Class _ =>
      ok <- ask_ok ;;
      ret (if ok then Some (repeat JNull n) else None)
  end.

Definition NewStringUTF {R} (p : list byte) : M R jvalue :=
  ok <- ask_ok ;;
  ret (if ok then JString (c_str p) else JNull).

(** SetXxxArrayRegion(arr, start, len, buf): the array bounds are checked
    (an exception is left pending and nothing is copied), the buffer is
    read as it is. *)
Definition SetArrayRegion {R A} (arr : list A) (start len : nat)
  (buf : list A) : M R (list A) :=
  if start + len <=? length arr then
    match read_n buf len with
    | Some src => ret (set_region arr start src)
    | None => crash OutOfBounds
    end
  else
    (emit (Throw "ArrayIndexOutOfBoundsException") ;; ret arr).

Definition SetByteArrayRegion {R} := @SetArrayRegion R byte.
Definition SetIntArrayRegion {R} := @SetArrayRegion R Z.

Definition SetObjectArrayElement {R} (arr : list jvalue) (i : nat)
  (v : jvalue) : M R (list jvalue) :=
  if i <? length arr then ret (set_region arr i [v])
  else (emit (Throw "ArrayIndexOutOfBoundsException") ;; ret arr).

(** The bytes at a [RawAddress*]. *)
Definition address_bytes {R} (bd_addr : option RawAddress) : M R (list byte) :=
  match bd_addr with
  | Some a => ret (raw_bytes a)
  | None => crash (NullDeref "bd_addr")
  end.

Definition CallVoidMethod {R} (obj : ptr) (m : jmethodID)
  (args : list jvalue) : M R unit :=
  emit (JavaCall obj m args).

Definition CallObjectMethod {R} (obj : ptr) (m : jmethodID)
  (args : list jvalue) : M R jvalue :=
  emit (JavaCall obj m args) ;;
  p <- ask_ptr ;;
  ret (match p with NULL => JNull | Ptr h => JObject h end).

Definition GetByteArrayElements {R} (arr : list byte)
  : M R (option (list byte)) :=
  ok <- ask_ok ;;
  ret (if ok then Some arr else None).

Definition GetIntArrayElements {R} (arr : list Z) : M R (option (list Z)) :=
  ok <- ask_ok ;;
  ret (if ok then Some arr else None).

Definition GetStringUTFChars {R} (str : list byte)
  : M R (option (list byte)) :=
  ok <- ask_ok ;;
  ret (if ok then Some str else None).

Definition ReleaseByteArrayElements {R} : M R unit :=
  emit (Jni "ReleaseByteArrayElements").
Definition ReleaseIntArrayElements {R} : M R unit :=
  emit (Jni "ReleaseIntArrayElements").
Definition ReleaseStringUTFChars {R} : M R unit :=
  emit (Jni "ReleaseStringUTFChars").
Definition DeleteGlobalRef {R} : M R unit := emit (Jni "DeleteGlobalRef").

Definition NewGlobalRef_class {R} (c : jclass) : M R jclass :=
  ok <- ask_ok ;;
  ret (if ok then c else NoClass).

Definition NewGlobalRef {R} (o : ptr) : M R ptr :=
  ok <- ask_ok ;;
  ret (if ok then o else NULL).

Definition jniThrowIOException {R} (errno : string) : M R unit :=
  emit (Throw (String.append "java/io/IOException " errno)).

(** Modelled from the spec: CallbackEnv and its valid() are declared in
    com_android_bluetooth.h, which is not among the sources.  The spec
    (section 5) has each callback attach to the managed runtime for the
    duration of one call; whether that attachment holds is an answer of
    the foreign side.  What the constructor, valid() and the destructor
    log or call themselves is not known and not recorded.
    [CallbackEnv sCallbackEnv(__func__); sCallbackEnv.valid()] *)
Definition CallbackEnv_valid {R} : M R bool := ask_ok.

(** ** HAL calls *)

Definition iface_ptr (g : statics) (via : iface) : ptr :=
  match via with
  | BtInterface => NULL
  | AvrcpCtrl => sBluetoothAvrcpInterface g
  | AvrcpVendorCtrl => sBluetoothAvrcpVendorInterface g
  | BtVendor => sBluetoothVendorInterface g
  end.

(** [p->fn(args)] through one of the static interface pointers. *)
Definition deref {R} (via : iface) (fn : string) : M R unit :=
  g <- get_globals ;;
  if is_null (iface_ptr g via) then crash (NullDeref fn) else ret tt.

Definition hal_status {R} (via : iface) (fn : string) (args : list harg)
  : M R bt_status_t :=
  deref via fn ;;
  st <- ask_status ;;
  emit (HalCall via fn args (RStatus st)) ;;
  ret st.

Definition hal_void {R} (via : iface) (fn : string) (args : list harg)
  : M R unit :=
  deref via fn ;;
  _ <- foreign ;;
  emit (HalCall via fn args RVoid).

Definition hal_bool {R} (via : iface) (fn : string) (args : list harg)
  : M R bool :=
  deref via fn ;;
  b <- ask_ok ;;
  emit (HalCall via fn args (RBool b)) ;;
  ret b.

(** getBluetoothInterface() *)
Definition getBluetoothInterface {R} : M R ptr := ask_ptr.

(** btInf->get_profile_interface(id), [btInf] tested non-null before. *)
Definition get_profile_interface {R} (id : string) : M R ptr :=
  p <- ask_ptr ;;
  emit (HalCall BtInterface "get_profile_interface" [AProfile id] (RPtr p)) ;;
  ret p.

(** ** Reading a trace *)

Definition is_hal_call (ev : event) : bool :=
  match ev with HalCall _ _ _ _ => true | _ => false end.

Definition is_java_call (ev : event) : bool :=
  match ev with JavaCall _ _ _ => true | _ => false end.

Definition is_error_log (ev : event) : bool :=
  match ev with Log LogE _ => true | _ => false end.

Definition hal_calls (t : list event) : list event := filter is_hal_call t.
Definition java_calls (t : list event) : list event := filter is_java_call t.
Definition error_logs (t : list event) : list event := filter is_error_log t.

(** [if (!x) { onfail; return r; }] for the result [x] of a binding call. *)
Definition check_nonnull {R A} (x : option A) (onfail : M R unit) (r : R)
  : M R A :=
  match x with
  | Some a => ret a
  | None => onfail ;; return_ r
  end.

Definition nonnull_value (v : jvalue) : option jvalue :=
  match v with JNull => None | _ => Some v end.

(** * com_android_bluetooth_avrcp_controller.cpp *)

Module AvrcpController.

(** ** Types of hardware/bt_rc.h and hardware/bt_rc_vendor.h, as the code
    uses them (the headers are not part of the repository). *)

Record btrc_player_app_attr_t : Type := mkAppAttr {
  app_attr_id : byte;
  app_num_val : byte;
  app_attr_val : list byte
}.

Record btrc_player_settings_t : Type := mkSettings {
  settings_num_attr : byte;
  settings_attr_ids : list byte;
  settings_attr_values : list byte
}.

Record btrc_element_attr_val_t : Type := mkElemAttr {
  elem_attr_id : Z;
  elem_text : list byte
}.

(** [*(jint* )&a.attr_id]: the uint32_t attr_id, read as a jint. *)
Definition attr_id_jint (a : btrc_element_attr_val_t) : Z :=
  to_jint (elem_attr_id a).

Record btrc_item_player_t : Type := mkPlayer {
  player_id : Z;
  player_major_type : Z;
  player_play_status : Z;
  player_features : list byte;
  player_name : list byte
}.

Record btrc_item_folder_t : Type := mkFolder {
  folder_uid : list byte;
  folder_type : Z;
  folder_playable : Z;
  folder_name : list byte
}.

(** [num_attrs] is a count, [p_attrs] the array it counts. *)
Record btrc_item_media_t : Type := mkMedia {
  media_uid : list byte;
  media_type : Z;
  media_name : list byte;
  media_num_attrs : nat;
  media_p_attrs : list btrc_element_attr_val_t
}.

(** btrc_folder_items_t: [item_type] and the union it selects. *)
Inductive btrc_folder_items_t : Type :=
| BTRC_ITEM_PLAYER (player : btrc_item_player_t)
| BTRC_ITEM_FOLDER (folder : btrc_item_folder_t)
| BTRC_ITEM_MEDIA (media : btrc_item_media_t)
| BTRC_ITEM_OTHER (item_type : byte).

Definition is_player (it : btrc_folder_items_t) : bool :=
  match it with BTRC_ITEM_PLAYER _ => true | _ => false end.

(** ** The method ids, as classInitNative resolves them *)

Definition method_handlePassthroughRsp :=
  GetMethodID "handlePassthroughRsp" "(II[B)V".
Definition method_handleGroupNavigationRsp :=
  GetMethodID "handleGroupNavigationRsp" "(II)V".
Definition method_onConnectionStateChanged :=
  GetMethodID "onConnectionStateChanged" "(ZZ[B)V".
Definition method_getRcFeatures := GetMethodID "getRcFeatures" "([BII)V".
Definition method_setplayerappsettingrsp :=
  GetMethodID "setPlayerAppSettingRsp" "([BB)V".
Definition method_handleplayerappsetting :=
  GetMethodID "handlePlayerAppSetting" "([B[BI)V".
Definition method_handleplayerappsettingchanged :=
  GetMethodID "onPlayerAppSettingChanged" "([B[BI)V".
Definition method_handleSetAbsVolume :=
  GetMethodID "handleSetAbsVolume" "([BBB)V".
Definition method_handleRegisterNotificationAbsVol :=
  GetMethodID "handleRegisterNotificationAbsVol" "([BB)V".
Definition method_handletrackchanged :=
  GetMethodID "onTrackChanged" "([BB[I[Ljava/lang/String;)V".
Definition method_handleGetElementAttrResp :=
  GetMethodID "onElementAttributeUpdate" "([BB[I[Ljava/lang/String;)V".
Definition method_handleGetItemAttrResp :=
  GetMethodID "onItemAttributeUpdate" "([BB[I[Ljava/lang/String;)V".
Definition method_onUidsChanged := GetMethodID "onUidsChanged" "([BI)V".
Definition method_handleplaypositionchanged :=
  GetMethodID "onPlayPositionChanged" "([BII)V".
Definition method_handleplaystatuschanged :=
  GetMethodID "onPlayStatusChanged" "([BB)V".
Definition method_handleGetFolderItemsRsp :=
  GetMethodID "handleGetFolderItemsRsp"
    "(I[Landroid/media/browse/MediaBrowser$MediaItem;)V".
Definition method_handleGetPlayerItemsRsp :=
  GetMethodID "handleGetPlayerItemsRsp"
    "([Lcom/android/bluetooth/avrcpcontroller/AvrcpPlayer;)V".
Definition method_createFromNativeMediaItem :=
  GetMethodID "createFromNativeMediaItem"
    "([BILjava/lang/String;[I[Ljava/lang/String;)Landroid/media/browse/MediaBrowser$MediaItem;".
Definition method_createFromNativeFolderItem :=
  GetMethodID "createFromNativeFolderItem"
    "([BILjava/lang/String;I)Landroid/media/browse/MediaBrowser$MediaItem;".
Definition method_createFromNativePlayerItem :=
  GetMethodID "createFromNativePlayerItem"
    "(ILjava/lang/String;[BII)Lcom/android/bluetooth/avrcpcontroller/AvrcpPlayer;".
Definition method_handleChangeFolderRsp :=
  GetMethodID "handleChangeFolderRsp" "(I)V".
Definition method_handleSetBrowsedPlayerRsp :=
  GetMethodID "handleSetBrowsedPlayerRsp" "(II)V".
Definition method_handleSetAddressedPlayerRsp :=
  GetMethodID "handleSetAddressedPlayerRsp" "(I)V".
Definition method_handleSearchRsp := GetMethodID "handleSearchRsp" "(III)V".
Definition method_handleNumOfItemsRsp :=
  GetMethodID "handleNumOfItemsRsp" "(III)V".
Definition method_onAddressedPlayerChanged :=
  GetMethodID "onAddressedPlayerChanged" "([BII)V".
Definition method_onAvailablePlayerChanged :=
  GetMethodID "onAvailablePlayerChanged" "([B)V".
Definition method_onNowPlayingChanged :=
  GetMethodID "onNowPlayingChanged" "([B)V".
Definition method_handleAddToNowPlayingRsp :=
  GetMethodID "handleAddToNowPlayingRsp" "(I)V".
Definition method_handleErrorStatusCode :=
  GetMethodID "handleErrorStatusCode" "(III)V".

(** ** Callbacks: native stack to Java *)

(** [CallbackEnv sCallbackEnv(__func__); if (!sCallbackEnv.valid()) return;] *)
Definition callback_entry : M unit unit :=
  valid <- CallbackEnv_valid ;;
  when (negb valid) (return_ tt).

Definition btavrcp_passthrough_response_callback
  (bd_addr : option RawAddress) (id pressed : Z) : M unit unit :=
  ALOGI "%s: id: %d, pressed: %d" ;;
  callback_entry ;;
  addr <- NewByteArray sizeof_RawAddress ;;
  addr <- check_nonnull addr
    (ALOGE "Fail to new jbyteArray bd addr for passthrough response") tt ;;
  src <- address_bytes bd_addr ;;
  addr <- SetByteArrayRegion addr 0 sizeof_RawAddress src ;;
  g <- get_globals ;;
  CallVoidMethod (sCallbacksObj g) method_handlePassthroughRsp
    [JInt id; JInt pressed; JByteArray addr].

Definition btavrcp_groupnavigation_response_callback (id pressed : Z)
  : M unit unit :=
  ALOGV "%s" ;;
  callback_entry ;;
  g <- get_globals ;;
  CallVoidMethod (sCallbacksObj g) method_handleGroupNavigationRsp
    [JInt id; JInt pressed].

Definition btavrcp_connection_state_callback (rc_connect br_connect : bool)
  (bd_addr : option RawAddress) : M unit unit :=
  ALOGI "%s: conn state: rc: %d br: %d" ;;
  callback_entry ;;
  addr <- NewByteArray sizeof_RawAddress ;;
  addr <- check_nonnull addr
    (ALOGE "Fail to new jbyteArray bd addr for connection state") tt ;;
  src <- address_bytes bd_addr ;;
  addr <- SetByteArrayRegion addr 0 sizeof_RawAddress src ;;
  g <- get_globals ;;
  CallVoidMethod (sCallbacksObj g) method_onConnectionStateChanged
    [JBool rc_connect; JBool br_connect; JByteArray addr].

Definition btavrcp_get_rcfeatures_callback (bd_addr : option RawAddress)
  (features : Z) : M unit unit :=
  ALOGV "%s" ;;
  callback_entry ;;
  addr <- NewByteArray sizeof_RawAddress ;;
  addr <- check_nonnull addr (ALOGE "Fail to new jbyteArray bd addr ") tt ;;
  src <- address_bytes bd_addr ;;
  addr <- SetByteArrayRegion addr 0 sizeof_RawAddress src ;;
  g <- get_globals ;;
  CallVoidMethod (sCallbacksObj g) method_getRcFeatures
    [JByteArray addr; JInt features; JInt 0].

Definition btavrcp_setplayerapplicationsetting_rsp_callback
  (bd_addr : option RawAddress) (accepted : byte) : M unit unit :=
  ALOGV "%s" ;;
  callback_entry ;;
  addr <- NewByteArray sizeof_RawAddress ;;
  addr <- check_nonnull addr (ALOGE "Fail to new jbyteArray bd addr ") tt ;;
  src <- address_bytes bd_addr ;;
  addr <- SetByteArrayRegion addr 0 sizeof_RawAddress src ;;
  g <- get_globals ;;
  CallVoidMethod (sCallbacksObj g) method_setplayerappsettingrsp
    [JByteArray addr; JInt (Z.of_nat (u8 accepted))].

(** The first loop of btavrcp_playerapplicationsetting_callback:
    2 bytes for id and num, then the values. *)
Definition playerapplicationsetting_arraylen
  (num_attr : byte) (app_attrs : list btrc_player_app_attr_t)
  : M unit nat :=
  for_upto (u8 num_attr) (fun _ _ => true)
    (fun i arraylen =>
       a <- index app_attrs i ;;
       ret (arraylen + (2 + u8 (app_num_val a))))
    0.

(** The second loop: flattening defined attributes, <id,num_values,values[]>. *)
Definition playerapplicationsetting_flatten
  (num_attr : byte) (app_attrs : list btrc_player_app_attr_t)
  (arraylen : nat) (playerattribs : list byte) : M unit (nat * list byte) :=
  for_upto (u8 num_attr) (fun _ st => fst st <? arraylen)
    (fun i st =>
       let k := fst st in
       let arr := snd st in
       a <- index app_attrs i ;;
       arr <- SetByteArrayRegion arr k 1 [app_attr_id a] ;;
       let k := k + 1 in
       arr <- SetByteArrayRegion arr k 1 [app_num_val a] ;;
       let k := k + 1 in
       arr <- SetByteArrayRegion arr k (u8 (app_num_val a)) (app_attr_val a) ;;
       let k := k + u8 (app_num_val a) in
       ret (k, arr))
    (0, playerattribs).

Definition btavrcp_playerapplicationsetting_callback
  (bd_addr : option RawAddress) (num_attr : byte)
  (app_attrs : list btrc_player_app_attr_t)
  (num_ext_attr : byte) (ext_attrs : ptr) : M unit unit :=
  ALOGI "%s" ;;
  callback_entry ;;
  addr <- NewByteArray sizeof_RawAddress ;;
  addr <- check_nonnull addr (ALOGE "Fail to new jbyteArray bd addr ") tt ;;
  src <- address_bytes bd_addr ;;
  addr <- SetByteArrayRegion addr 0 sizeof_RawAddress src ;;
  arraylen <- playerapplicationsetting_arraylen num_attr app_attrs ;;
  ALOGV " arraylen %d" ;;
  playerattribs <- NewByteArray arraylen ;;
  playerattribs <- check_nonnull playerattribs
    (ALOGE "Fail to new jbyteArray playerattribs ") tt ;;
  st <- playerapplicationsetting_flatten num_attr app_attrs arraylen
          playerattribs ;;
  g <- get_globals ;;
  CallVoidMethod (sCallbacksObj g) method_handleplayerappsetting
    [JByteArray addr; JByteArray (snd st); JInt (Z.of_nat arraylen)].

(** The loop of btavrcp_playerapplicationsetting_changed_callback:
    flattening format <id,val>. *)
Definition playerapplicationsetting_changed_flatten
  (p_vals : btrc_player_settings_t) (arraylen : nat)
  (playerattribs : list byte) : M unit (nat * list byte) :=
  for_upto (u8 (settings_num_attr p_vals)) (fun _ st => fst st <? arraylen)
    (fun i st =>
       let k := fst st in
       let arr := snd st in
       id <- index (settings_attr_ids p_vals) i ;;
       arr <- SetByteArrayRegion arr k 1 [id] ;;
       let k := k + 1 in
       v <- index (settings_attr_values p_vals) i ;;
       arr <- SetByteArrayRegion arr k 1 [v] ;;
       let k := k + 1 in
       ret (k, arr))
    (0, playerattribs).

Definition btavrcp_playerapplicationsetting_changed_callback
  (bd_addr : option RawAddress) (p_vals : option btrc_player_settings_t)
  : M unit unit :=
  ALOGI "%s" ;;
  callback_entry ;;
  addr <- NewByteArray sizeof_RawAddress ;;
  addr <- check_nonnull addr (ALOGE "Fail to get new array ") tt ;;
  src <- address_bytes bd_addr ;;
  addr <- SetByteArrayRegion addr 0 sizeof_RawAddress src ;;
  p_vals <- match p_vals with
            | Some v => ret v
            | None => crash (NullDeref "p_vals")
            end ;;
  let arraylen := u8 (settings_num_attr p_vals) * 2 in
  playerattribs <- NewByteArray arraylen ;;
  playerattribs <- check_nonnull playerattribs
    (ALOGE "Fail to new jbyteArray playerattribs ") tt ;;
  st <- playerapplicationsetting_changed_flatten p_vals arraylen
          playerattribs ;;
  g <- get_globals ;;
  CallVoidMethod (sCallbacksObj g) method_handleplayerappsettingchanged
    [JByteArray addr; JByteArray (snd st); JInt (Z.of_nat arraylen)].

Definition btavrcp_set_abs_vol_cmd_callback (bd_addr : option RawAddress)
  (abs_vol label : byte) : M unit unit :=
  ALOGI "%s" ;;
  callback_entry ;;
  addr <- NewByteArray sizeof_RawAddress ;;
  addr <- check_nonnull addr (ALOGE "Fail to get new array ") tt ;;
  src <- address_bytes bd_addr ;;
  addr <- SetByteArrayRegion addr 0 sizeof_RawAddress src ;;
  g <- get_globals ;;
  CallVoidMethod (sCallbacksObj g) method_handleSetAbsVolume
    [JByteArray addr; JByte abs_vol; JByte label].

Definition btavrcp_register_notification_absvol_callback
  (bd_addr : option RawAddress) (label : byte) : M unit unit :=
  ALOGI "%s" ;;
  callback_entry ;;
  addr <- NewByteArray sizeof_RawAddress ;;
  addr <- check_nonnull addr (ALOGE "Fail to get new array ") tt ;;
  src <- address_bytes bd_addr ;;
  addr <- SetByteArrayRegion addr 0 sizeof_RawAddress src ;;
  g <- get_globals ;;
  CallVoidMethod (sCallbacksObj g) method_handleRegisterNotificationAbsVol
    [JByteArray addr; JByte label].

(** id, string per attribute; the text field is taken null terminated. *)
Definition btavrcp_attr_rsp_callback (bd_addr : option RawAddress)
  (num_attr : byte) (p_attrs : list btrc_element_attr_val_t)
  (method : jmethodID) : M unit unit :=
  ALOGI "%s" ;;
  callback_entry ;;
  addr <- NewByteArray sizeof_RawAddress ;;
  addr <- check_nonnull addr (ALOGE "Fail to get new array ") tt ;;
  attribIds <- NewIntArray (u8 num_attr) ;;
  attribIds <- check_nonnull attribIds
    (ALOGE " failed to set new array for attribIds") tt ;;
  src <- address_bytes bd_addr ;;
  addr <- SetByteArrayRegion addr 0 sizeof_RawAddress src ;;
  strclazz <- FindClass "java/lang/String" ;;
  stringArray <- NewObjectArray (u8 num_attr) strclazz ;;
  stringArray <- check_nonnull stringArray
    (ALOGE " failed to get String array") tt ;;
  st <- for_upto (u8 num_attr) (fun _ _ => true)
    (fun i st =>
       a <- index p_attrs i ;;
       str <- NewStringUTF (elem_text a) ;;
       str <- check_nonnull (nonnull_value str) (ALOGE "Unable to get str") tt ;;
       ids <- SetIntArrayRegion (fst st) i 1 [attr_id_jint a] ;;
       strs <- SetObjectArrayElement (snd st) i str ;;
       ret (ids, strs))
    (attribIds, stringArray) ;;
  g <- get_globals ;;
  CallVoidMethod (sCallbacksObj g) method
    [JByteArray addr; JByte num_attr; JIntArray (fst st);
     JObjectArray strclazz (snd st)].

Definition btavrcp_track_changed_callback (bd_addr : option RawAddress)
  (num_attr : byte) (p_attrs : list btrc_element_attr_val_t) : M unit unit :=
  ALOGI "%s" ;;
  call (btavrcp_attr_rsp_callback bd_addr num_attr p_attrs
          method_handletrackchanged).

Definition btavrcp_play_position_changed_callback
  (bd_addr : option RawAddress) (song_len song_pos : Z) : M unit unit :=
  ALOGI "%s" ;;
  callback_entry ;;
  addr <- NewByteArray sizeof_RawAddress ;;
  addr <- check_nonnull addr (ALOGE "Fail to get new array ") tt ;;
  src <- address_bytes bd_addr ;;
  addr <- SetByteArrayRegion addr 0 sizeof_RawAddress src ;;
  g <- get_globals ;;
  CallVoidMethod (sCallbacksObj g) method_handleplaypositionchanged
    [JByteArray addr; JInt (to_jint song_len); JInt (to_jint song_pos)].

Definition btavrcp_play_status_changed_callback
  (bd_addr : option RawAddress) (play_status : byte) : M unit unit :=
  ALOGI "%s" ;;
  callback_entry ;;
  addr <- NewByteArray sizeof_RawAddress ;;
  addr <- check_nonnull addr (ALOGE "Fail to get new array ") tt ;;
  src <- address_bytes bd_addr ;;
  addr <- SetByteArrayRegion addr 0 sizeof_RawAddress src ;;
  g <- get_globals ;;
  CallVoidMethod (sCallbacksObj g) method_handleplaystatuschanged
    [JByteArray addr; JByte play_status].

(** The array sizes and the bound that the code takes from the headers. *)
Class bt_rc_h : Type := mk_bt_rc_h {
  BTRC_UID_SIZE : nat;
  BTRC_FEATURE_BIT_MASK_SIZE : nat;
  BTRC_MAX_ELEM_ATTR_SIZE : Z
}.

Section WithHeader.
Context {hdr : bt_rc_h}.

(** case BTRC_ITEM_MEDIA of btavrcp_get_folder_items_callback *)
Definition folder_items_media (i : nat) (media : btrc_item_media_t)
  (itemArray : list jvalue) : M unit (list jvalue) :=
  (* Parse name *)
  mediaName <- NewStringUTF (media_name media) ;;
  mediaName <- check_nonnull (nonnull_value mediaName)
    (ALOGE "%s can't allocate media name string!") tt ;;
  (* Parse UID *)
  uidByteArray <- NewByteArray BTRC_UID_SIZE ;;
  uidByteArray <- check_nonnull uidByteArray
    (ALOGE "%s can't allocate uid array!") tt ;;
  uidByteArray <- SetByteArrayRegion uidByteArray 0 BTRC_UID_SIZE
                    (media_uid media) ;;
  (* Parse Attrs *)
  attrIdArray <- NewIntArray (media_num_attrs media) ;;
  attrIdArray <- check_nonnull attrIdArray
    (ALOGE "%s can't allocate attr id array!") tt ;;
  strclazz <- FindClass "java/lang/String" ;;
  attrValArray <- NewObjectArray (media_num_attrs media) strclazz ;;
  attrValArray <- check_nonnull attrValArray
    (ALOGE "%s can't allocate attr val array!") tt ;;
  st <- for_upto (media_num_attrs media) (fun _ _ => true)
    (fun j st =>
       a <- index (media_p_attrs media) j ;;
       ids <- SetIntArrayRegion (fst st) j 1 [attr_id_jint a] ;;
       attrValStr <- NewStringUTF (elem_text a) ;;
       (* the test is on uidByteArray, not on attrValStr *)
       _ <- check_nonnull (Some uidByteArray)
              (ALOGE "%s can't allocate uid array!") tt ;;
       vals <- SetObjectArrayElement (snd st) j attrValStr ;;
       ret (ids, vals))
    (attrIdArray, attrValArray) ;;
  g <- get_globals ;;
  mediaObj <- CallObjectMethod (sCallbacksObj g)
    method_createFromNativeMediaItem
    [JByteArray uidByteArray; JInt (media_type media); mediaName;
     JIntArray (fst st); JObjectArray strclazz (snd st)] ;;
  mediaObj <- check_nonnull (nonnull_value mediaObj)
    (ALOGE "%s failed to creae MediaItem for type ITEM_MEDIA") tt ;;
  SetObjectArrayElement itemArray i mediaObj.

(** case BTRC_ITEM_FOLDER *)
Definition folder_items_folder (i : nat) (folder : btrc_item_folder_t)
  (itemArray : list jvalue) : M unit (list jvalue) :=
  (* Parse name *)
  folderName <- NewStringUTF (folder_name folder) ;;
  folderName <- check_nonnull (nonnull_value folderName)
    (ALOGE "%s can't allocate folder name string!") tt ;;
  (* Parse UID *)
  uidByteArray <- NewByteArray BTRC_UID_SIZE ;;
  uidByteArray <- check_nonnull uidByteArray
    (ALOGE "%s can't allocate uid array!") tt ;;
  uidByteArray <- SetByteArrayRegion uidByteArray 0 BTRC_UID_SIZE
                    (folder_uid folder) ;;
  g <- get_globals ;;
  folderObj <- CallObjectMethod (sCallbacksObj g)
    method_createFromNativeFolderItem
    [JByteArray uidByteArray; JInt (folder_type folder); folderName;
     JInt (folder_playable folder)] ;;
  folderObj <- check_nonnull (nonnull_value folderObj)
    (ALOGE "%s failed to create MediaItem for type ITEM_FOLDER") tt ;;
  SetObjectArrayElement itemArray i folderObj.

(** case BTRC_ITEM_PLAYER, after [isPlayerListing = true] *)
Definition folder_items_player (i : nat) (player : btrc_item_player_t)
  (itemArray : list jvalue) : M unit (list jvalue) :=
  let id := player_id player in
  let playerType := player_major_type player in
  let playStatus := player_play_status player in
  featureBitArray <- NewByteArray BTRC_FEATURE_BIT_MASK_SIZE ;;
  featureBitArray <- check_nonnull featureBitArray
    (ALOGE "%s failed to allocate featureBitArray") tt ;;
  featureBitArray <- SetByteArrayRegion featureBitArray 0
                       BTRC_FEATURE_BIT_MASK_SIZE (player_features player) ;;
  playerName <- NewStringUTF (player_name player) ;;
  playerName <- check_nonnull (nonnull_value playerName)
    (ALOGE "%s can't allocate player name string!") tt ;;
  g <- get_globals ;;
  playerObj <- CallObjectMethod (sCallbacksObj g)
    method_createFromNativePlayerItem
    [JInt id; playerName; JByteArray featureBitArray; JInt playStatus;
     JInt playerType] ;;
  playerObj <- check_nonnull (nonnull_value playerObj)
    (ALOGE "%s failed to create AvrcpPlayer from ITEM_PLAYER") tt ;;
  SetObjectArrayElement itemArray i playerObj.

(** The body of the loop over the items; the loop variables are
    [isPlayerListing] and the contents of [itemArray]. *)
Definition folder_items_body (folder_items : list btrc_folder_items_t)
  (i : nat) (st : bool * list jvalue) : M unit (bool * list jvalue) :=
  item <- index folder_items i ;;
  ALOGV "%s item type %d" ;;
  match item with
  | BTRC_ITEM_MEDIA media =>
      arr <- folder_items_media i media (snd st) ;;
      ret (fst st, arr)
  | BTRC_ITEM_FOLDER folder =>
      arr <- folder_items_folder i folder (snd st) ;;
      ret (fst st, arr)
  | BTRC_ITEM_PLAYER player =>
      arr <- folder_items_player i player (snd st) ;;
      ret (true, arr)
  | BTRC_ITEM_OTHER _ =>
      ALOGE "%s cannot understand type %d" ;;
      ret st
  end.

(** Folder items are a list of items that can be BTRC_ITEM_PLAYER,
    BTRC_ITEM_MEDIA or BTRC_ITEM_FOLDER; each is translated to its Java
    counterpart by calling the Java constructor for it. *)
Definition btavrcp_get_folder_items_callback (bd_addr : option RawAddress)
  (status : Z) (folder_items : list btrc_folder_items_t) (count : byte)
  : M unit unit :=
  ALOGV "%s count %d" ;;
  callback_entry ;;
  (* Inspect if the first element is a folder/item or player listing. *)
  isPlayerListing <-
    (if 0 <? u8 count
     then first <- index folder_items 0 ;; ret (is_player first)
     else ret false) ;;
  g <- get_globals ;;
  let cls := if isPlayerListing then class_AvrcpPlayer g
             else class_MediaBrowser_MediaItem g in
  itemArray <- NewObjectArray (u8 count) cls ;;
  itemArray <- check_nonnull itemArray
    (ALOGE "%s itemArray allocation failed.") tt ;;
  st <- for_upto (u8 count) (fun _ _ => true)
          (folder_items_body folder_items) (isPlayerListing, itemArray) ;;
  g <- get_globals ;;
  if fst st then
    CallVoidMethod (sCallbacksObj g) method_handleGetPlayerItemsRsp
      [JObjectArray cls (snd st)]
  else
    CallVoidMethod (sCallbacksObj g) method_handleGetFolderItemsRsp
      [JInt status; JObjectArray cls (snd st)].

End WithHeader.

Definition btavrcp_change_path_callback (bd_addr : option RawAddress)
  (count : Z) : M unit unit :=
  ALOGI "%s count %d" ;;
  callback_entry ;;
  g <- get_globals ;;
  CallVoidMethod (sCallbacksObj g) method_handleChangeFolderRsp
    [JInt (to_jint count)].

Definition btavrcp_set_browsed_player_callback (bd_addr : option RawAddress)
  (num_items depth : byte) : M unit unit :=
  ALOGI "%s items %d depth %d" ;;
  callback_entry ;;
  g <- get_globals ;;
  CallVoidMethod (sCallbacksObj g) method_handleSetBrowsedPlayerRsp
    [JInt (Z.of_nat (u8 num_items)); JInt (Z.of_nat (u8 depth))].

Definition btavrcp_set_addressed_player_callback
  (bd_addr : option RawAddress) (status : byte) : M unit unit :=
  ALOGI "%s status %d" ;;
  callback_entry ;;
  g <- get_globals ;;
  CallVoidMethod (sCallbacksObj g) method_handleSetAddressedPlayerRsp
    [JInt (Z.of_nat (u8 status))].

Definition btavrcp_get_vendor_rcfeatures_callback
  (bd_addr : option RawAddress) (features cover_art_psm : Z) : M unit unit :=
  ALOGV "%s" ;;
  callback_entry ;;
  addr <- NewByteArray sizeof_RawAddress ;;
  addr <- check_nonnull addr (ALOGE "Fail to new jbyteArray bd addr ") tt ;;
  src <- address_bytes bd_addr ;;
  addr <- SetByteArrayRegion addr 0 sizeof_RawAddress src ;;
  g <- get_globals ;;
  CallVoidMethod (sCallbacksObj g) method_getRcFeatures
    [JByteArray addr; JInt features; JInt cover_art_psm].

Definition btavrcp_get_elem_attr_rsp_callback (bd_addr : option RawAddress)
  (num_attr : byte) (p_attrs : list btrc_element_attr_val_t) : M unit unit :=
  ALOGI "%s" ;;
  call (btavrcp_attr_rsp_callback bd_addr num_attr p_attrs
          method_handleGetElementAttrResp).

Definition btavrcp_uids_changed_callback (bd_addr : option RawAddress)
  (uid_counter : Z) : M unit unit :=
  ALOGI "%s" ;;
  callback_entry ;;
  addr <- NewByteArray sizeof_RawAddress ;;
  addr <- check_nonnull addr (ALOGE "Fail to new jbyteArray bd addr ") tt ;;
  src <- address_bytes bd_addr ;;
  addr <- SetByteArrayRegion addr 0 sizeof_RawAddress src ;;
  g <- get_globals ;;
  CallVoidMethod (sCallbacksObj g) method_onUidsChanged
    [JByteArray addr; JInt uid_counter].

Definition btavrcp_search_response_callback (bd_addr : option RawAddress)
  (status : byte) (uid_counter num_items : Z) : M unit unit :=
  ALOGI "%s: status: %d, uid_counter: %d, num_items: %d" ;;
  callback_entry ;;
  g <- get_globals ;;
  CallVoidMethod (sCallbacksObj g) method_handleSearchRsp
    [JInt (Z.of_nat (u8 status)); JInt uid_counter; JInt (to_jint num_items)].

Definition btavrcp_get_item_attr_rsp_callback (bd_addr : option RawAddress)
  (num_attr : byte) (p_attrs : list btrc_element_attr_val_t) : M unit unit :=
  ALOGI "%s" ;;
  call (btavrcp_attr_rsp_callback bd_addr num_attr p_attrs
          method_handleGetItemAttrResp).

Definition btavrcp_num_of_items_rsp_callback (bd_addr : option RawAddress)
  (status : byte) (uid_counter num_items : Z) : M unit unit :=
  ALOGI "%s: status: %d, uid_counter: %d, num_items: %d" ;;
  callback_entry ;;
  g <- get_globals ;;
  CallVoidMethod (sCallbacksObj g) method_handleNumOfItemsRsp
    [JInt (Z.of_nat (u8 status)); JInt uid_counter; JInt (to_jint num_items)].

Definition btavrcp_addressed_player_update_callback
  (bd_addr : option RawAddress) (player_id uid_counter : Z) : M unit unit :=
  ALOGI "%s, player_id: %d, uid_counter: %d" ;;
  callback_entry ;;
  addr <- NewByteArray sizeof_RawAddress ;;
  addr <- check_nonnull addr (ALOGE "Fail to get new array ") tt ;;
  src <- address_bytes bd_addr ;;
  addr <- SetByteArrayRegion addr 0 sizeof_RawAddress src ;;
  g <- get_globals ;;
  CallVoidMethod (sCallbacksObj g) method_onAddressedPlayerChanged
    [JByteArray addr; JInt player_id; JInt uid_counter].

Definition btavrcp_available_player_changed_callback
  (bd_addr : option RawAddress) : M unit unit :=
  ALOGI "%s" ;;
  callback_entry ;;
  addr <- NewByteArray sizeof_RawAddress ;;
  addr <- check_nonnull addr (ALOGE "Fail to get new array ") tt ;;
  src <- address_bytes bd_addr ;;
  addr <- SetByteArrayRegion addr 0 sizeof_RawAddress src ;;
  g <- get_globals ;;
  CallVoidMethod (sCallbacksObj g) method_onAvailablePlayerChanged
    [JByteArray addr].

Definition btavrcp_now_playing_changed_callback
  (bd_addr : option RawAddress) : M unit unit :=
  ALOGI "%s" ;;
  callback_entry ;;
  addr <- NewByteArray sizeof_RawAddress ;;
  addr <- check_nonnull addr (ALOGE "Fail to get new array ") tt ;;
  src <- address_bytes bd_addr ;;
  addr <- SetByteArrayRegion addr 0 sizeof_RawAddress src ;;
  g <- get_globals ;;
  CallVoidMethod (sCallbacksObj g) method_onNowPlayingChanged
    [JByteArray addr].

Definition btavrcp_add_to_now_playing_callback (bd_addr : option RawAddress)
  (status : byte) : M unit unit :=
  ALOGI "%s status %d" ;;
  callback_entry ;;
  g <- get_globals ;;
  CallVoidMethod (sCallbacksObj g) method_handleAddToNowPlayingRsp
    [JInt (Z.of_nat (u8 status))].

Definition btavrcp_error_status_code_callback (bd_addr : option RawAddress)
  (opcode id status : byte) : M unit unit :=
  ALOGI "%s opcode: %d, id: %d, status: %d" ;;
  callback_entry ;;
  g <- get_globals ;;
  CallVoidMethod (sCallbacksObj g) method_handleErrorStatusCode
    [JInt (Z.of_nat (u8 opcode)); JInt (Z.of_nat (u8 id));
     JInt (Z.of_nat (u8 status))].

(** classInitNative resolves the method ids above and logs. *)
Definition classInitNative : M unit unit :=
  ALOGI "%s: succeeds".

(** ** Assignments to the statics *)

Definition set_sBluetoothAvrcpInterface {R} (p : ptr) : M R unit :=
  g <- get_globals ;;
  set_globals (mkStatics p (sBluetoothAvrcpVendorInterface g)
    (sCallbacksObj g) (class_MediaBrowser_MediaItem g) (class_AvrcpPlayer g)
    (sBluetoothVendorInterface g) (mCallbacksObj g)).

Definition set_sBluetoothAvrcpVendorInterface {R} (p : ptr) : M R unit :=
  g <- get_globals ;;
  set_globals (mkStatics (sBluetoothAvrcpInterface g) p
    (sCallbacksObj g) (class_MediaBrowser_MediaItem g) (class_AvrcpPlayer g)
    (sBluetoothVendorInterface g) (mCallbacksObj g)).

Definition set_sCallbacksObj {R} (p : ptr) : M R unit :=
  g <- get_globals ;;
  set_globals (mkStatics (sBluetoothAvrcpInterface g)
    (sBluetoothAvrcpVendorInterface g) p
    (class_MediaBrowser_MediaItem g) (class_AvrcpPlayer g)
    (sBluetoothVendorInterface g) (mCallbacksObj g)).

Definition set_class_MediaBrowser_MediaItem {R} (c : jclass) : M R unit :=
  g <- get_globals ;;
  set_globals (mkStatics (sBluetoothAvrcpInterface g)
    (sBluetoothAvrcpVendorInterface g) (sCallbacksObj g)
    c (class_AvrcpPlayer g)
    (sBluetoothVendorInterface g) (mCallbacksObj g)).

Definition set_class_AvrcpPlayer {R} (c : jclass) : M R unit :=
  g <- get_globals ;;
  set_globals (mkStatics (sBluetoothAvrcpInterface g)
    (sBluetoothAvrcpVendorInterface g) (sCallbacksObj g)
    (class_MediaBrowser_MediaItem g) c
    (sBluetoothVendorInterface g) (mCallbacksObj g)).

(** ** initNative and cleanupNative *)

Definition initNative (object : ptr) : M unit unit :=
  tmpMediaItem <- FindClass "android/media/browse/MediaBrowser$MediaItem" ;;
  c <- NewGlobalRef_class tmpMediaItem ;;
  set_class_MediaBrowser_MediaItem c ;;
  tmpBtPlayer <- FindClass "com/android/bluetooth/avrcpcontroller/AvrcpPlayer" ;;
  c <- NewGlobalRef_class tmpBtPlayer ;;
  set_class_AvrcpPlayer c ;;
  btInf <- getBluetoothInterface ;;
  when (is_null btInf)
    (ALOGE "Bluetooth module is not loaded" ;; return_ tt) ;;
  g <- get_globals ;;
  when (negb (is_null (sBluetoothAvrcpVendorInterface g)))
    (ALOGW "Cleaning up Avrcp Vendor Interface before initializing..." ;;
     hal_void AvrcpVendorCtrl "cleanup_vendor" [] ;;
     set_sBluetoothAvrcpVendorInterface NULL) ;;
  g <- get_globals ;;
  when (negb (is_null (sBluetoothAvrcpInterface g)))
    (ALOGW "Cleaning up Avrcp Interface before initializing..." ;;
     hal_void AvrcpCtrl "cleanup" [] ;;
     set_sBluetoothAvrcpInterface NULL) ;;
  g <- get_globals ;;
  when (negb (is_null (sCallbacksObj g)))
    (ALOGW "Cleaning up Avrcp callback object" ;;
     DeleteGlobalRef ;;
     set_sCallbacksObj NULL) ;;
  p <- get_profile_interface "BT_PROFILE_AV_RC_CTRL_ID" ;;
  set_sBluetoothAvrcpInterface p ;;
  when (is_null p)
    (ALOGE "Failed to get Bluetooth Avrcp Controller Interface" ;;
     return_ tt) ;;
  status <- hal_status AvrcpCtrl "init" [ACallbacks "sBluetoothAvrcpCallbacks"] ;;
  when (negb (is_success status))
    (ALOGE "Failed to initialize Bluetooth Avrcp Controller, status: %d" ;;
     set_sBluetoothAvrcpInterface NULL ;;
     return_ tt) ;;
  p <- get_profile_interface "BT_PROFILE_AV_RC_VENDOR_CTRL_ID" ;;
  set_sBluetoothAvrcpVendorInterface p ;;
  when (is_null p)
    (ALOGE "Failed to get Bluetooth Avrcp Vendor Controller Interface" ;;
     hal_void AvrcpCtrl "cleanup" [] ;;
     set_sBluetoothAvrcpInterface NULL ;;
     return_ tt) ;;
  status <- hal_status AvrcpVendorCtrl "init_vendor"
              [ACallbacks "sBluetoothAvrcpVendorCallbacks"] ;;
  when (negb (is_success status))
    (ALOGE "Failed to initialize Bluetooth Avrcp Vendor Controller, status: %d" ;;
     set_sBluetoothAvrcpVendorInterface NULL ;;
     hal_void AvrcpCtrl "cleanup" [] ;;
     set_sBluetoothAvrcpInterface NULL ;;
     return_ tt) ;;
  o <- NewGlobalRef object ;;
  set_sCallbacksObj o.

Definition cleanupNative (object : ptr) : M unit unit :=
  btInf <- getBluetoothInterface ;;
  when (is_null btInf)
    (ALOGE "Bluetooth module is not loaded" ;; return_ tt) ;;
  g <- get_globals ;;
  when (negb (is_null (sBluetoothAvrcpVendorInterface g)))
    (hal_void AvrcpVendorCtrl "cleanup_vendor" [] ;;
     set_sBluetoothAvrcpVendorInterface NULL) ;;
  g <- get_globals ;;
  when (negb (is_null (sBluetoothAvrcpInterface g)))
    (hal_void AvrcpCtrl "cleanup" [] ;;
     set_sBluetoothAvrcpInterface NULL) ;;
  g <- get_globals ;;
  when (negb (is_null (sCallbacksObj g)))
    (DeleteGlobalRef ;;
     set_sCallbacksObj NULL).

(** ** Outbound commands: Java to the native stack *)

Definition sendPassThroughCommandNative (address : list byte)
  (key_code key_state : Z) : M jboolean jboolean :=
  g <- get_globals ;;
  when (is_null (sBluetoothAvrcpInterface g)) (return_ JNI_FALSE) ;;
  ALOGI "%s: sBluetoothAvrcpInterface: %p" ;;
  ALOGI "key_code: %d, key_state: %d" ;;
  addr <- GetByteArrayElements address ;;
  addr <- check_nonnull addr (jniThrowIOException "EINVAL") JNI_FALSE ;;
  status <- hal_status AvrcpCtrl "send_pass_through_cmd"
    [AAddr addr; AInt (to_uint8 key_code); AInt (to_uint8 key_state)] ;;
  when (negb (is_success status))
    (ALOGE "Failed sending passthru command, status: %d") ;;
  ReleaseByteArrayElements ;;
  ret (if is_success status then JNI_TRUE else JNI_FALSE).

Definition sendGroupNavigationCommandNative (address : list byte)
  (key_code key_state : Z) : M jboolean jboolean :=
  g <- get_globals ;;
  when (is_null (sBluetoothAvrcpInterface g)) (return_ JNI_FALSE) ;;
  ALOGI "%s: sBluetoothAvrcpInterface: %p" ;;
  ALOGI "key_code: %d, key_state: %d" ;;
  addr <- GetByteArrayElements address ;;
  addr <- check_nonnull addr (jniThrowIOException "EINVAL") JNI_FALSE ;;
  status <- hal_status AvrcpCtrl "send_group_navigation_cmd"
    [AAddr addr; AInt (to_uint8 key_code); AInt (to_uint8 key_state)] ;;
  when (negb (is_success status))
    (ALOGE "Failed sending Grp Navigation command, status: %d") ;;
  ReleaseByteArrayElements ;;
  ret (if is_success status then JNI_TRUE else JNI_FALSE).

Definition setPlayerApplicationSettingValuesNative (address : list byte)
  (num_attrib : byte) (attrib_ids attrib_val : list byte) : M unit unit :=
  ALOGI "%s: sBluetoothAvrcpInterface: %p" ;;
  g <- get_globals ;;
  when (is_null (sBluetoothAvrcpInterface g)) (return_ tt) ;;
  addr <- GetByteArrayElements address ;;
  addr <- check_nonnull addr (jniThrowIOException "EINVAL") tt ;;
  (* new uint8_t[num_attrib], twice: a negative size makes new throw, and
     new never yields a null pointer *)
  (if (jbyte_val num_attrib <? 0)%Z then crash BadAlloc else ret tt) ;;
  let n := u8 num_attrib in
  let pAttrs := repeat x00 n in
  let pAttrsVal := repeat x00 n in
  attr <- GetByteArrayElements attrib_ids ;;
  attr_val <- GetByteArrayElements attrib_val ;;
  arrs <- match attr, attr_val with
          | Some a, Some v => ret (a, v)
          | _, _ => jniThrowIOException "EINVAL" ;; return_ tt
          end ;;
  st <- for_upto n (fun _ _ => true)
    (fun i st =>
       a <- index_pinned "attrib_ids" (fst arrs) i ;;
       v <- index_pinned "attrib_val" (snd arrs) i ;;
       ret (set_region (fst st) i [a], set_region (snd st) i [v]))
    (pAttrs, pAttrsVal) ;;
  status <- hal_status AvrcpCtrl "set_player_app_setting_cmd"
    [AAddr addr; AByte num_attrib; ABytes (Some (fst st));
     ABytes (Some (snd st))] ;;
  when (negb (is_success status))
    (ALOGE "Failed sending setPlAppSettValNative command, status: %d") ;;
  ReleaseByteArrayElements ;;
  ReleaseByteArrayElements ;;
  ReleaseByteArrayElements.

Definition sendAbsVolRspNative (address : list byte) (abs_vol label : Z)
  : M unit unit :=
  g <- get_globals ;;
  when (is_null (sBluetoothAvrcpInterface g)) (return_ tt) ;;
  addr <- GetByteArrayElements address ;;
  addr <- check_nonnull addr (jniThrowIOException "EINVAL") tt ;;
  ALOGI "%s: sBluetoothAvrcpInterface: %p" ;;
  status <- hal_status AvrcpCtrl "set_volume_rsp"
    [AAddr addr; AInt (to_uint8 abs_vol); AInt (to_uint8 label)] ;;
  when (negb (is_success status))
    (ALOGE "Failed sending sendAbsVolRspNative command, status: %d") ;;
  ReleaseByteArrayElements.

Definition sendRegisterAbsVolRspNative (address : list byte)
  (rsp_type : byte) (abs_vol label : Z) : M unit unit :=
  g <- get_globals ;;
  when (is_null (sBluetoothAvrcpInterface g)) (return_ tt) ;;
  addr <- GetByteArrayElements address ;;
  addr <- check_nonnull addr (jniThrowIOException "EINVAL") tt ;;
  ALOGI "%s: sBluetoothAvrcpInterface: %p" ;;
  status <- hal_status AvrcpCtrl "register_abs_vol_rsp"
    [AAddr addr; AByte rsp_type; AInt (to_uint8 abs_vol);
     AInt (to_uint8 label)] ;;
  when (negb (is_success status))
    (ALOGE "Failed sending sendRegisterAbsVolRspNative command, status: %d") ;;
  ReleaseByteArrayElements.

Definition getPlaybackStateNative (address : list byte) : M unit unit :=
  g <- get_globals ;;
  when (is_null (sBluetoothAvrcpInterface g)) (return_ tt) ;;
  addr <- GetByteArrayElements address ;;
  addr <- check_nonnull addr (jniThrowIOException "EINVAL") tt ;;
  ALOGV "%s: sBluetoothAvrcpInterface: %p" ;;
  status <- hal_status AvrcpCtrl "get_playback_state_cmd" [AAddr addr] ;;
  when (negb (is_success status))
    (ALOGE "Failed sending getPlaybackStateNative command, status: %d") ;;
  ReleaseByteArrayElements.

Definition getNowPlayingListNative (address : list byte) (start end_ : Z)
  : M unit unit :=
  g <- get_globals ;;
  when (is_null (sBluetoothAvrcpInterface g)) (return_ tt) ;;
  addr <- GetByteArrayElements address ;;
  addr <- check_nonnull addr (jniThrowIOException "EINVAL") tt ;;
  ALOGV "%s: sBluetoothAvrcpInterface: %p" ;;
  status <- hal_status AvrcpCtrl "get_now_playing_list_cmd"
    [AAddr addr; AInt start; AInt end_] ;;
  when (negb (is_success status))
    (ALOGE "Failed sending getNowPlayingListNative command, status: %d") ;;
  ReleaseByteArrayElements.

Definition getFolderListNative (address : list byte) (start end_ : Z)
  : M unit unit :=
  g <- get_globals ;;
  when (is_null (sBluetoothAvrcpInterface g)) (return_ tt) ;;
  addr <- GetByteArrayElements address ;;
  addr <- check_nonnull addr (jniThrowIOException "EINVAL") tt ;;
  ALOGV "%s: sBluetoothAvrcpInterface: %p" ;;
  status <- hal_status AvrcpCtrl "get_folder_list_cmd"
    [AAddr addr; AInt start; AInt end_] ;;
  when (negb (is_success status))
    (ALOGE "Failed sending getFolderListNative command, status: %d") ;;
  ReleaseByteArrayElements.

Definition getPlayerListNative (address : list byte) (start end_ : Z)
  : M unit unit :=
  g <- get_globals ;;
  when (is_null (sBluetoothAvrcpInterface g)) (return_ tt) ;;
  addr <- GetByteArrayElements address ;;
  addr <- check_nonnull addr (jniThrowIOException "EINVAL") tt ;;
  ALOGI "%s: sBluetoothAvrcpInterface: %p" ;;
  status <- hal_status AvrcpCtrl "get_player_list_cmd"
    [AAddr addr; AInt start; AInt end_] ;;
  when (negb (is_success status))
    (ALOGE "Failed sending getPlayerListNative command, status: %d") ;;
  ReleaseByteArrayElements.

Definition changeFolderPathNative (address : list byte) (uidCounter : Z)
  (direction : byte) (uidarr : list byte) : M unit unit :=
  g <- get_globals ;;
  when (is_null (sBluetoothAvrcpInterface g)) (return_ tt) ;;
  addr <- GetByteArrayElements address ;;
  addr <- check_nonnull addr (jniThrowIOException "EINVAL") tt ;;
  uid <- GetByteArrayElements uidarr ;;
  uid <- check_nonnull uid (jniThrowIOException "EINVAL") tt ;;
  ALOGI "%s: sBluetoothAvrcpInterface: %p" ;;
  status <- hal_status AvrcpCtrl "change_folder_path_cmd"
    [AAddr addr; AInt (to_uint16 uidCounter); AByte direction;
     ABytes (Some uid)] ;;
  when (negb (is_success status))
    (ALOGE "Failed sending changeFolderPathNative command, status: %d") ;;
  ReleaseByteArrayElements.

Definition setBrowsedPlayerNative (address : list byte) (id : Z)
  : M unit unit :=
  g <- get_globals ;;
  when (is_null (sBluetoothAvrcpInterface g)) (return_ tt) ;;
  addr <- GetByteArrayElements address ;;
  addr <- check_nonnull addr (jniThrowIOException "EINVAL") tt ;;
  ALOGI "%s: sBluetoothAvrcpInterface: %p" ;;
  status <- hal_status AvrcpCtrl "set_browsed_player_cmd"
    [AAddr addr; AInt (to_uint16 id)] ;;
  when (negb (is_success status))
    (ALOGE "Failed sending setBrowsedPlayerNative command, status: %d") ;;
  ReleaseByteArrayElements.

Definition setAddressedPlayerNative (address : list byte) (id : Z)
  : M unit unit :=
  g <- get_globals ;;
  when (is_null (sBluetoothAvrcpInterface g)) (return_ tt) ;;
  addr <- GetByteArrayElements address ;;
  addr <- check_nonnull addr (jniThrowIOException "EINVAL") tt ;;
  ALOGI "%s: sBluetoothAvrcpInterface: %p" ;;
  status <- hal_status AvrcpCtrl "set_addressed_player_cmd"
    [AAddr addr; AInt (to_uint16 id)] ;;
  when (negb (is_success status))
    (ALOGE "Failed sending setAddressedPlayerNative command, status: %d") ;;
  ReleaseByteArrayElements.

Definition playItemNative (address : list byte) (scope : byte)
  (uidArr : list byte) (uidCounter : Z) : M unit unit :=
  g <- get_globals ;;
  when (is_null (sBluetoothAvrcpInterface g)) (return_ tt) ;;
  addr <- GetByteArrayElements address ;;
  addr <- check_nonnull addr (jniThrowIOException "EINVAL") tt ;;
  uid <- GetByteArrayElements uidArr ;;
  uid <- check_nonnull uid (jniThrowIOException "EINVAL") tt ;;
  ALOGI "%s: sBluetoothAvrcpInterface: %p" ;;
  status <- hal_status AvrcpCtrl "play_item_cmd"
    [AAddr addr; AByte scope; ABytes (Some uid);
     AInt (to_uint16 uidCounter)] ;;
  when (negb (is_success status))
    (ALOGE "Failed sending playItemNative command, status: %d") ;;
  ReleaseByteArrayElements ;;
  ReleaseByteArrayElements.

Section WithHeader.
Context {hdr : bt_rc_h}.

(** [jint* attr = NULL; if ((numAttr > 0) && (attrIds != NULL)) { ... }] *)
Definition pin_attr_ids (numAttr : byte) (attrIds : option (list Z))
  : M unit (option (list Z)) :=
  match attrIds with
  | Some ids =>
      if (jbyte_val numAttr >? 0)%Z then
        attr <- GetIntArrayElements ids ;;
        attr <- check_nonnull attr (jniThrowIOException "EINVAL") tt ;;
        ret (Some attr)
      else ret None
  | None => ret None
  end.

Definition release_attr_ids (attr : option (list Z)) : M unit unit :=
  match attr with
  | Some _ => ReleaseIntArrayElements
  | None => ret tt
  end.

(** This api is used to fetch metadata for the currently playing track. *)
Definition getItemElementAttributesNative (address : list byte)
  (numAttr : byte) (attrIds : option (list Z)) : M unit unit :=
  g <- get_globals ;;
  when (is_null (sBluetoothAvrcpVendorInterface g)) (return_ tt) ;;
  addr <- GetByteArrayElements address ;;
  addr <- check_nonnull addr (jniThrowIOException "EINVAL") tt ;;
  when (jbyte_val numAttr >? BTRC_MAX_ELEM_ATTR_SIZE)%Z
    (ALOGE "getItemElementAttributesNative: number of attributes exceed maximum" ;;
     return_ tt) ;;
  attr <- pin_attr_ids numAttr attrIds ;;
  ALOGI "%s: sBluetoothAvrcpVendorInterface: %p" ;;
  status <- hal_status AvrcpVendorCtrl "get_media_element_attributes_vendor"
    [AAddr addr; AByte numAttr; AInts attr] ;;
  when (negb (is_success status))
    (ALOGE "Failed sending getItemElementAttributesNative command, status: %d") ;;
  release_attr_ids attr ;;
  ReleaseByteArrayElements.

Definition getElementAttributesNative (address : list byte)
  (numAttr : byte) (attrIds : option (list Z)) : M unit unit :=
  g <- get_globals ;;
  when (is_null (sBluetoothAvrcpVendorInterface g)) (return_ tt) ;;
  addr <- GetByteArrayElements address ;;
  addr <- check_nonnull addr (jniThrowIOException "EINVAL") tt ;;
  when (jbyte_val numAttr >? BTRC_MAX_ELEM_ATTR_SIZE)%Z
    (ALOGE "getElementAttributesNative: number of attributes exceed maximum" ;;
     return_ tt) ;;
  attr <- pin_attr_ids numAttr attrIds ;;
  ALOGI "%s: sBluetoothAvrcpVendorInterface: %p" ;;
  status <- hal_status AvrcpVendorCtrl "get_element_attributes_cmd"
    [AAddr addr; AByte numAttr; AInts attr] ;;
  when (negb (is_success status))
    (ALOGE "Failed sending getElementAttributesNative command, status: %d") ;;
  release_attr_ids attr ;;
  ReleaseByteArrayElements.

Definition getFolderItemsNative (address : list byte) (scope : byte)
  (start end_ : Z) (numAttr : byte) (attrIds : option (list Z))
  : M unit unit :=
  g <- get_globals ;;
  when (is_null (sBluetoothAvrcpVendorInterface g)) (return_ tt) ;;
  addr <- GetByteArrayElements address ;;
  addr <- check_nonnull addr (jniThrowIOException "EINVAL") tt ;;
  when (jbyte_val numAttr >? BTRC_MAX_ELEM_ATTR_SIZE)%Z
    (ALOGE "getFolderItemsNative: number of attributes exceed maximum" ;;
     return_ tt) ;;
  attr <- pin_attr_ids numAttr attrIds ;;
  ALOGI "%s: sBluetoothAvrcpVendorInterface: %p" ;;
  status <- hal_status AvrcpVendorCtrl "get_folder_items_vendor_cmd"
    [AAddr addr; AByte scope; AInt start; AInt end_; AByte numAttr;
     AInts attr] ;;
  when (negb (is_success status))
    (ALOGE "Failed sending getFolderItemsNative command, status: %d") ;;
  release_attr_ids attr ;;
  ReleaseByteArrayElements.

Definition searchNative (address : list byte) (charset strLen : Z)
  (pattern : list byte) : M unit unit :=
  g <- get_globals ;;
  when (is_null (sBluetoothAvrcpVendorInterface g)) (return_ tt) ;;
  ALOGI "%s: sBluetoothAvrcpVendorInterface: %p" ;;
  addr <- GetByteArrayElements address ;;
  addr <- check_nonnull addr (jniThrowIOException "EINVAL") tt ;;
  search_pattern <- GetStringUTFChars pattern ;;
  status <- hal_status AvrcpVendorCtrl "search_cmd"
    [AAddr addr; AInt (to_uint16 charset); AInt (to_uint16 strLen);
     ABytes search_pattern] ;;
  when (negb (is_success status))
    (ALOGE "Failed sending searchNative command, status: %d") ;;
  ReleaseByteArrayElements ;;
  ReleaseStringUTFChars.

Definition getSearchListNative (address : list byte) (start items : Z)
  : M unit unit :=
  g <- get_globals ;;
  when (is_null (sBluetoothAvrcpVendorInterface g)) (return_ tt) ;;
  addr <- GetByteArrayElements address ;;
  addr <- check_nonnull addr (jniThrowIOException "EINVAL") tt ;;
  ALOGV "%s: sBluetoothAvrcpVendorInterface: %p" ;;
  status <- hal_status AvrcpVendorCtrl "get_search_list_cmd"
    [AAddr addr; AInt start; AInt items] ;;
  when (negb (is_success status))
    (ALOGE "Failed sending getSearchListNative command, status: %d") ;;
  ReleaseByteArrayElements.

Definition addToNowPlayingNative (address : list byte) (scope : byte)
  (uidArr : list byte) (uidCounter : Z) : M unit unit :=
  g <- get_globals ;;
  when (is_null (sBluetoothAvrcpVendorInterface g)) (return_ tt) ;;
  addr <- GetByteArrayElements address ;;
  addr <- check_nonnull addr (jniThrowIOException "EINVAL") tt ;;
  uid <- GetByteArrayElements uidArr ;;
  uid <- check_nonnull uid (jniThrowIOException "EINVAL") tt ;;
  ALOGI "%s: sBluetoothAvrcpVendorInterface: %p" ;;
  status <- hal_status AvrcpVendorCtrl "add_to_now_playing_cmd"
    [AAddr addr; AByte scope; ABytes (Some uid);
     AInt (to_uint16 uidCounter)] ;;
  when (negb (is_success status))
    (ALOGE "Failed sending addToNowPlayingNative command, status: %d") ;;
  ReleaseByteArrayElements ;;
  ReleaseByteArrayElements.

Definition getItemAttributesNative (address : list byte) (scope : byte)
  (uidArr : list byte) (uidCounter : Z) (numAttr : byte)
  (attrIds : option (list Z)) : M unit unit :=
  g <- get_globals ;;
  when (is_null (sBluetoothAvrcpVendorInterface g)) (return_ tt) ;;
  addr <- GetByteArrayElements address ;;
  addr <- check_nonnull addr (jniThrowIOException "EINVAL") tt ;;
  uid <- GetByteArrayElements uidArr ;;
  uid <- check_nonnull uid (jniThrowIOException "EINVAL") tt ;;
  when (jbyte_val numAttr >? BTRC_MAX_ELEM_ATTR_SIZE)%Z
    (ALOGE "getItemAttributesNative: number of attributes exceed maximum" ;;
     return_ tt) ;;
  attr <- pin_attr_ids numAttr attrIds ;;
  ALOGI "%s: sBluetoothAvrcpVendorInterface: %p" ;;
  status <- hal_status AvrcpVendorCtrl "get_item_attr_cmd"
    [AAddr addr; AByte scope; ABytes (Some uid);
     AInt (to_uint16 uidCounter); AByte numAttr; AInts attr] ;;
  when (negb (is_success status))
    (ALOGE "Failed sending getItemAttributesNative command, status: %d") ;;
  release_attr_ids attr ;;
  ReleaseByteArrayElements ;;
  ReleaseByteArrayElements.

Definition getTotalNumOfItemsNative (address : list byte) (scope : byte)
  : M unit unit :=
  g <- get_globals ;;
  when (is_null (sBluetoothAvrcpVendorInterface g)) (return_ tt) ;;
  addr <- GetByteArrayElements address ;;
  addr <- check_nonnull addr (jniThrowIOException "EINVAL") tt ;;
  ALOGI "%s: sBluetoothAvrcpVendorInterface: %p" ;;
  status <- hal_status AvrcpVendorCtrl "get_num_of_items_cmd"
    [AAddr addr; AByte scope] ;;
  when (negb (is_success status))
    (ALOGE "Failed sending getTotalNumOfItemsNative command, status: %d") ;;
  ReleaseByteArrayElements.

(** The test is on sBluetoothAvrcpInterface, the call goes through
    sBluetoothAvrcpVendorInterface. *)
Definition fetchPlayerApplicationSettingNative (address : list byte)
  : M unit unit :=
  g <- get_globals ;;
  when (is_null (sBluetoothAvrcpInterface g)) (return_ tt) ;;
  addr <- GetByteArrayElements address ;;
  addr <- check_nonnull addr (jniThrowIOException "EINVAL") tt ;;
  ALOGV "%s: sBluetoothAvrcpInterface: %p" ;;
  status <- hal_status AvrcpVendorCtrl "fetch_player_app_setting"
    [AAddr addr] ;;
  when (negb (is_success status))
    (ALOGE "Failed sending fetch_player_app_setting command, status: %d") ;;
  ReleaseByteArrayElements.

Definition requestContinuingResponseNative (address : list byte)
  (pduId : byte) : M unit unit :=
  g <- get_globals ;;
  when (is_null (sBluetoothAvrcpVendorInterface g)) (return_ tt) ;;
  addr <- GetByteArrayElements address ;;
  addr <- check_nonnull addr (jniThrowIOException "EINVAL") tt ;;
  ALOGI "%s: sBluetoothAvrcpVendorInterface: %p" ;;
  status <- hal_status AvrcpVendorCtrl "request_continuing_response_cmd"
    [AAddr addr; AByte pduId] ;;
  when (negb (is_success status))
    (ALOGE "Failed sending requestContinuingResponseNative command, status: %d") ;;
  ReleaseByteArrayElements.

Definition abortContinuingResponseNative (address : list byte)
  (pduId : byte) : M unit unit :=
  g <- get_globals ;;
  when (is_null (sBluetoothAvrcpVendorInterface g)) (return_ tt) ;;
  addr <- GetByteArrayElements address ;;
  addr <- check_nonnull addr (jniThrowIOException "EINVAL") tt ;;
  ALOGI "%s: sBluetoothAvrcpVendorInterface: %p" ;;
  status <- hal_status AvrcpVendorCtrl "abort_continuing_response_cmd"
    [AAddr addr; AByte pduId] ;;
  when (negb (is_success status))
    (ALOGE "Failed sending abortContinuingResponseNative command, status: %d") ;;
  ReleaseByteArrayElements.

Definition disconnectNative (address : list byte) : M unit unit :=
  g <- get_globals ;;
  when (is_null (sBluetoothAvrcpVendorInterface g)) (return_ tt) ;;
  addr <- GetByteArrayElements address ;;
  addr <- check_nonnull addr (jniThrowIOException "EINVAL") tt ;;
  ALOGI "%s: sBluetoothAvrcpVendorInterface: %p" ;;
  status <- hal_status AvrcpVendorCtrl "disconnect" [AAddr addr] ;;
  when (negb (is_success status))
    (ALOGE "Failed to disconnect, status: %d") ;;
  ReleaseByteArrayElements.

(** ** The native method table (sMethods), commands only *)

Inductive command : Type :=
| SendPassThroughCommand (address : list byte) (key_code key_state : Z)
| SendGroupNavigationCommand (address : list byte) (key_code key_state : Z)
| SetPlayerApplicationSettingValues (address : list byte) (num_attrib : byte)
    (attrib_ids attrib_val : list byte)
| SendAbsVolRsp (address : list byte) (abs_vol label : Z)
| SendRegisterAbsVolRsp (address : list byte) (rsp_type : byte)
    (abs_vol label : Z)
| GetPlaybackState (address : list byte)
| GetNowPlayingList (address : list byte) (start end_ : Z)
| GetFolderList (address : list byte) (start end_ : Z)
| GetPlayerList (address : list byte) (start end_ : Z)
| ChangeFolderPath (address : list byte) (uidCounter : Z) (direction : byte)
    (uidarr : list byte)
| PlayItem (address : list byte) (scope : byte) (uidArr : list byte)
    (uidCounter : Z)
| SetBrowsedPlayer (address : list byte) (id : Z)
| SetAddressedPlayer (address : list byte) (id : Z)
| GetItemElementAttributes (address : list byte) (numAttr : byte)
    (attrIds : option (list Z))
| GetElementAttributes (address : list byte) (numAttr : byte)
    (attrIds : option (list Z))
| GetFolderItems (address : list byte) (scope : byte) (start end_ : Z)
    (numAttr : byte) (attrIds : option (list Z))
| Search (address : list byte) (charset strLen : Z) (pattern : list byte)
| GetSearchList (address : list byte) (start items : Z)
| AddToNowPlaying (address : list byte) (scope : byte) (uidArr : list byte)
    (uidCounter : Z)
| GetItemAttributes (address : list byte) (scope : byte) (uidArr : list byte)
    (uidCounter : Z) (numAttr : byte) (attrIds : option (list Z))
| GetTotalNumOfItems (address : list byte) (scope : byte)
| FetchPlayerApplicationSetting (address : list byte)
| RequestContinuingResponse (address : list byte) (pduId : byte)
| AbortContinuingResponse (address : list byte) (pduId : byte)
| Disconnect (address : list byte).

Definition exec_command (c : command) : env -> state -> bool * state * list event :=
  match c with
  | SendPassThroughCommand a k st => enter (sendPassThroughCommandNative a k st)
  | SendGroupNavigationCommand a k st =>
      enter (sendGroupNavigationCommandNative a k st)
  | SetPlayerApplicationSettingValues a n ids vals =>
      enter (setPlayerApplicationSettingValuesNative a n ids vals)
  | SendAbsVolRsp a v l => enter (sendAbsVolRspNative a v l)
  | SendRegisterAbsVolRsp a t v l => enter (sendRegisterAbsVolRspNative a t v l)
  | GetPlaybackState a => enter (getPlaybackStateNative a)
  | GetNowPlayingList a s e => enter (getNowPlayingListNative a s e)
  | GetFolderList a s e => enter (getFolderListNative a s e)
  | GetPlayerList a s e => enter (getPlayerListNative a s e)
  | ChangeFolderPath a c d u => enter (changeFolderPathNative a c d u)
  | PlayItem a sc u c => enter (playItemNative a sc u c)
  | SetBrowsedPlayer a i => enter (setBrowsedPlayerNative a i)
  | SetAddressedPlayer a i => enter (setAddressedPlayerNative a i)
  | GetItemElementAttributes a n ids =>
      enter (getItemElementAttributesNative a n ids)
  | GetElementAttributes a n ids => enter (getElementAttributesNative a n ids)
  | GetFolderItems a sc s e n ids => enter (getFolderItemsNative a sc s e n ids)
  | Search a c l p => enter (searchNative a c l p)
  | GetSearchList a s i => enter (getSearchListNative a s i)
  | AddToNowPlaying a sc u c => enter (addToNowPlayingNative a sc u c)
  | GetItemAttributes a sc u c n ids =>
      enter (getItemAttributesNative a sc u c n ids)
  | GetTotalNumOfItems a sc => enter (getTotalNumOfItemsNative a sc)
  | FetchPlayerApplicationSetting a =>
      enter (fetchPlayerApplicationSettingNative a)
  | RequestContinuingResponse a p => enter (requestContinuingResponseNative a p)
  | AbortContinuingResponse a p => enter (abortContinuingResponseNative a p)
  | Disconnect a => enter (disconnectNative a)
  end.

(** The interface pointer each command makes its HAL call through. *)
Definition hal_iface (c : command) : iface :=
  match c with
  | SendPassThroughCommand _ _ _ | SendGroupNavigationCommand _ _ _
  | SetPlayerApplicationSettingValues _ _ _ _ | SendAbsVolRsp _ _ _
  | SendRegisterAbsVolRsp _ _ _ _ | GetPlaybackState _
  | GetNowPlayingList _ _ _ | GetFolderList _ _ _ | GetPlayerList _ _ _
  | ChangeFolderPath _ _ _ _ | PlayItem _ _ _ _ | SetBrowsedPlayer _ _
  | SetAddressedPlayer _ _ => AvrcpCtrl
  | GetItemElementAttributes _ _ _ | GetElementAttributes _ _ _
  | GetFolderItems _ _ _ _ _ _ | Search _ _ _ _ | GetSearchList _ _ _
  | AddToNowPlaying _ _ _ _ | GetItemAttributes _ _ _ _ _ _
  | GetTotalNumOfItems _ _ | FetchPlayerApplicationSetting _
  | RequestContinuingResponse _ _ | AbortContinuingResponse _ _
  | Disconnect _ => AvrcpVendorCtrl
  end.

End WithHeader.

(** ** The callback tables sBluetoothAvrcpCallbacks and
    sBluetoothAvrcpVendorCallbacks *)

Inductive callback : Type :=
| PassthroughResponse (bd_addr : option RawAddress) (id pressed : Z)
| GroupnavigationResponse (id pressed : Z)
| ConnectionState (rc_connect br_connect : bool) (bd_addr : option RawAddress)
| GetRcfeatures (bd_addr : option RawAddress) (features : Z)
| SetplayerapplicationsettingRsp (bd_addr : option RawAddress) (accepted : byte)
| Playerapplicationsetting (bd_addr : option RawAddress) (num_attr : byte)
    (app_attrs : list btrc_player_app_attr_t) (num_ext_attr : byte)
    (ext_attrs : ptr)
| PlayerapplicationsettingChanged (bd_addr : option RawAddress)
    (p_vals : option btrc_player_settings_t)
| SetAbsVolCmd (bd_addr : option RawAddress) (abs_vol label : byte)
| RegisterNotificationAbsvol (bd_addr : option RawAddress) (label : byte)
| TrackChanged (bd_addr : option RawAddress) (num_attr : byte)
    (p_attrs : list btrc_element_attr_val_t)
| PlayPositionChanged (bd_addr : option RawAddress) (song_len song_pos : Z)
| PlayStatusChanged (bd_addr : option RawAddress) (play_status : byte)
| GetFolderItemsCb (bd_addr : option RawAddress) (status : Z)
    (folder_items : list btrc_folder_items_t) (count : byte)
| ChangePath (bd_addr : option RawAddress) (count : Z)
| SetBrowsedPlayerCb (bd_addr : option RawAddress) (num_items depth : byte)
| SetAddressedPlayerCb (bd_addr : option RawAddress) (status : byte)
| GetVendorRcfeatures (bd_addr : option RawAddress)
    (features cover_art_psm : Z)
| GetElemAttrRsp (bd_addr : option RawAddress) (num_attr : byte)
    (p_attrs : list btrc_element_attr_val_t)
| UidsChanged (bd_addr : option RawAddress) (uid_counter : Z)
| SearchResponse (bd_addr : option RawAddress) (status : byte)
    (uid_counter num_items : Z)
| GetItemAttrRsp (bd_addr : option RawAddress) (num_attr : byte)
    (p_attrs : list btrc_element_attr_val_t)
| NumOfItemsRsp (bd_addr : option RawAddress) (status : byte)
    (uid_counter num_items : Z)
| AddressedPlayerUpdate (bd_addr : option RawAddress)
    (player_id uid_counter : Z)
| AvailablePlayerChanged (bd_addr : option RawAddress)
| NowPlayingChanged (bd_addr : option RawAddress)
| AddToNowPlayingCb (bd_addr : option RawAddress) (status : byte)
| ErrorStatusCode (bd_addr : option RawAddress) (opcode id status : byte).

Definition exec_callback {hdr : bt_rc_h} (cb : callback)
  : env -> state -> bool * state * list event :=
  match cb with
  | PassthroughResponse a i p =>
      enter (btavrcp_passthrough_response_callback a i p)
  | GroupnavigationResponse i p =>
      enter (btavrcp_groupnavigation_response_callback i p)
  | ConnectionState r b a => enter (btavrcp_connection_state_callback r b a)
  | GetRcfeatures a f => enter (btavrcp_get_rcfeatures_callback a f)
  | SetplayerapplicationsettingRsp a x =>
      enter (btavrcp_setplayerapplicationsetting_rsp_callback a x)
  | Playerapplicationsetting a n attrs ne ext =>
      enter (btavrcp_playerapplicationsetting_callback a n attrs ne ext)
  | PlayerapplicationsettingChanged a v =>
      enter (btavrcp_playerapplicationsetting_changed_callback a v)
  | SetAbsVolCmd a v l => enter (btavrcp_set_abs_vol_cmd_callback a v l)
  | RegisterNotificationAbsvol a l =>
      enter (btavrcp_register_notification_absvol_callback a l)
  | TrackChanged a n p => enter (btavrcp_track_changed_callback a n p)
  | PlayPositionChanged a l p =>
      enter (btavrcp_play_position_changed_callback a l p)
  | PlayStatusChanged a s => enter (btavrcp_play_status_changed_callback a s)
  | GetFolderItemsCb a st items n =>
      enter (btavrcp_get_folder_items_callback a st items n)
  | ChangePath a n => enter (btavrcp_change_path_callback a n)
  | SetBrowsedPlayerCb a n d => enter (btavrcp_set_browsed_player_callback a n d)
  | SetAddressedPlayerCb a s => enter (btavrcp_set_addressed_player_callback a s)
  | GetVendorRcfeatures a f c =>
      enter (btavrcp_get_vendor_rcfeatures_callback a f c)
  | GetElemAttrRsp a n p => enter (btavrcp_get_elem_attr_rsp_callback a n p)
  | UidsChanged a u => enter (btavrcp_uids_changed_callback a u)
  | SearchResponse a s u n => enter (btavrcp_search_response_callback a s u n)
  | GetItemAttrRsp a n p => enter (btavrcp_get_item_attr_rsp_callback a n p)
  | NumOfItemsRsp a s u n => enter (btavrcp_num_of_items_rsp_callback a s u n)
  | AddressedPlayerUpdate a p u =>
      enter (btavrcp_addressed_player_update_callback a p u)
  | AvailablePlayerChanged a =>
      enter (btavrcp_available_player_changed_callback a)
  | NowPlayingChanged a => enter (btavrcp_now_playing_changed_callback a)
  | AddToNowPlayingCb a s => enter (btavrcp_add_to_now_playing_callback a s)
  | ErrorStatusCode a o i s =>
      enter (btavrcp_error_status_code_callback a o i s)
  end.

End AvrcpController.

(** * com_android_bluetooth_btservice_vendor.cpp *)

Module Vendor.

Definition method_onBredrCleanup := GetMethodID "onBredrCleanup" "(Z)V".
Definition method_iotDeviceBroadcast :=
  GetMethodID "iotDeviceBroadcast" "([BIIIIIIIII)V".
Definition method_getLinkKeyCallback :=
  GetMethodID "onGetLinkKey" "(Ljava/lang/String;[BZI)V".

(** *** snprintf with the conversion %02X *)

Definition upper_hex_digit (d : nat) : ascii :=
  match d with
  | 0 => "0" | 1 => "1" | 2 => "2" | 3 => "3" | 4 => "4"
  | 5 => "5" | 6 => "6" | 7 => "7" | 8 => "8" | 9 => "9"
  | 10 => "A" | 11 => "B" | 12 => "C" | 13 => "D" | 14 => "E"
  | _ => "F"
  end%char.

(** %X: the digits of [n] in base 16, most significant first, at least one. *)
Fixpoint upper_hex (fuel n : nat) (acc : list ascii) : list ascii :=
  match fuel with
  | O => acc
  | S fuel' =>
      let acc' := upper_hex_digit (n mod 16) :: acc in
      if n / 16 =? 0 then acc' else upper_hex fuel' (n / 16) acc'
  end.

(** %02X: padded with zeros on the left to at least two characters. *)
Definition format_02X (n : nat) : list ascii :=
  let digits := upper_hex (S n) n [] in
  repeat "0"%char (2 - length digits) ++ digits.

(** snprintf(buf, size, ...): at most size - 1 characters are kept. *)
Definition snprintf (size : nat) (out : list ascii) : list ascii :=
  firstn (size - 1) out.

Definition ascii_bytes (s : list ascii) : list byte :=
  map byte_of_ascii s.

Definition create_link_key_string (link_key : list byte) : M jvalue jvalue :=
  k0 <- index link_key 0 ;; k1 <- index link_key 1 ;;
  k2 <- index link_key 2 ;; k3 <- index link_key 3 ;;
  k4 <- index link_key 4 ;; k5 <- index link_key 5 ;;
  k6 <- index link_key 6 ;; k7 <- index link_key 7 ;;
  k8 <- index link_key 8 ;; k9 <- index link_key 9 ;;
  k10 <- index link_key 10 ;; k11 <- index link_key 11 ;;
  k12 <- index link_key 12 ;; k13 <- index link_key 13 ;;
  k14 <- index link_key 14 ;; k15 <- index link_key 15 ;;
  let c_linkkey :=
    snprintf 128
      (concat (map (fun k => format_02X (u8 k))
         [k0; k1; k2; k3; k4; k5; k6; k7; k8; k9; k10; k11; k12; k13; k14;
          k15])) in
  NewStringUTF (ascii_bytes c_linkkey).

(** ** Callbacks *)

Definition bredr_cleanup_callback (status : bool) : M unit unit :=
  ALOGI "%s" ;;
  valid <- CallbackEnv_valid ;;
  when (negb valid) (return_ tt) ;;
  g <- get_globals ;;
  CallVoidMethod (mCallbacksObj g) method_onBredrCleanup [JBool status].

Definition iot_device_broadcast_callback (bd_addr : option RawAddress)
  (error error_info event_mask : Z) (lmp_ver : byte)
  (lmp_subver manufacturer_id : Z) (power_level rssi link_quality : byte)
  : M unit unit :=
  ALOGI "%s" ;;
  valid <- CallbackEnv_valid ;;
  when (negb valid) (return_ tt) ;;
  addr <- NewByteArray sizeof_RawAddress ;;
  addr <- check_nonnull addr
    (ALOGE "Error while allocation byte array in %s") tt ;;
  src <- address_bytes bd_addr ;;
  addr <- SetByteArrayRegion addr 0 sizeof_RawAddress src ;;
  g <- get_globals ;;
  CallVoidMethod (mCallbacksObj g) method_iotDeviceBroadcast
    [JByteArray addr; JInt error; JInt error_info; JInt (to_jint event_mask);
     JInt (Z.of_nat (u8 lmp_ver)); JInt lmp_subver; JInt manufacturer_id;
     JInt (Z.of_nat (u8 power_level)); JInt (Z.of_nat (u8 rssi));
     JInt (Z.of_nat (u8 link_quality))].

Definition get_link_key_callback (bd_addr : option RawAddress)
  (key_found : bool) (link_key : list byte) (key_type : Z) : M unit unit :=
  ALOGI "%s" ;;
  valid <- CallbackEnv_valid ;;
  when (negb valid) (return_ tt) ;;
  when (match bd_addr with None => true | Some _ => false end)
    (ALOGE "Address is null in %s" ;; return_ tt) ;;
  addr <- NewByteArray sizeof_RawAddress ;;
  addr <- check_nonnull addr (ALOGE "Address allocation failed in %s") tt ;;
  src <- address_bytes bd_addr ;;
  addr <- SetByteArrayRegion addr 0 sizeof_RawAddress src ;;
  linkkey <- call (create_link_key_string link_key) ;;
  g <- get_globals ;;
  CallVoidMethod (mCallbacksObj g) method_getLinkKeyCallback
    [linkkey; JByteArray addr; JBool key_found; JInt key_type].

(** classInitNative resolves the three method ids and logs. *)
Definition classInitNative : M unit unit :=
  ALOGI "%s: succeeds".

(** ** Assignments to the statics *)

Definition set_sBluetoothVendorInterface {R} (p : ptr) : M R unit :=
  g <- get_globals ;;
  set_globals (mkStatics (sBluetoothAvrcpInterface g)
    (sBluetoothAvrcpVendorInterface g) (sCallbacksObj g)
    (class_MediaBrowser_MediaItem g) (class_AvrcpPlayer g)
    p (mCallbacksObj g)).

Definition set_mCallbacksObj {R} (p : ptr) : M R unit :=
  g <- get_globals ;;
  set_globals (mkStatics (sBluetoothAvrcpInterface g)
    (sBluetoothAvrcpVendorInterface g) (sCallbacksObj g)
    (class_MediaBrowser_MediaItem g) (class_AvrcpPlayer g)
    (sBluetoothVendorInterface g) p).

(** ** initNative and cleanupNative *)

Definition initNative (object : ptr) : M unit unit :=
  btInf <- getBluetoothInterface ;;
  when (is_null btInf)
    (ALOGE "Bluetooth module is not loaded" ;; return_ tt) ;;
  g <- get_globals ;;
  when (negb (is_null (mCallbacksObj g)))
    (ALOGW "Cleaning up Bluetooth Vendor callback object" ;;
     DeleteGlobalRef ;;
     set_mCallbacksObj NULL) ;;
  p <- get_profile_interface "BT_PROFILE_VENDOR_ID" ;;
  set_sBluetoothVendorInterface p ;;
  when (is_null p)
    (ALOGE "Failed to get Bluetooth Vendor Interface" ;; return_ tt) ;;
  status <- hal_status BtVendor "init" [ACallbacks "sBluetoothVendorCallbacks"] ;;
  when (negb (is_success status))
    (ALOGE "Failed to initialize Bluetooth Vendor, status: %d" ;;
     set_sBluetoothVendorInterface NULL ;;
     return_ tt) ;;
  o <- NewGlobalRef object ;;
  set_mCallbacksObj o.

Definition cleanupNative (object : ptr) : M unit unit :=
  btInf <- getBluetoothInterface ;;
  when (is_null btInf)
    (ALOGE "Bluetooth module is not loaded" ;; return_ tt) ;;
  g <- get_globals ;;
  when (negb (is_null (sBluetoothVendorInterface g)))
    (ALOGW "Cleaning up Bluetooth Vendor Interface..." ;;
     hal_void BtVendor "cleanup" [] ;;
     set_sBluetoothVendorInterface NULL) ;;
  g <- get_globals ;;
  when (negb (is_null (mCallbacksObj g)))
    (ALOGW "Cleaning up Bluetooth Vendor callback object" ;;
     DeleteGlobalRef ;;
     set_mCallbacksObj NULL).

(** ** Outbound commands *)

Definition bredrcleanupNative : M bool bool :=
  ALOGI "%s" ;;
  let result := JNI_FALSE in
  g <- get_globals ;;
  when (is_null (sBluetoothVendorInterface g)) (return_ result) ;;
  hal_void BtVendor "bredrcleanup" [] ;;
  ret JNI_TRUE.

Definition setWifiStateNative (status : jboolean) : M bool bool :=
  ALOGI "%s" ;;
  let result := JNI_FALSE in
  g <- get_globals ;;
  when (is_null (sBluetoothVendorInterface g)) (return_ result) ;;
  hal_void BtVendor "set_wifi_state" [ABool status] ;;
  ret JNI_TRUE.

Definition getProfileInfoNative (profile_id profile_info : Z) : M bool bool :=
  ALOGI "%s" ;;
  let result := JNI_FALSE in
  g <- get_globals ;;
  when (is_null (sBluetoothVendorInterface g)) (return_ result) ;;
  result <- hal_bool BtVendor "get_profile_info"
              [AInt profile_id; AInt profile_info] ;;
  ret result.

Definition getLinkKeyNative (address : list byte) : M unit unit :=
  ALOGI "%s" ;;
  g <- get_globals ;;
  when (is_null (sBluetoothVendorInterface g)) (return_ tt) ;;
  addr <- GetByteArrayElements address ;;
  addr <- check_nonnull addr (jniThrowIOException "EINVAL") tt ;;
  hal_void BtVendor "get_link_key" [AAddr addr] ;;
  ReleaseByteArrayElements.

Inductive command : Type :=
| Bredrcleanup
| SetWifiState (status : jboolean)
| GetProfileInfo (profile_id profile_info : Z)
| GetLinkKey (address : list byte).

Definition exec_command (c : command)
  : env -> state -> bool * state * list event :=
  match c with
  | Bredrcleanup => enter bredrcleanupNative
  | SetWifiState b => enter (setWifiStateNative b)
  | GetProfileInfo i n => enter (getProfileInfoNative i n)
  | GetLinkKey a => enter (getLinkKeyNative a)
  end.

Inductive callback : Type :=
| BredrCleanup (status : bool)
| IotDeviceBroadcast (bd_addr : option RawAddress)
    (error error_info event_mask : Z) (lmp_ver : byte)
    (lmp_subver manufacturer_id : Z) (power_level rssi link_quality : byte)
| GetLinkKeyCb (bd_addr : option RawAddress) (key_found : bool)
    (link_key : list byte) (key_type : Z).

Definition exec_callback (cb : callback)
  : env -> state -> bool * state * list event :=
  match cb with
  | BredrCleanup s => enter (bredr_cleanup_callback s)
  | IotDeviceBroadcast a e i m v sv mf p r q =>
      enter (iot_device_broadcast_callback a e i m v sv mf p r q)
  | GetLinkKeyCb a f k t => enter (get_link_key_callback a f k t)
  end.

End Vendor.

(** * The two bindings together *)

Inductive command : Type :=
| AvrcpCommand (c : AvrcpController.command)
| VendorCommand (c : Vendor.command).

Inductive operation : Type :=
| AvrcpClassInit
| VendorClassInit
| AvrcpInit (object : ptr)
| AvrcpCleanup (object : ptr)
| VendorInit (object : ptr)
| VendorCleanup (object : ptr)
| Command (c : command)
| AvrcpCallback (cb : AvrcpController.callback)
| VendorCallback (cb : Vendor.callback).

Section WithHeader.
Context {hdr : AvrcpController.bt_rc_h}.

Definition exec_command (c : command)
  : env -> state -> bool * state * list event :=
  match c with
  | AvrcpCommand c => AvrcpController.exec_command c
  | VendorCommand c => Vendor.exec_command c
  end.

(** The interface pointer a command makes its HAL call through. *)
Definition hal_iface (c : command) : iface :=
  match c with
  | AvrcpCommand c => AvrcpController.hal_iface c
  | VendorCommand _ => BtVendor
  end.

Definition exec (op : operation) : env -> state -> bool * state * list event :=
  match op with
  | AvrcpClassInit => enter AvrcpController.classInitNative
  | VendorClassInit => enter Vendor.classInitNative
  | AvrcpInit o => enter (AvrcpController.initNative o)
  | AvrcpCleanup o => enter (AvrcpController.cleanupNative o)
  | VendorInit o => enter (Vendor.initNative o)
  | VendorCleanup o => enter (Vendor.cleanupNative o)
  | Command c => exec_command c
  | AvrcpCallback cb => AvrcpController.exec_callback cb
  | VendorCallback cb => Vendor.exec_callback cb
  end.

Definition state_after (r : bool * state * list event) : state := snd (fst r).
Definition completed (r : bool * state * list event) : bool := fst (fst r).
Definition trace_of (r : bool * state * list event) : list event := snd r.

(** The states of the process: the statics start out null, and change only
    by the operations of the two bindings, whatever the foreign side
    answers. *)
Inductive reachable : state -> Prop :=
| reachable_start : reachable initial_state
| reachable_step (s : state) (op : operation) (e : env) :
    reachable s -> reachable (state_after (exec op e s)).

End WithHeader.

(** sBluetoothAvrcpInterface and sBluetoothAvrcpVendorInterface are both
    NULL or both non-NULL. *)
Definition paired (g : statics) : Prop :=
  is_null (sBluetoothAvrcpInterface g)
  = is_null (sBluetoothAvrcpVendorInterface g).

(** The operations that assign to the interface pointers and to the
    callback object references. *)
Definition init_or_cleanup (op : operation) : bool :=
  match op with
  | AvrcpInit _ | AvrcpCleanup _ | VendorInit _ | VendorCleanup _ => true
  | _ => false
  end.

(** The commands that take an attribute count, and the number of arrays
    each pins before it compares the count with the bound. *)
Definition num_attr_of (c : AvrcpController.command) : option (byte * nat) :=
  match c with
  | AvrcpController.GetItemElementAttributes _ n _ => Some (n, 1)
  | AvrcpController.GetElementAttributes _ n _ => Some (n, 1)
  | AvrcpController.GetFolderItems _ _ _ _ n _ => Some (n, 1)
  | AvrcpController.GetItemAttributes _ _ _ _ n _ => Some (n, 2)
  | _ => None
  end.

(** ** What the claims compare the code with *)

(** An attribute whose [num_val] values are all in its [attr_val] array. *)
Definition app_attr_ok (a : AvrcpController.btrc_player_app_attr_t) : bool :=
  u8 (AvrcpController.app_num_val a)
  <=? length (AvrcpController.app_attr_val a).

(** 2 bytes for id and num, then the values. *)
Definition app_attr_size (a : AvrcpController.btrc_player_app_attr_t) : nat :=
  2 + u8 (AvrcpController.app_num_val a).

Definition is_some {A} (o : option A) : bool :=
  match o with Some _ => true | None => false end.

(** <id, num_values, values[]> per attribute. *)
Definition flat_app_attr (a : AvrcpController.btrc_player_app_attr_t)
  : list byte :=
  AvrcpController.app_attr_id a :: AvrcpController.app_num_val a
  :: firstn (u8 (AvrcpController.app_num_val a))
       (AvrcpController.app_attr_val a).

Definition flat_app_attrs (n : nat)
  (attrs : list AvrcpController.btrc_player_app_attr_t) : list byte :=
  flat_map flat_app_attr (firstn n attrs).

(** <id, val> per attribute. *)
Definition flat_settings (n : nat) (ids vals : list byte) : list byte :=
  flat_map (fun iv => [fst iv; snd iv]) (combine (firstn n ids) (firstn n vals)).

Definition sum_list (l : list nat) : nat := fold_right Nat.add 0 l.

(** The uppercase hexadecimal encoding of a byte string: two digits per
    byte, high nibble first, bytes in order. *)
Definition hex_digits : list ascii :=
  list_ascii_of_string "0123456789ABCDEF".

Definition hex_of_byte (b : byte) : list ascii :=
  [nth (u8 b / 16) hex_digits "0"%char; nth (u8 b mod 16) hex_digits "0"%char].

Definition hex_encode (bytes : list byte) : list ascii :=
  flat_map hex_of_byte bytes.

(** The binding calls number [t], ..., [t + k - 1] all succeed. *)
Fixpoint all_ok_from (e : env) (t k : nat) : bool :=
  match k with
  | O => true
  | S k' => ext_ok e t && all_ok_from e (S t) k'
  end.

(** The Java string that NewStringUTF builds from the text of an attribute. *)
Definition jstring_of_text (a : AvrcpController.btrc_element_attr_val_t)
  : jvalue :=
  JString (c_str (AvrcpController.elem_text a)).

(** *** The folder items *)

(** The binding calls that the translation of one item makes. *)
Definition item_calls (it : AvrcpController.btrc_folder_items_t) : nat :=
  match it with
  | AvrcpController.BTRC_ITEM_PLAYER _ => 3
  | AvrcpController.BTRC_ITEM_FOLDER _ => 3
  | AvrcpController.BTRC_ITEM_MEDIA m => 6 + AvrcpController.media_num_attrs m
  | AvrcpController.BTRC_ITEM_OTHER _ => 0
  end.

(** The object that a Java constructor returns, as binding call [k]. *)
Definition object_at (e : env) (k : nat) : jvalue :=
  match ext_ptr e k with NULL => JNull | Ptr h => JObject h end.

(** The element of the item array for one item: the object that its
    constructor, the last of its binding calls, returns; an item of another
    type leaves its element null. *)
Definition built_item (e : env) (t : nat)
  (it : AvrcpController.btrc_folder_items_t) : jvalue :=
  match it with
  | AvrcpController.BTRC_ITEM_OTHER _ => JNull
  | _ => object_at e (t + item_calls it - 1)
  end.

(** The elements of the item array, the translation starting at binding
    call [t]. *)
Fixpoint built_items (e : env) (t : nat)
  (items : list AvrcpController.btrc_folder_items_t) : list jvalue :=
  match items with
  | [] => []
  | it :: rest => built_item e t it :: built_items e (t + item_calls it) rest
  end.

Section WithHeader.
Context {hdr : AvrcpController.bt_rc_h}.

(** An item whose arrays have the sizes that the code reads. *)
Definition item_ok (it : AvrcpController.btrc_folder_items_t) : bool :=
  match it with
  | AvrcpController.BTRC_ITEM_PLAYER p =>
      AvrcpController.BTRC_FEATURE_BIT_MASK_SIZE
      <=? length (AvrcpController.player_features p)
  | AvrcpController.BTRC_ITEM_FOLDER f =>
      AvrcpController.BTRC_UID_SIZE <=? length (AvrcpController.folder_uid f)
  | AvrcpController.BTRC_ITEM_MEDIA m =>
      (AvrcpController.BTRC_UID_SIZE <=? length (AvrcpController.media_uid m))
      && (AvrcpController.media_num_attrs m
          <=? length (AvrcpController.media_p_attrs m))
  | AvrcpController.BTRC_ITEM_OTHER _ => true
  end.

(** The call of the Java constructor that matches the type of an item. *)
Definition constructor_call (obj : ptr)
  (it : AvrcpController.btrc_folder_items_t) : list event :=
  match it with
  | AvrcpController.BTRC_ITEM_MEDIA m =>
      [JavaCall obj AvrcpController.method_createFromNativeMediaItem
         [JByteArray (firstn AvrcpController.BTRC_UID_SIZE
                        (AvrcpController.media_uid m));
          JInt (AvrcpController.media_type m);
          JString (c_str (AvrcpController.media_name m));
          JIntArray (map AvrcpController.attr_id_jint
                       (firstn (AvrcpController.media_num_attrs m)
                          (AvrcpController.media_p_attrs m)));
          JObjectArray (Class "java/lang/String")
            (map jstring_of_text
               (firstn (AvrcpController.media_num_attrs m)
                  (AvrcpController.media_p_attrs m)))]]
  | AvrcpController.BTRC_ITEM_FOLDER f =>
      [JavaCall obj AvrcpController.method_createFromNativeFolderItem
         [JByteArray (firstn AvrcpController.BTRC_UID_SIZE
                        (AvrcpController.folder_uid f));
          JInt (AvrcpController.folder_type f);
          JString (c_str (AvrcpController.folder_name f));
          JInt (AvrcpController.folder_playable f)]]
  | AvrcpController.BTRC_ITEM_PLAYER p =>
      [JavaCall obj AvrcpController.method_createFromNativePlayerItem
         [JInt (AvrcpController.player_id p);
          JString (c_str (AvrcpController.player_name p));
          JByteArray (firstn AvrcpController.BTRC_FEATURE_BIT_MASK_SIZE
                        (AvrcpController.player_features p));
          JInt (AvrcpController.player_play_status p);
          JInt (AvrcpController.player_major_type p)]]
  | AvrcpController.BTRC_ITEM_OTHER _ => []
  end.

(** What the translation of one item leaves: the object in its place in
    the item array, the statics as they were, the constructor call. *)
Definition translated (e : env) (s : state)
  (it : AvrcpController.btrc_folder_items_t)
  (b : bool) (pre : list jvalue) (m : nat)
  (o : outcome unit (bool * list jvalue)) (s' : state) (t : list event)
  : Prop :=
  o = Val (b || AvrcpController.is_player it,
           (pre ++ [built_item e (tick s) it]) ++ repeat JNull m)
  /\ s' = mkState (globals s) (tick s + item_calls it)
  /\ java_calls t = constructor_call (sCallbacksObj (globals s)) it.

End WithHeader.

Definition first_is_player (items : list AvrcpController.btrc_folder_items_t)
  : bool :=
  match items with
  | it :: _ => AvrcpController.is_player it
  | [] => false
  end.

(** The call of one of the two handlers, on the item array [arr]. *)
Definition handler_call (g : statics) (status : Z)
  (player_listing player_array : bool) (arr : list jvalue) : event :=
  let cls := if player_array then class_AvrcpPlayer g
             else class_MediaBrowser_MediaItem g in
  if player_listing then
    JavaCall (sCallbacksObj g) AvrcpController.method_handleGetPlayerItemsRsp
      [JObjectArray cls arr]
  else
    JavaCall (sCallbacksObj g) AvrcpController.method_handleGetFolderItemsRsp
      [JInt status; JObjectArray cls arr].

Definition is_handler_call (ev : event) : bool :=
  match ev with
  | JavaCall _ m _ =>
      String.eqb (java_name m) "handleGetPlayerItemsRsp"
      || String.eqb (java_name m) "handleGetFolderItemsRsp"
  | _ => false
  end.

Definition not_handler (ev : event) : Prop := is_handler_call ev = false.

(** A listing of player items only, or of no player item. *)
Definition exclusive (items : list AvrcpController.btrc_folder_items_t)
  : Prop :=
  forallb AvrcpController.is_player items = true
  \/ existsb AvrcpController.is_player items = false.

(** A foreign side on which every binding call succeeds. *)
Definition all_ok (e : env) : Prop :=
  (forall n, ext_ok e n = true) /\ (forall n, ext_ptr e n <> NULL).

Definition friendly_env : env :=
  mkEnv (fun _ => true) (fun n => Ptr (N.of_nat (S n)))
    (fun _ => BT_STATUS_SUCCESS) (fun _ _ => x00).

(** The n-th binding call fails, the others succeed. *)
Definition failing_at (n : nat) : env :=
  mkEnv (fun k => negb (k =? n)) (fun k => Ptr (N.of_nat (S k)))
    (fun _ => BT_STATUS_SUCCESS) (fun _ _ => x00).

(** The vendor controller interface is missing: the second
    get_profile_interface of initNative (foreign call 7) yields NULL. *)
Definition vendor_missing_env : env :=
  mkEnv (fun _ => true)
    (fun n => if n =? 7 then NULL else Ptr (N.of_nat (S n)))
    (fun _ => BT_STATUS_SUCCESS) (fun _ _ => x00).

(** The state after a successful AvrcpController.initNative, and after one
    that failed to get the vendor controller interface. *)
Definition connected_state : state :=
  snd (fst (enter (AvrcpController.initNative (Ptr 1)) friendly_env
              initial_state)).

Definition half_connected_state : state :=
  snd (fst (enter (AvrcpController.initNative (Ptr 1)) vendor_missing_env
              initial_state)).

(** A link key and an address to try the callbacks on. *)
Definition sample_link_key : list byte :=
  [xde; xad; xbe; xef; x00; x01; x02; x03; x04; x05; x06; x07; x08; x09;
   x0a; x0b].

Definition sample_address : RawAddress :=
  mkRawAddress x00 x1a x7d xda x71 x13.

(** Native values to try the callbacks on. *)
Definition sample_app_attrs : list AvrcpController.btrc_player_app_attr_t :=
  [AvrcpController.mkAppAttr x01 x02 (x01 :: x02 :: repeat x00 14);
   AvrcpController.mkAppAttr x02 x01 (x03 :: repeat x00 15)].

Definition sample_settings : AvrcpController.btrc_player_settings_t :=
  AvrcpController.mkSettings x02 (x01 :: x02 :: repeat x00 6)
    (x02 :: x03 :: repeat x00 6).


Definition sample_media : AvrcpController.btrc_item_media_t :=
  AvrcpController.mkMedia (repeat x01 8) 0 [x4d; x00] 1
    [AvrcpController.mkElemAttr 1 [x54; x00]].

Definition sample_folder : AvrcpController.btrc_item_folder_t :=
  AvrcpController.mkFolder (repeat x02 8) 0 1 [x46; x00].

Definition sample_player : AvrcpController.btrc_item_player_t :=
  AvrcpController.mkPlayer 1 1 0 (repeat xff 16) [x50; x00].

(** The names of the Java methods called, in order. *)
Definition called_methods (t : list event) : list string :=
  flat_map (fun ev => match ev with
                      | JavaCall _ m _ => [java_name m]
                      | _ => []
                      end) t.

(** The sizes of the AOSP headers. *)
Definition aosp_bt_rc_h : AvrcpController.bt_rc_h :=
  AvrcpController.mk_bt_rc_h 8 16 8.

(** ** Properties of computations *)

(** The computation leaves the statics as they are. *)
Definition frames {R A} (m : M R A) : Prop :=
  forall e s, globals (snd (fst (m e s))) = globals s.

(** Every call the computation records satisfies [P]. *)
Definition emits {R A} (P : event -> Prop) (m : M R A) : Prop :=
  forall e s, Forall P (snd (m e s)).

Definition not_hal (ev : event) : Prop := is_hal_call ev = false.
Definition not_java (ev : event) : Prop := is_java_call ev = false.

(** A HAL call, if the event is one, goes through [i]. *)
Definition via_iface (i : iface) (ev : event) : Prop :=
  match ev with
  | HalCall via _ _ _ => via = i
  | _ => True
  end.

(** The result of a computation started on [e] and [s] satisfies [Q]. *)
Definition wp {R A} (m : M R A) (e : env) (s : state)
  (Q : outcome R A -> state -> list event -> Prop) : Prop :=
  Q (fst (fst (m e s))) (snd (fst (m e s))) (snd (m e s)).

(** The result of a whole native function, as [run] gives it. *)
Definition result_of {A} (o : outcome A A) : option A :=
  match o with
  | Val a => Some a
  | Return a => Some a
  | Crash _ => None
  end.

(** *** Null references among the arguments of a call *)




(** [(numAttr > 0) && (attrIds != NULL)] is false. *)
Definition no_ids (numAttr : byte) (attrIds : option (list Z)) : bool :=
  negb ((jbyte_val numAttr >? 0)%Z && is_some attrIds).




Definition is_callback (op : operation) : bool :=
  match op with AvrcpCallback _ | VendorCallback _ => true | _ => false end.

Definition is_throw (ev : event) : bool :=
  match ev with Throw _ => true | _ => false end.


(** The value that a computation yields satisfies [Q]. *)
Definition yields {R A} (Q : A -> Prop) (m : M R A) : Prop :=
  forall e s, match fst (fst (m e s)) with Val a => Q a | _ => True end.



(** The computation makes no foreign call and records nothing. *)
Definition silent {R A} (m : M R A) : Prop :=
  forall e s, exists o, m e s = (o, s, []).

(** ** The life cycle of the interfaces *)

(** A callback object reference is held only together with the interfaces
    it serves. *)
Definition callbacks_backed (g : statics) : Prop :=
  (is_null (sCallbacksObj g) = false ->
   is_null (sBluetoothAvrcpInterface g) = false
   /\ is_null (sBluetoothAvrcpVendorInterface g) = false)
  /\ (is_null (mCallbacksObj g) = false ->
      is_null (sBluetoothVendorInterface g) = false).

(** The HAL functions that initialise and clean up an interface. *)
Definition init_fn (via : iface) : string :=
  match via with
  | AvrcpVendorCtrl => "init_vendor"
  | _ => "init"
  end.

Definition cleanup_fn (via : iface) : string :=
  match via with
  | AvrcpVendorCtrl => "cleanup_vendor"
  | _ => "cleanup"
  end.

(** Whether the interface [via] is initialised after the event, given
    whether it was before: an init that reports success initialises it, a
    cleanup ends that. *)
Definition track (via : iface) (h : bool) (ev : event) : bool :=
  match ev with
  | HalCall v fn _ res =>
      if iface_eqb v via then
        if String.eqb fn (init_fn via) then
          match res with RStatus st => is_success st | _ => h end
        else if String.eqb fn (cleanup_fn via) then false
        else h
      else h
  | _ => h
  end.

Definition initialised (via : iface) (t : list event) : bool :=
  fold_left (track via) t false.

(** The runs of the process: the operations of the two bindings one after
    the other from the initial statics, with all they record. *)
Inductive history {hdr : AvrcpController.bt_rc_h}
  : list event -> state -> Prop :=
| history_start : history [] initial_state
| history_step (t : list event) (s : state) (op : operation) (e : env) :
    history t s ->
    history (t ++ trace_of (exec op e s)) (state_after (exec op e s)).

(** An event that leaves the interface [via] as initialised as it was. *)
Definition neutral (via : iface) (ev : event) : Prop :=
  forall h, track via h ev = h.


(** ** Pinned arrays *)

(** The release of a pinned array or string. *)
Definition is_release (ev : event) : bool :=
  match ev with
  | Jni fn =>
      String.eqb fn "ReleaseByteArrayElements"
      || String.eqb fn "ReleaseIntArrayElements"
      || String.eqb fn "ReleaseStringUTFChars"
  | _ => false
  end.

Definition releases (t : list event) : list event := filter is_release t.

(** The events before the first HAL call of a trace. *)
Fixpoint before_hal (t : list event) : list event :=
  match t with
  | [] => []
  | ev :: t' => if is_hal_call ev then [] else ev :: before_hal t'
  end.

(** Neither a HAL call nor a release. *)
Definition holds_pins (ev : event) : Prop :=
  is_hal_call ev = false /\ is_release ev = false.

(** A run of the computation that makes a HAL call releases nothing before
    it. *)
Definition releases_late {R A} (m : M R A) : Prop :=
  forall e s, hal_calls (snd (m e s)) <> [] ->
    releases (before_hal (snd (m e s))) = [].

(** The GetXxxArrayElements and GetStringUTFChars calls that a command
    makes before its HAL call: the address always, then the other arrays;
    the attribute ids only when [(numAttr > 0) && (attrIds != NULL)]. *)
Definition avrcp_pin_calls (c : AvrcpController.command) : nat :=
  match c with
  | AvrcpController.SetPlayerApplicationSettingValues _ _ _ _ => 3
  | AvrcpController.ChangeFolderPath _ _ _ _
  | AvrcpController.PlayItem _ _ _ _
  | AvrcpController.Search _ _ _ _
  | AvrcpController.AddToNowPlaying _ _ _ _ => 2
  | AvrcpController.GetItemElementAttributes _ n ids
  | AvrcpController.GetElementAttributes _ n ids
  | AvrcpController.GetFolderItems _ _ _ _ n ids =>
      if no_ids n ids then 1 else 2
  | AvrcpController.GetItemAttributes _ _ _ _ n ids =>
      if no_ids n ids then 2 else 3
  | _ => 1
  end.

Definition pin_calls (c : command) : nat :=
  match c with
  | AvrcpCommand c => avrcp_pin_calls c
  | VendorCommand (Vendor.GetLinkKey _) => 1
  | VendorCommand _ => 0
  end.

Section WithHeader.
Context {hdr : AvrcpController.bt_rc_h}.

(** The pinning calls whose failure a command of the AVRCP binding answers
    with the exception, on the path that its arguments select: the address
    always, then the other arrays.  A count above the bound ends the
    attribute commands before they pin the ids, a negative count ends
    setPlayerApplicationSettingValuesNative before it pins its two other
    arrays, and searchNative does not test the string it pins. *)
Definition avrcp_pins_tested (c : AvrcpController.command) : nat :=
  match c with
  | AvrcpController.SetPlayerApplicationSettingValues _ n _ _ =>
      if (jbyte_val n <? 0)%Z then 1 else 3
  | AvrcpController.Search _ _ _ _ => 1
  | AvrcpController.GetItemElementAttributes _ n _
  | AvrcpController.GetElementAttributes _ n _
  | AvrcpController.GetFolderItems _ _ _ _ n _ =>
      if (jbyte_val n >? AvrcpController.BTRC_MAX_ELEM_ATTR_SIZE)%Z then 1
      else avrcp_pin_calls c
  | AvrcpController.GetItemAttributes _ _ _ _ n _ =>
      if (jbyte_val n >? AvrcpController.BTRC_MAX_ELEM_ATTR_SIZE)%Z then 2
      else avrcp_pin_calls c
  | _ => avrcp_pin_calls c
  end.

Definition pins_tested (c : command) : nat :=
  match c with
  | AvrcpCommand c => avrcp_pins_tested c
  | VendorCommand _ => pin_calls c
  end.

(** The command throws exactly when its interface pointer is not NULL and
    one of the pinning calls it tests fails; a command that throws returns,
    and has made no HAL call and logged no error. *)
Definition throws_on_failed_pin (c : command) (e : env) (s : state)
  (r : bool * state * list event) : Prop :=
  existsb is_throw (trace_of r)
  = negb (is_null (iface_ptr (globals s) (hal_iface c)))
    && negb (all_ok_from e (tick s) (pins_tested c))
  /\ (existsb is_throw (trace_of r) = true ->
      completed r = true
      /\ hal_calls (trace_of r) = []
      /\ error_logs (trace_of r) = []).

End WithHeader.

(** changeFolderPathNative releases the address and not the uid. *)
Definition unreleased (c : command) : nat :=
  match c with
  | AvrcpCommand (AvrcpController.ChangeFolderPath _ _ _ _) => 1
  | _ => 0
  end.

(** How many events of the trace satisfy [p]. *)
Definition count (p : event -> bool) (t : list event) : nat :=
  fold_left (fun n ev => if p ev then S n else n) t 0.

(** setPlayerApplicationSettingValuesNative is the one command that reads
    native arrays by index. *)
Definition indexes_arrays (c : command) : bool :=
  match c with
  | AvrcpCommand (AvrcpController.SetPlayerApplicationSettingValues _ _ _ _) =>
      true
  | _ => false
  end.

(** What a run of a command leaves, in numbers: HAL calls [nh], releases
    [nr], foreign calls [tick s' - tick s]. *)
Definition command_numbers (c : command) (s : state)
  (r : bool * state * list event) : Prop :=
  let nh := count is_hal_call (trace_of r) in
  let nr := count is_release (trace_of r) in
  nh <= 1
  /\ (nh = 0 -> nr = 0)
  /\ (nh <> 0 ->
      tick (state_after r) = tick s + pin_calls c + 1
      /\ nr + unreleased c = pin_calls c)
  /\ (completed r = false -> indexes_arrays c = true).


(** The cleanupNative of the binding a command belongs to. *)
Definition cleanup_of (c : command) (object : ptr) : operation :=
  match c with
  | AvrcpCommand _ => AvrcpCleanup object
  | VendorCommand _ => VendorCleanup object
  end.

(** The foreign call with which initNative and cleanupNative ask for the
    Bluetooth module (getBluetoothInterface); the initNative of the AVRCP
    binding looks up its two classes before. *)
Definition module_query (op : operation) (s : state) : option nat :=
  match op with
  | AvrcpInit _ => Some (tick s + 4)
  | AvrcpCleanup _ | VendorInit _ | VendorCleanup _ => Some (tick s)
  | _ => None
  end.

(** The interface pointers and the callback object references. *)
Definition references (g : statics) : list ptr :=
  [sBluetoothAvrcpInterface g; sBluetoothAvrcpVendorInterface g;
   sCallbacksObj g; sBluetoothVendorInterface g; mCallbacksObj g].

(** ** A callback without a callback environment *)

(** With [sCallbackEnv.valid()] false the computation ends at once,
    without a fault, a Java call or a further binding call. *)
Definition skips (m : M unit unit) : Prop :=
  forall e s, ext_ok e (tick s) = false ->
    result_of (fst (fst (m e s))) = Some tt
    /\ java_calls (snd (m e s)) = []
    /\ snd (fst (m e s)) = mkState (globals s) (S (tick s)).

(** The [n] bytes that a loop over [0 .. n-1] reads at the pinned elements
    [p] of the Java array [name]. *)
Definition pinned_bytes (e : env) (name : string) (p : list byte) (n : nat)
  : list byte :=
  map (peek e name p) (seq 0 n).

(** The attrIds argument of the commands that take an attribute count. *)
Definition attr_ids_of (c : AvrcpController.command) : option (list Z) :=
  match c with
  | AvrcpController.GetItemElementAttributes _ _ ids => ids
  | AvrcpController.GetElementAttributes _ _ ids => ids
  | AvrcpController.GetFolderItems _ _ _ _ _ ids => ids
  | AvrcpController.GetItemAttributes _ _ _ _ _ ids => ids
  | _ => None
  end.

(** ** JNI type signatures *)

Inductive jtype : Type :=
| TBoolean | TByte | TChar | TShort | TInt | TLong | TFloat | TDouble | TVoid
| TClass (name : string)
| TArray (elem : jtype).

(** [Lname;] without its first letter: the name and what follows. *)
Fixpoint class_name (l : list ascii) : option (string * list ascii) :=
  match l with
  | [] => None
  | c :: r =>
      if Ascii.eqb c ";" then Some (EmptyString, r)
      else match class_name r with
           | Some (n, r') => Some (String c n, r')
           | None => None
           end
  end.

(** One field descriptor at the head of [l]. *)
Fixpoint field_type (l : list ascii) : option (jtype * list ascii) :=
  match l with
  | [] => None
  | c :: r =>
      if Ascii.eqb c "[" then
        match field_type r with
        | Some (t, r') => Some (TArray t, r')
        | None => None
        end
      else if Ascii.eqb c "L" then
        match class_name r with
        | Some (n, r') => Some (TClass n, r')
        | None => None
        end
      else if Ascii.eqb c "Z" then Some (TBoolean, r)
      else if Ascii.eqb c "B" then Some (TByte, r)
      else if Ascii.eqb c "C" then Some (TChar, r)
      else if Ascii.eqb c "S" then Some (TShort, r)
      else if Ascii.eqb c "I" then Some (TInt, r)
      else if Ascii.eqb c "J" then Some (TLong, r)
      else if Ascii.eqb c "F" then Some (TFloat, r)
      else if Ascii.eqb c "D" then Some (TDouble, r)
      else if Ascii.eqb c "V" then Some (TVoid, r)
      else None
  end.

(** The parameter descriptors up to the closing parenthesis. *)
Fixpoint parameter_types (fuel : nat) (l : list ascii)
  : option (list jtype * list ascii) :=
  match fuel with
  | O => None
  | S fuel' =>
      match l with
      | [] => None
      | c :: r =>
          if Ascii.eqb c ")" then Some ([], r)
          else match field_type l with
               | Some (t, r') =>
                   match parameter_types fuel' r' with
                   | Some (ts, r'') => Some (t :: ts, r'')
                   | None => None
                   end
               | None => None
               end
      end
  end.

(** A method descriptor [(parameters)return]. *)
Definition method_type (sig : string) : option (list jtype * jtype) :=
  match list_ascii_of_string sig with
  | c :: r =>
      if Ascii.eqb c "(" then
        match parameter_types (S (length r)) r with
        | Some (ps, r') =>
            match field_type r' with
            | Some (t, []) => Some (ps, t)
            | _ => None
            end
        | None => None
        end
      else None
  | [] => None
  end.

(** An argument of CallVoidMethod or CallObjectMethod fits a parameter
    type.  The arguments go through the variable argument list, where
    jboolean, jbyte and jint are all passed as int; a null reference fits
    every reference type; the element class of an object array is not
    compared. *)
Definition fits (t : jtype) (v : jvalue) : bool :=
  match t, v with
  | (TBoolean | TByte | TChar | TShort | TInt), (JBool _ | JByte _ | JInt _) =>
      true
  | TArray TByte, (JByteArray _ | JNull) => true
  | TArray TInt, (JIntArray _ | JNull) => true
  | TArray (TClass _), (JObjectArray _ _ | JNull) => true
  | TClass n, JString _ => String.eqb n "java/lang/String"
  | TClass _, (JObject _ | JNull) => true
  | _, _ => false
  end.

Fixpoint all_fit (ts : list jtype) (vs : list jvalue) : bool :=
  match ts, vs with
  | [], [] => true
  | t :: ts', v :: vs' => fits t v && all_fit ts' vs'
  | _, _ => false
  end.

(** A Java call passes as many arguments as the descriptor of its method
    has parameters, each fitting its parameter type. *)
Definition call_fits (ev : event) : bool :=
  match ev with
  | JavaCall _ m args =>
      match method_type (java_sig m) with
      | Some (ps, _) => all_fit ps args
      | None => false
      end
  | _ => true
  end.

(** A Java string or a null reference: what NewStringUTF returns. *)
Definition stringy (v : jvalue) : bool :=
  match v with JString _ | JNull => true | _ => false end.

(** The value that a function yields or returns satisfies [Q]. *)
Definition gives {A} (Q : A -> Prop) (m : M A A) : Prop :=
  forall e s, match fst (fst (m e s)) with
              | Val a => Q a
              | Return a => Q a
              | Crash _ => True
              end.

(** ** The native method tables *)

(** The C types of the parameters and results of the native functions. *)
Definition jbyteArray : jtype := TArray TByte.
Definition jintArray : jtype := TArray TInt.
Definition jstring : jtype := TClass "java/lang/String".

Fixpoint jtype_eqb (a b : jtype) : bool :=
  match a, b with
  | TBoolean, TBoolean | TByte, TByte | TChar, TChar | TShort, TShort
  | TInt, TInt | TLong, TLong | TFloat, TFloat | TDouble, TDouble
  | TVoid, TVoid => true
  | TClass n, TClass m => String.eqb n m
  | TArray x, TArray y => jtype_eqb x y
  | _, _ => false
  end.

Fixpoint jtypes_eqb (l m : list jtype) : bool :=
  match l, m with
  | [], [] => true
  | a :: l', b :: m' => jtype_eqb a b && jtypes_eqb l' m'
  | _, _ => false
  end.

(** JNINativeMethod, the function pointer as the function it points to. *)
Module NativeMethod.
Record JNINativeMethod (fn : Type) : Type := mkNativeMethod {
  name : string;
  signature : string;
  fnPtr : fn
}.
Arguments mkNativeMethod {fn} _ _ _.
Arguments name {fn} _.
Arguments signature {fn} _.
Arguments fnPtr {fn} _.
End NativeMethod.

(** The descriptor of an entry names the parameters that the function of
    the entry takes after [JNIEnv*] and the object. *)
Definition parameters_agree {fn} (prototype : fn -> list jtype * jtype)
  (m : NativeMethod.JNINativeMethod fn) : bool :=
  match method_type (NativeMethod.signature m) with
  | Some (ps, _) => jtypes_eqb ps (fst (prototype (NativeMethod.fnPtr m)))
  | None => false
  end.

(** It names the result type of the function as well. *)
Definition result_agrees {fn} (prototype : fn -> list jtype * jtype)
  (m : NativeMethod.JNINativeMethod fn) : bool :=
  match method_type (NativeMethod.signature m) with
  | Some (_, t) => jtype_eqb t (snd (prototype (NativeMethod.fnPtr m)))
  | None => false
  end.

Module AvrcpControllerTable.

(** The native functions of com_android_bluetooth_avrcp_controller.cpp. *)
Inductive native : Type :=
| classInitNative | initNative | cleanupNative
| sendPassThroughCommandNative | sendGroupNavigationCommandNative
| setPlayerApplicationSettingValuesNative | sendAbsVolRspNative
| sendRegisterAbsVolRspNative | getPlaybackStateNative
| getNowPlayingListNative | getFolderListNative | getPlayerListNative
| changeFolderPathNative | playItemNative | setBrowsedPlayerNative
| setAddressedPlayerNative | getItemElementAttributesNative
| getElementAttributesNative | getFolderItemsNative | searchNative
| getSearchListNative | addToNowPlayingNative | getItemAttributesNative
| getTotalNumOfItemsNative | fetchPlayerApplicationSettingNative
| requestContinuingResponseNative | abortContinuingResponseNative
| disconnectNative.

(** The parameters after [JNIEnv* env, jobject object] (jclass clazz for
    classInitNative) and the result type of each function. *)
Definition prototype (f : native) : list jtype * jtype :=
  match f with
  | classInitNative | initNative | cleanupNative => ([], TVoid)
  | sendPassThroughCommandNative => ([jbyteArray; TInt; TInt], TBoolean)
  | sendGroupNavigationCommandNative => ([jbyteArray; TInt; TInt], TBoolean)
  | setPlayerApplicationSettingValuesNative =>
      ([jbyteArray; TByte; jbyteArray; jbyteArray], TVoid)
  | sendAbsVolRspNative => ([jbyteArray; TInt; TInt], TVoid)
  | sendRegisterAbsVolRspNative => ([jbyteArray; TByte; TInt; TInt], TVoid)
  | getPlaybackStateNative => ([jbyteArray], TVoid)
  | getNowPlayingListNative => ([jbyteArray; TInt; TInt], TVoid)
  | getFolderListNative => ([jbyteArray; TInt; TInt], TVoid)
  | getPlayerListNative => ([jbyteArray; TInt; TInt], TVoid)
  | changeFolderPathNative => ([jbyteArray; TInt; TByte; jbyteArray], TVoid)
  | playItemNative => ([jbyteArray; TByte; jbyteArray; TInt], TVoid)
  | setBrowsedPlayerNative => ([jbyteArray; TInt], TVoid)
  | setAddressedPlayerNative => ([jbyteArray; TInt], TVoid)
  | getItemElementAttributesNative => ([jbyteArray; TByte; jintArray], TVoid)
  | getElementAttributesNative => ([jbyteArray; TByte; jintArray], TVoid)
  | getFolderItemsNative =>
      ([jbyteArray; TByte; TInt; TInt; TByte; jintArray], TVoid)
  | searchNative => ([jbyteArray; TInt; TInt; jstring], TVoid)
  | getSearchListNative => ([jbyteArray; TInt; TInt], TVoid)
  | addToNowPlayingNative => ([jbyteArray; TByte; jbyteArray; TInt], TVoid)
  | getItemAttributesNative =>
      ([jbyteArray; TByte; jbyteArray; TInt; TByte; jintArray], TVoid)
  | getTotalNumOfItemsNative => ([jbyteArray; TByte], TVoid)
  | fetchPlayerApplicationSettingNative => ([jbyteArray], TVoid)
  | requestContinuingResponseNative => ([jbyteArray; TByte], TVoid)
  | abortContinuingResponseNative => ([jbyteArray; TByte], TVoid)
  | disconnectNative => ([jbyteArray], TVoid)
  end.

Definition sMethods : list (NativeMethod.JNINativeMethod native) :=
  [NativeMethod.mkNativeMethod "classInitNative" "()V" classInitNative;
   NativeMethod.mkNativeMethod "initNative" "()V" initNative;
   NativeMethod.mkNativeMethod "cleanupNative" "()V" cleanupNative;
   NativeMethod.mkNativeMethod "sendPassThroughCommandNative" "([BII)Z"
     sendPassThroughCommandNative;
   NativeMethod.mkNativeMethod "sendGroupNavigationCommandNative" "([BII)Z"
     sendGroupNavigationCommandNative;
   NativeMethod.mkNativeMethod "setPlayerApplicationSettingValuesNative" "([BB[B[B)V"
     setPlayerApplicationSettingValuesNative;
   NativeMethod.mkNativeMethod "sendAbsVolRspNative" "([BII)V" sendAbsVolRspNative;
   NativeMethod.mkNativeMethod "sendRegisterAbsVolRspNative" "([BBII)V"
     sendRegisterAbsVolRspNative;
   NativeMethod.mkNativeMethod "getPlaybackStateNative" "([B)V" getPlaybackStateNative;
   NativeMethod.mkNativeMethod "getNowPlayingListNative" "([BII)V" getNowPlayingListNative;
   NativeMethod.mkNativeMethod "getFolderListNative" "([BII)V" getFolderListNative;
   NativeMethod.mkNativeMethod "getPlayerListNative" "([BII)V" getPlayerListNative;
   NativeMethod.mkNativeMethod "changeFolderPathNative" "([BIB[B)V" changeFolderPathNative;
   NativeMethod.mkNativeMethod "playItemNative" "([BB[BI)V" playItemNative;
   NativeMethod.mkNativeMethod "setBrowsedPlayerNative" "([BI)V" setBrowsedPlayerNative;
   NativeMethod.mkNativeMethod "setAddressedPlayerNative" "([BI)V" setAddressedPlayerNative;
   NativeMethod.mkNativeMethod "getItemElementAttributesNative" "([BB[I)V"
     getItemElementAttributesNative;
   NativeMethod.mkNativeMethod "getElementAttributesNative" "([BB[I)V"
     getElementAttributesNative;
   NativeMethod.mkNativeMethod "getFolderItemsNative" "([BBIIB[I)V" getFolderItemsNative;
   NativeMethod.mkNativeMethod "searchNative" "([BIILjava/lang/String;)V" searchNative;
   NativeMethod.mkNativeMethod "getSearchListNative" "([BII)V" getSearchListNative;
   NativeMethod.mkNativeMethod "addToNowPlayingNative" "([BB[BI)V" addToNowPlayingNative;
   NativeMethod.mkNativeMethod "getItemAttributesNative" "([BB[BIB[I)V"
     getItemAttributesNative;
   NativeMethod.mkNativeMethod "getTotalNumOfItemsNative" "([BB)V" getTotalNumOfItemsNative;
   NativeMethod.mkNativeMethod "fetchPlayerApplicationSettingNative" "([B)V"
     fetchPlayerApplicationSettingNative;
   NativeMethod.mkNativeMethod "requestContinuingResponseNative" "([BB)V"
     requestContinuingResponseNative;
   NativeMethod.mkNativeMethod "abortContinuingResponseNative" "([BB)V"
     abortContinuingResponseNative;
   NativeMethod.mkNativeMethod "disconnectNative" "([B)V" disconnectNative].

End AvrcpControllerTable.

Module VendorTable.

(** The native functions of com_android_bluetooth_btservice_vendor.cpp. *)
Inductive native : Type :=
| classInitNative | initNative | cleanupNative
| bredrcleanupNative | setWifiStateNative | getProfileInfoNative
| getLinkKeyNative.

(** The three commands that return a value are declared [bool]. *)
Definition prototype (f : native) : list jtype * jtype :=
  match f with
  | classInitNative | initNative | cleanupNative => ([], TVoid)
  | bredrcleanupNative => ([], TBoolean)
  | setWifiStateNative => ([TBoolean], TBoolean)
  | getProfileInfoNative => ([TInt; TInt], TBoolean)
  | getLinkKeyNative => ([jbyteArray], TVoid)
  end.

Definition sMethods : list (NativeMethod.JNINativeMethod native) :=
  [NativeMethod.mkNativeMethod "classInitNative" "()V" classInitNative;
   NativeMethod.mkNativeMethod "initNative" "()V" initNative;
   NativeMethod.mkNativeMethod "cleanupNative" "()V" cleanupNative;
   NativeMethod.mkNativeMethod "bredrcleanupNative" "()V" bredrcleanupNative;
   NativeMethod.mkNativeMethod "setWifiStateNative" "(Z)V" setWifiStateNative;
   NativeMethod.mkNativeMethod "getProfileInfoNative" "(II)Z" getProfileInfoNative;
   NativeMethod.mkNativeMethod "getLinkKeyNative" "([B)V" getLinkKeyNative].

End VendorTable.

(** ** Reading a link-key string back *)

(** The value of a hexadecimal digit: its place in [hex_digits]. *)
Fixpoint place (c : ascii) (l : list ascii) : nat :=
  match l with
  | [] => 0
  | d :: l' => if Ascii.eqb c d then 0 else S (place c l')
  end.

Definition hex_value (c : ascii) : nat := place c hex_digits.

(** The bytes that a string of hexadecimal digits spells, two digits per
    byte, high nibble first. *)
Fixpoint hex_decode (l : list ascii) : list byte :=
  match l with
  | hi :: lo :: r =>
      match Byte.of_nat (16 * hex_value hi + hex_value lo) with
      | Some b => b :: hex_decode r
      | None => []
      end
  | _ => []
  end.

(** ** The address argument of the callbacks *)

(** The bd_addr of a callback that copies it into a Java byte array; the
    other callbacks take no address or do not use it. *)
Definition marshalled_address (op : operation) : option (option RawAddress) :=
  match op with
  | AvrcpCallback cb =>
      match cb with
      | AvrcpController.PassthroughResponse a _ _
      | AvrcpController.ConnectionState _ _ a
      | AvrcpController.GetRcfeatures a _
      | AvrcpController.SetplayerapplicationsettingRsp a _
      | AvrcpController.Playerapplicationsetting a _ _ _ _
      | AvrcpController.PlayerapplicationsettingChanged a _
      | AvrcpController.SetAbsVolCmd a _ _
      | AvrcpController.RegisterNotificationAbsvol a _
      | AvrcpController.TrackChanged a _ _
      | AvrcpController.PlayPositionChanged a _ _
      | AvrcpController.PlayStatusChanged a _
      | AvrcpController.GetVendorRcfeatures a _ _
      | AvrcpController.GetElemAttrRsp a _ _
      | AvrcpController.UidsChanged a _
      | AvrcpController.GetItemAttrRsp a _ _
      | AvrcpController.AddressedPlayerUpdate a _ _
      | AvrcpController.AvailablePlayerChanged a
      | AvrcpController.NowPlayingChanged a => Some a
      | _ => None
      end
  | VendorCallback (Vendor.IotDeviceBroadcast a _ _ _ _ _ _ _ _ _) => Some a
  | VendorCallback (Vendor.GetLinkKeyCb a _ _ _) => Some a
  | _ => None
  end.

(** get_link_key_callback is the one callback that tests bd_addr. *)
Definition tests_address (op : operation) : bool :=
  match op with
  | VendorCallback (Vendor.GetLinkKeyCb _ _ _ _) => true
  | _ => false
  end.

(** ** The device address, in both directions *)

(** The address argument of a command. *)
Definition command_address (c : command) : option (list byte) :=
  match c with
  | AvrcpCommand c =>
      match c with
      | AvrcpController.SendPassThroughCommand a _ _
      | AvrcpController.SendGroupNavigationCommand a _ _
      | AvrcpController.SetPlayerApplicationSettingValues a _ _ _
      | AvrcpController.SendAbsVolRsp a _ _
      | AvrcpController.SendRegisterAbsVolRsp a _ _ _
      | AvrcpController.GetPlaybackState a
      | AvrcpController.GetNowPlayingList a _ _
      | AvrcpController.GetFolderList a _ _
      | AvrcpController.GetPlayerList a _ _
      | AvrcpController.ChangeFolderPath a _ _ _
      | AvrcpController.PlayItem a _ _ _
      | AvrcpController.SetBrowsedPlayer a _
      | AvrcpController.SetAddressedPlayer a _
      | AvrcpController.GetItemElementAttributes a _ _
      | AvrcpController.GetElementAttributes a _ _
      | AvrcpController.GetFolderItems a _ _ _ _ _
      | AvrcpController.Search a _ _ _
      | AvrcpController.GetSearchList a _ _
      | AvrcpController.AddToNowPlaying a _ _ _
      | AvrcpController.GetItemAttributes a _ _ _ _ _
      | AvrcpController.GetTotalNumOfItems a _
      | AvrcpController.FetchPlayerApplicationSetting a
      | AvrcpController.RequestContinuingResponse a _
      | AvrcpController.AbortContinuingResponse a _
      | AvrcpController.Disconnect a => Some a
      end
  | VendorCommand (Vendor.GetLinkKey a) => Some a
  | VendorCommand _ => None
  end.

(** A HAL call has the address as its first argument. *)
Definition hal_call_to (address : list byte) (ev : event) : Prop :=
  match ev with
  | HalCall _ _ args _ => nth_error args 0 = Some (AAddr address)
  | _ => True
  end.

(** A Java call has the six bytes of the address among its arguments. *)
Definition java_call_from (a : RawAddress) (ev : event) : Prop :=
  match ev with
  | JavaCall _ _ args => In (JByteArray (raw_bytes a)) args
  | _ => True
  end.

(** ** The Java calls of a callback *)

(** btavrcp_get_folder_items_callback calls a Java constructor per item
    before its handler; every other callback has one Java method. *)
Definition builds_items (op : operation) : bool :=
  match op with
  | AvrcpCallback (AvrcpController.GetFolderItemsCb _ _ _ _) => true
  | _ => false
  end.

(** The computation makes at most one Java call. *)
Definition calls_once {R A} (m : M R A) : Prop :=
  forall e s, length (java_calls (snd (m e s))) <= 1.

(** ** The class references *)

(** The two class references are null or refer to the class they are named
    after. *)
Definition classes_resolved (g : statics) : Prop :=
  (class_MediaBrowser_MediaItem g = NoClass
   \/ class_MediaBrowser_MediaItem g
      = Class "android/media/browse/MediaBrowser$MediaItem")
  /\ (class_AvrcpPlayer g = NoClass
      \/ class_AvrcpPlayer g
         = Class "com/android/bluetooth/avrcpcontroller/AvrcpPlayer").

(** ** Writes to Java arrays *)

(** The event is not the exception that a write outside a Java array
    leaves pending. *)
Definition in_bounds (ev : event) : Prop :=
  ev <> Throw "ArrayIndexOutOfBoundsException".

(** ** Errors, deliveries and statuses *)

(** Neither an error log nor an event of the class [p]. *)
Definition plain (p : event -> bool) (ev : event) : Prop :=
  is_error_log ev = false /\ p ev = false.

(** The computation goes on only with no error logged, and stops (by an
    early return or on a fault) only with no event of the class [p]
    recorded. *)
Definition clean {R A} (p : event -> bool) (m : M R A) : Prop :=
  forall e s, match fst (fst (m e s)) with
              | Val _ => error_logs (snd (m e s)) = []
              | _ => filter p (snd (m e s)) = []
              end.

(** A run that logs an error makes no Java call. *)
Definition apart {R A} (m : M R A) : Prop :=
  forall e s, error_logs (snd (m e s)) <> [] -> java_calls (snd (m e s)) = [].

(** A HAL call that returned a status other than BT_STATUS_SUCCESS, and one
    that returned BT_STATUS_SUCCESS. *)
Definition hal_failed (ev : event) : bool :=
  match ev with
  | HalCall _ _ _ (RStatus st) => negb (is_success st)
  | _ => false
  end.

Definition hal_succeeded (ev : event) : bool :=
  match ev with
  | HalCall _ _ _ (RStatus st) => is_success st
  | _ => false
  end.

(** A failed HAL call comes with an error log, a successful one with
    none. *)
Definition status_logged {R A} (m : M R A) : Prop :=
  forall e s,
    (existsb hal_failed (snd (m e s)) = true -> error_logs (snd (m e s)) <> [])
    /\ (existsb hal_succeeded (snd (m e s)) = true ->
        error_logs (snd (m e s)) = []).

(** * Proofs *)

Section MonadLemmas.
Context {R A B : Type}.

Lemma bind_val (m : M R A) (k : A -> M R B) e s a s1 t1 :
  m e s = (Val a, s1, t1) ->
  bind m k e s = (fst (fst (k a e s1)), snd (fst (k a e s1)), t1 ++ snd (k a e s1)).
Proof.
  intros H. unfold bind. rewrite H.
  destruct (k a e s1) as [[o s2] t2]. reflexivity.
Qed.

Lemma bind_pure (m : M R A) (k : A -> M R B) e s a :
  m e s = (Val a, s, []) -> bind m k e s = k a e s.
Proof.
  intros H. rewrite (bind_val _ _ _ _ _ _ _ H).
  destruct (k a e s) as [[o s2] t2]. reflexivity.
Qed.

Lemma bind_return (m : M R A) (k : A -> M R B) e s r s1 t1 :
  m e s = (Return r, s1, t1) -> bind m k e s = (Return r, s1, t1).
Proof. intros H. unfold bind. rewrite H. reflexivity. Qed.

Lemma bind_crash (m : M R A) (k : A -> M R B) e s f s1 t1 :
  m e s = (Crash f, s1, t1) -> bind m k e s = (Crash f, s1, t1).
Proof. intros H. unfold bind. rewrite H. reflexivity. Qed.

Lemma frames_bind (m : M R A) (k : A -> M R B) :
  frames m -> (forall a, frames (k a)) -> frames (bind m k).
Proof.
  intros Hm Hk e s. unfold bind.
  specialize (Hm e s). destruct (m e s) as [[o s1] t1]. simpl in Hm.
  destruct o as [a | r | f]; simpl; auto.
  specialize (Hk a e s1). destruct (k a e s1) as [[o2 s2] t2].
  simpl in *. congruence.
Qed.

Lemma emits_bind (P : event -> Prop) (m : M R A) (k : A -> M R B) :
  emits P m -> (forall a, emits P (k a)) -> emits P (bind m k).
Proof.
  intros Hm Hk e s. unfold bind.
  specialize (Hm e s). destruct (m e s) as [[o s1] t1]. simpl in Hm.
  destruct o as [a | r | f]; simpl; auto.
  specialize (Hk a e s1). destruct (k a e s1) as [[o2 s2] t2].
  simpl in *. apply Forall_app. split; assumption.
Qed.

End MonadLemmas.

Section PrimitiveLemmas.
Context {R : Type}.

Lemma frames_ret {A} (a : A) : frames (@ret R A a).
Proof. intros e s. reflexivity. Qed.

Lemma frames_return {A} (r : R) : frames (@return_ R A r).
Proof. intros e s. reflexivity. Qed.

Lemma frames_crash {A} (f : fault) : frames (@crash R A f).
Proof. intros e s. reflexivity. Qed.

Lemma frames_emit (ev : event) : frames (@emit R ev).
Proof. intros e s. reflexivity. Qed.

Lemma frames_get_globals : frames (@get_globals R).
Proof. intros e s. reflexivity. Qed.

Lemma frames_foreign : frames (@foreign R).
Proof. intros e s. reflexivity. Qed.

Lemma frames_ask_ok : frames (@ask_ok R).
Proof. intros e s. reflexivity. Qed.

Lemma frames_ask_ptr : frames (@ask_ptr R).
Proof. intros e s. reflexivity. Qed.

Lemma frames_ask_status : frames (@ask_status R).
Proof. intros e s. reflexivity. Qed.

Lemma frames_index_pinned name p i : frames (@index_pinned R name p i).
Proof. intros e s. reflexivity. Qed.

Lemma frames_call {A} (m : M A A) : frames m -> frames (@call R A m).
Proof.
  intros H e s. unfold call. specialize (H e s).
  destruct (m e s) as [[[a | a | f] s1] t1]; exact H.
Qed.

Lemma frames_for_loop {S} fuel i cond (body : nat -> S -> M R S) st :
  (forall i st, frames (body i st)) -> frames (for_loop fuel i cond body st).
Proof.
  intros Hb. revert i st.
  induction fuel as [| fuel IH]; intros i st; simpl.
  - apply frames_ret.
  - destruct (cond i st).
    + apply frames_bind; [apply Hb | intro; apply IH].
    + apply frames_ret.
Qed.

Lemma emits_ret P {A} (a : A) : emits P (@ret R A a).
Proof. intros e s. constructor. Qed.

Lemma emits_return P {A} (r : R) : emits P (@return_ R A r).
Proof. intros e s. constructor. Qed.

Lemma emits_crash P {A} (f : fault) : emits P (@crash R A f).
Proof. intros e s. constructor. Qed.

Lemma emits_emit (P : event -> Prop) (ev : event) : P ev -> emits P (@emit R ev).
Proof. intros H e s. repeat constructor. exact H. Qed.

Lemma emits_get_globals P : emits P (@get_globals R).
Proof. intros e s. constructor. Qed.

Lemma emits_set_globals P g : emits P (@set_globals R g).
Proof. intros e s. constructor. Qed.

Lemma emits_foreign P : emits P (@foreign R).
Proof. intros e s. constructor. Qed.

Lemma emits_ask_ok P : emits P (@ask_ok R).
Proof. intros e s. constructor. Qed.

Lemma emits_ask_ptr P : emits P (@ask_ptr R).
Proof. intros e s. constructor. Qed.

Lemma emits_ask_status P : emits P (@ask_status R).
Proof. intros e s. constructor. Qed.

Lemma emits_index_pinned P name p i : emits P (@index_pinned R name p i).
Proof. intros e s. constructor. Qed.

Lemma emits_call P {A} (m : M A A) : emits P m -> emits P (@call R A m).
Proof.
  intros H e s. unfold call. specialize (H e s).
  destruct (m e s) as [[[a | a | f] s1] t1]; exact H.
Qed.

Lemma emits_for_loop P {S} fuel i cond (body : nat -> S -> M R S) st :
  (forall i st, emits P (body i st)) -> emits P (for_loop fuel i cond body st).
Proof.
  intros Hb. revert i st.
  induction fuel as [| fuel IH]; intros i st; simpl.
  - apply emits_ret.
  - destruct (cond i st).
    + apply emits_bind; [apply Hb | intro; apply IH].
    + apply emits_ret.
Qed.

End PrimitiveLemmas.

Ltac head_of t :=
  lazymatch t with
  | ?f _ => head_of f
  | _ => t
  end.

(** One syntax-directed step on a goal [frames m]. *)
Ltac frames_step :=
  lazymatch goal with
  | |- frames (bind _ _) => apply frames_bind; [| intro]
  | |- frames (ret _) => apply frames_ret
  | |- frames (return_ _) => apply frames_return
  | |- frames (crash _) => apply frames_crash
  | |- frames (emit _) => apply frames_emit
  | |- frames get_globals => apply frames_get_globals
  | |- frames foreign => apply frames_foreign
  | |- frames ask_ok => apply frames_ask_ok
  | |- frames ask_ptr => apply frames_ask_ptr
  | |- frames ask_status => apply frames_ask_status
  | |- frames (index_pinned _ _ _) => apply frames_index_pinned
  | |- frames (call _) => apply frames_call
  | |- frames (for_loop _ _ _ _ _) => apply frames_for_loop; intros
  | |- frames (set_globals _) => fail "assignment to the statics"
  | |- frames (match ?x with _ => _ end) => destruct x
  | |- frames (let _ := _ in _) => cbv zeta
  | |- frames ?m => let h := head_of m in unfold h
  end.

Ltac frames_tac := repeat frames_step.

(** The same for [emits P m]; a recorded event leaves [P ev] to [tac]. *)
Ltac emits_step tac :=
  lazymatch goal with
  | |- emits _ (bind _ _) => apply emits_bind; [| intro]
  | |- emits _ (ret _) => apply emits_ret
  | |- emits _ (return_ _) => apply emits_return
  | |- emits _ (crash _) => apply emits_crash
  | |- emits _ (emit _) => apply emits_emit; tac
  | |- emits _ get_globals => apply emits_get_globals
  | |- emits _ (set_globals _) => apply emits_set_globals
  | |- emits _ foreign => apply emits_foreign
  | |- emits _ ask_ok => apply emits_ask_ok
  | |- emits _ ask_ptr => apply emits_ask_ptr
  | |- emits _ ask_status => apply emits_ask_status
  | |- emits _ (index_pinned _ _ _) => apply emits_index_pinned
  | |- emits _ (call _) => apply emits_call
  | |- emits _ (for_loop _ _ _ _ _) => apply emits_for_loop; intros
  | |- emits _ (match ?x with _ => _ end) => destruct x
  | |- emits _ (let _ := _ in _) => cbv zeta
  | |- emits _ ?m => let h := head_of m in unfold h
  end.

Ltac emits_tac tac := repeat (emits_step tac).

Lemma frames_enter {A} (m : M A A) e s :
  frames m -> globals (snd (fst (enter m e s))) = globals s.
Proof.
  intros H. unfold enter, run. specialize (H e s).
  destruct (m e s) as [[[a | a | f] s1] t1]; exact H.
Qed.

Lemma emits_enter {A} P (m : M A A) e s :
  emits P m -> Forall P (snd (enter m e s)).
Proof.
  intros H. unfold enter, run. specialize (H e s).
  destruct (m e s) as [[[a | a | f] s1] t1]; exact H.
Qed.

(** ** The commands and the callbacks leave the statics alone *)

Lemma frames_avrcp_command {hdr : AvrcpController.bt_rc_h}
  (c : AvrcpController.command) e s :
  globals (snd (fst (AvrcpController.exec_command c e s))) = globals s.
Proof.
  destruct c; simpl; apply frames_enter; frames_tac.
Qed.

Lemma frames_vendor_command (c : Vendor.command) e s :
  globals (snd (fst (Vendor.exec_command c e s))) = globals s.
Proof.
  destruct c; simpl; apply frames_enter; frames_tac.
Qed.

Lemma frames_avrcp_callback {hdr : AvrcpController.bt_rc_h}
  (cb : AvrcpController.callback) e s :
  globals (snd (fst (AvrcpController.exec_callback cb e s))) = globals s.
Proof.
  destruct cb; simpl; apply frames_enter; frames_tac.
Qed.

Lemma frames_vendor_callback (cb : Vendor.callback) e s :
  globals (snd (fst (Vendor.exec_callback cb e s))) = globals s.
Proof.
  destruct cb; simpl; apply frames_enter; frames_tac.
Qed.

(** ** The pairing of the two AVRCP interface pointers *)

(** ** Symbolic execution *)

Section WpLemmas.
Context {R A : Type}.
Implicit Type Q : outcome R A -> state -> list event -> Prop.

Lemma wp_bind {B} (m : M R B) (k : B -> M R A) e s Q :
  wp m e s (fun o s1 t1 =>
    match o with
    | Val b => wp (k b) e s1 (fun o2 s2 t2 => Q o2 s2 (t1 ++ t2))
    | Return r => Q (Return r) s1 t1
    | Crash f => Q (Crash f) s1 t1
    end) ->
  wp (bind m k) e s Q.
Proof.
  unfold wp, bind. destruct (m e s) as [[[b | r | f] s1] t1]; simpl; auto.
  destruct (k b e s1) as [[o2 s2] t2]. simpl. auto.
Qed.

Lemma wp_ret (a : A) e s Q : Q (Val a) s [] -> wp (ret a) e s Q.
Proof. exact (fun H => H). Qed.

Lemma wp_return (r : R) e s Q : Q (Return r) s [] -> wp (return_ r) e s Q.
Proof. exact (fun H => H). Qed.

Lemma wp_crash (f : fault) e s Q : Q (Crash f) s [] -> wp (crash f) e s Q.
Proof. exact (fun H => H). Qed.

Lemma wp_of_eq (m : M R A) e s Q o s1 t1 :
  m e s = (o, s1, t1) -> Q o s1 t1 -> wp m e s Q.
Proof. unfold wp. intros ->. exact (fun H => H). Qed.

Lemma wp_conseq (m : M R A) e s Q Q' :
  (forall o s1 t1, Q o s1 t1 -> Q' o s1 t1) -> wp m e s Q -> wp m e s Q'.
Proof. unfold wp. auto. Qed.

End WpLemmas.

Section WpPrimitives.
Context {R : Type}.

Lemma wp_emit ev e s (Q : outcome R unit -> state -> list event -> Prop) :
  Q (Val tt) s [ev] -> wp (emit ev) e s Q.
Proof. exact (fun H => H). Qed.

Lemma wp_get_globals e s (Q : outcome R statics -> _ -> _ -> Prop) :
  Q (Val (globals s)) s [] -> wp get_globals e s Q.
Proof. exact (fun H => H). Qed.

Lemma wp_set_globals g e s (Q : outcome R unit -> _ -> _ -> Prop) :
  Q (Val tt) (mkState g (tick s)) [] -> wp (set_globals g) e s Q.
Proof. exact (fun H => H). Qed.

Lemma wp_foreign e s (Q : outcome R nat -> _ -> _ -> Prop) :
  Q (Val (tick s)) (mkState (globals s) (S (tick s))) [] -> wp foreign e s Q.
Proof. exact (fun H => H). Qed.

Lemma wp_ask_ok e s (Q : outcome R bool -> _ -> _ -> Prop) :
  Q (Val (ext_ok e (tick s))) (mkState (globals s) (S (tick s))) [] ->
  wp ask_ok e s Q.
Proof. exact (fun H => H). Qed.

Lemma wp_ask_ptr e s (Q : outcome R ptr -> _ -> _ -> Prop) :
  Q (Val (ext_ptr e (tick s))) (mkState (globals s) (S (tick s))) [] ->
  wp ask_ptr e s Q.
Proof. exact (fun H => H). Qed.

Lemma wp_ask_status e s (Q : outcome R bt_status_t -> _ -> _ -> Prop) :
  Q (Val (ext_status e (tick s))) (mkState (globals s) (S (tick s))) [] ->
  wp ask_status e s Q.
Proof. exact (fun H => H). Qed.

Lemma wp_call {A} (m : M A A) e s (Q : outcome R A -> _ -> _ -> Prop) :
  wp m e s (fun o s1 t1 =>
    match o with
    | Val a => Q (Val a) s1 t1
    | Return a => Q (Val a) s1 t1
    | Crash f => Q (Crash f) s1 t1
    end) ->
  wp (call m) e s Q.
Proof.
  unfold wp, call. destruct (m e s) as [[[a | a | f] s1] t1]; simpl; auto.
Qed.

End WpPrimitives.

Lemma wp_run {A} (m : M A A) e s
  (P : option A * state * list event -> Prop) :
  wp m e s (fun o s1 t1 => P (result_of o, s1, t1)) -> P (run m e s).
Proof.
  unfold wp, run. destruct (m e s) as [[[a | a | f] s1] t1]; simpl; auto.
Qed.

Lemma wp_enter {A} (m : M A A) e s
  (P : bool * state * list event -> Prop) :
  wp m e s (fun o s1 t1 =>
    P (match result_of o with Some _ => true | None => false end, s1, t1)) ->
  P (enter m e s).
Proof.
  unfold wp, enter, run.
  destruct (m e s) as [[[a | a | f] s1] t1]; simpl; auto.
Qed.

(** The copy of the address into its fresh array. *)
Lemma SetByteArrayRegion_address {R} (a : RawAddress) :
  @SetByteArrayRegion R (repeat x00 sizeof_RawAddress) 0 sizeof_RawAddress
    (raw_bytes a) = ret (raw_bytes a).
Proof. reflexivity. Qed.

Ltac wp_simpl :=
  cbn beta iota zeta delta
    [app fst snd globals tick negb andb orb is_null is_success iface_ptr
     nth_error
     sBluetoothAvrcpInterface sBluetoothAvrcpVendorInterface sCallbacksObj
     class_MediaBrowser_MediaItem class_AvrcpPlayer sBluetoothVendorInterface
     mCallbacksObj result_of nonnull_value].

(** The test that a branch depends on in the end. *)
Ltac inner_scrutinee x :=
  lazymatch x with
  | negb ?y => inner_scrutinee y
  | nonnull_value ?y => inner_scrutinee y
  | match ?y with _ => _ end => inner_scrutinee y
  | _ => x
  end.

(** One step of symbolic execution on a goal [wp m e s Q]. *)
Ltac wp_step :=
  lazymatch goal with
  | |- wp (bind _ _) _ _ _ => apply wp_bind
  | |- wp (ret _) _ _ _ => apply wp_ret; wp_simpl
  | |- wp (return_ _) _ _ _ => apply wp_return; wp_simpl
  | |- wp (crash _) _ _ _ => apply wp_crash; wp_simpl
  | |- wp (emit _) _ _ _ => apply wp_emit; wp_simpl
  | |- wp get_globals _ _ _ => apply wp_get_globals; wp_simpl
  | |- wp (set_globals _) _ _ _ => apply wp_set_globals; wp_simpl
  | |- wp foreign _ _ _ => apply wp_foreign; wp_simpl
  | |- wp ask_ok _ _ _ => apply wp_ask_ok; wp_simpl
  | |- wp ask_ptr _ _ _ => apply wp_ask_ptr; wp_simpl
  | |- wp ask_status _ _ _ => apply wp_ask_status; wp_simpl
  | |- wp (call _) _ _ _ => apply wp_call
  | |- wp (SetByteArrayRegion (repeat x00 sizeof_RawAddress) 0
             sizeof_RawAddress (raw_bytes _)) _ _ _ =>
      rewrite SetByteArrayRegion_address
  | |- wp (for_loop _ _ _ _ _) _ _ _ => fail "a loop: use its lemma"
  | |- wp (match ?x with _ => _ end) _ _ _ =>
      let y := inner_scrutinee x in
      first [ match goal with H : y = _ |- _ => rewrite H end
            | destruct y eqn:? ];
      wp_simpl
  | |- wp (let _ := _ in _) _ _ _ => cbv zeta
  | |- wp ?m _ _ _ => let h := head_of m in unfold h; wp_simpl
  end.

Ltac wp_exec := repeat wp_step.

(** Symbolic execution that tries [special] first at every step. *)
Ltac wp_exec_with special := repeat first [special | wp_step].

Ltac bool_close :=
  cbn in *;
  repeat match goal with
         | H : negb ?b = _ |- _ =>
             destruct b eqn:?; cbn in H; try discriminate H; clear H
         end;
  try congruence.

Lemma paired_avrcp_init (o : ptr) e s :
  paired (globals s) ->
  paired (globals (snd (fst (enter (AvrcpController.initNative o) e s)))).
Proof.
  destruct s as [[b v c m1 m2 bv mc] t]. unfold paired. cbn. intros Hp.
  apply wp_enter. wp_exec; bool_close.
Qed.

Lemma paired_avrcp_cleanup (o : ptr) e s :
  paired (globals s) ->
  paired (globals (snd (fst (enter (AvrcpController.cleanupNative o) e s)))).
Proof.
  destruct s as [[b v c m1 m2 bv mc] t]. unfold paired. cbn. intros Hp.
  apply wp_enter. wp_exec; bool_close.
Qed.

Lemma paired_vendor_init (o : ptr) e s :
  paired (globals s) ->
  paired (globals (snd (fst (enter (Vendor.initNative o) e s)))).
Proof.
  destruct s as [[b v c m1 m2 bv mc] t]. unfold paired. cbn. intros Hp.
  apply wp_enter. wp_exec; bool_close.
Qed.

Lemma paired_vendor_cleanup (o : ptr) e s :
  paired (globals s) ->
  paired (globals (snd (fst (enter (Vendor.cleanupNative o) e s)))).
Proof.
  destruct s as [[b v c m1 m2 bv mc] t]. unfold paired. cbn. intros Hp.
  apply wp_enter. wp_exec; bool_close.
Qed.

Section WithHeader.
Context {hdr : AvrcpController.bt_rc_h}.

Lemma frames_command (c : command) e s :
  globals (state_after (exec_command c e s)) = globals s.
Proof.
  destruct c; [apply frames_avrcp_command | apply frames_vendor_command].
Qed.

Lemma paired_exec (op : operation) e s :
  paired (globals s) -> paired (globals (state_after (exec op e s))).
Proof.
  intros Hp. destruct op; unfold state_after; simpl.
  - exact Hp.
  - exact Hp.
  - apply paired_avrcp_init; exact Hp.
  - apply paired_avrcp_cleanup; exact Hp.
  - apply paired_vendor_init; exact Hp.
  - apply paired_vendor_cleanup; exact Hp.
  - pose proof (frames_command c e s) as H. unfold state_after in H.
    rewrite H. exact Hp.
  - rewrite frames_avrcp_callback. exact Hp.
  - rewrite frames_vendor_callback. exact Hp.
Qed.

Lemma reachable_paired (s : state) : reachable s -> paired (globals s).
Proof.
  induction 1 as [| s op e Hr IH].
  - reflexivity.
  - apply paired_exec. exact IH.
Qed.

End WithHeader.


(** ** Which interface a command calls through *)

Ltac via_tac := solve [exact I | reflexivity].

Lemma avrcp_hal_iface_sound {hdr : AvrcpController.bt_rc_h}
  (c : AvrcpController.command) e s :
  Forall (via_iface (AvrcpController.hal_iface c))
    (snd (AvrcpController.exec_command c e s)).
Proof.
  destruct c; simpl; apply emits_enter; emits_tac via_tac.
Qed.

Lemma vendor_hal_iface_sound (c : Vendor.command) e s :
  Forall (via_iface BtVendor) (snd (Vendor.exec_command c e s)).
Proof.
  destruct c; simpl; apply emits_enter; emits_tac via_tac.
Qed.

(** Every HAL call that a command makes goes through [hal_iface]. *)
Lemma hal_iface_sound {hdr : AvrcpController.bt_rc_h} (c : command) e s :
  Forall (via_iface (hal_iface c)) (trace_of (exec_command c e s)).
Proof.
  destruct c; [apply avrcp_hal_iface_sound | apply vendor_hal_iface_sound].
Qed.

(** ** Commands on a null interface pointer *)

Lemma avrcp_command_null_iface {hdr : AvrcpController.bt_rc_h}
  (c : AvrcpController.command) e s :
  paired (globals s) ->
  iface_ptr (globals s) (AvrcpController.hal_iface c) = NULL ->
  fst (fst (AvrcpController.exec_command c e s)) = true
  /\ hal_calls (snd (AvrcpController.exec_command c e s)) = [].
Proof.
  destruct s as [[b v cb m1 m2 bv mc] t]. unfold paired. cbn [globals].
  intros Hp Hn.
  destruct c; cbn in Hn, Hp; subst;
    try (destruct b; [| discriminate Hp]);
    cbn [AvrcpController.exec_command]; apply wp_enter; wp_exec;
    split; reflexivity.
Qed.

Lemma vendor_command_null_iface (c : Vendor.command) e s :
  sBluetoothVendorInterface (globals s) = NULL ->
  fst (fst (Vendor.exec_command c e s)) = true
  /\ hal_calls (snd (Vendor.exec_command c e s)) = [].
Proof.
  destruct s as [[b v cb m1 m2 bv mc] t]. cbn [globals sBluetoothVendorInterface].
  intros Hn. subst.
  destruct c; cbn [Vendor.exec_command]; apply wp_enter; wp_exec;
    split; reflexivity.
Qed.

Section WithHeader.
Context {hdr : AvrcpController.bt_rc_h}.

(** C1. In every state the process can be in, a command whose HAL call is
    made through a NULL interface pointer returns to Java without having
    invoked any HAL function; no null pointer is dereferenced.  This covers
    fetchPlayerApplicationSettingNative, which tests
    sBluetoothAvrcpInterface and calls through
    sBluetoothAvrcpVendorInterface: the two are NULL together. *)
Theorem command_on_null_interface (c : command) (e : env) (s : state) :
  reachable s ->
  iface_ptr (globals s) (hal_iface c) = NULL ->
  completed (exec_command c e s) = true
  /\ hal_calls (trace_of (exec_command c e s)) = [].
Proof.
  intros Hr Hn. destruct c as [c | c]; simpl in *.
  - apply avrcp_command_null_iface; [apply reachable_paired; exact Hr | exact Hn].
  - apply vendor_command_null_iface. exact Hn.
Qed.

(** C7. Every operation of the two bindings other than initNative and
    cleanupNative, and so every outbound command, leaves the statics (the
    three interface pointers and the two callback object references among
    them) as they were. *)
Theorem statics_change_only_in_init_cleanup (op : operation) (e : env)
  (s : state) :
  init_or_cleanup op = false ->
  globals (state_after (exec op e s)) = globals s.
Proof.
  intros H. destruct op; try discriminate H; unfold state_after; simpl.
  - reflexivity.
  - reflexivity.
  - apply frames_command.
  - apply frames_avrcp_callback.
  - apply frames_vendor_callback.
Qed.

(** C8. In every state the process can be in, and so after every complete
    execution of initNative or cleanupNative, sBluetoothAvrcpInterface and
    sBluetoothAvrcpVendorInterface are both NULL or both non-NULL, and
    every operation of the bindings started there leaves them so. *)
Theorem avrcp_interfaces_paired (s : state) :
  reachable s ->
  paired (globals s)
  /\ forall op e, paired (globals (state_after (exec op e s))).
Proof.
  intros Hr. split.
  - apply reachable_paired. exact Hr.
  - intros op e. apply paired_exec. apply reachable_paired. exact Hr.
Qed.

End WithHeader.

Lemma reachable_half_connected :
  reachable (hdr := aosp_bt_rc_h) half_connected_state.
Proof.
  exact (reachable_step initial_state (AvrcpInit (Ptr 1)) vendor_missing_env
           reachable_start).
Qed.

Lemma reachable_connected : reachable (hdr := aosp_bt_rc_h) connected_state.
Proof.
  exact (reachable_step initial_state (AvrcpInit (Ptr 1)) friendly_env
           reachable_start).
Qed.

Lemma command_on_null_interface_witness :
  reachable (hdr := aosp_bt_rc_h) half_connected_state
  /\ iface_ptr (globals half_connected_state)
       (hal_iface (AvrcpCommand (AvrcpController.FetchPlayerApplicationSetting []))) = NULL
  /\ completed (exec_command (hdr := aosp_bt_rc_h)
        (AvrcpCommand (AvrcpController.FetchPlayerApplicationSetting []))
        friendly_env half_connected_state) = true
  /\ hal_calls (trace_of (exec_command (hdr := aosp_bt_rc_h)
        (AvrcpCommand (AvrcpController.FetchPlayerApplicationSetting []))
        friendly_env half_connected_state)) = [].
Proof.
  split; [apply reachable_half_connected |].
  split; [reflexivity |].
  apply (command_on_null_interface (hdr := aosp_bt_rc_h)
           (AvrcpCommand (AvrcpController.FetchPlayerApplicationSetting []))
           friendly_env half_connected_state).
  - apply reachable_half_connected.
  - reflexivity.
Defined.

Lemma statics_change_only_in_init_cleanup_witness :
  init_or_cleanup (Command (AvrcpCommand (AvrcpController.Disconnect []))) = false
  /\ globals (state_after (exec (hdr := aosp_bt_rc_h)
        (Command (AvrcpCommand (AvrcpController.Disconnect []))) friendly_env
        connected_state)) = globals connected_state.
Proof.
  split; [reflexivity |].
  apply (statics_change_only_in_init_cleanup (hdr := aosp_bt_rc_h)
           (Command (AvrcpCommand (AvrcpController.Disconnect [])))
           friendly_env connected_state).
  reflexivity.
Defined.

Lemma avrcp_interfaces_paired_witness :
  reachable (hdr := aosp_bt_rc_h) connected_state
  /\ paired (globals connected_state)
  /\ forall op e,
       paired (globals (state_after (exec (hdr := aosp_bt_rc_h) op e
                                       connected_state))).
Proof.
  split; [apply reachable_connected |].
  apply (avrcp_interfaces_paired (hdr := aosp_bt_rc_h) connected_state).
  apply reachable_connected.
Defined.

(** Outside the states the process can be in, the test of
    fetchPlayerApplicationSettingNative does not protect its call. *)
Example fetch_on_unpaired_statics :
  fst (fst (run (AvrcpController.fetchPlayerApplicationSettingNative [])
              friendly_env
              (mkState (mkStatics (Ptr 1) NULL NULL NoClass NoClass NULL NULL) 0)))
  = None.
Proof. reflexivity. Qed.

(** ** sendPassThroughCommandNative and sendGroupNavigationCommandNative *)

Ltac split_in H :=
  cbn in H;
  repeat match type of H with
         | _ \/ _ => destruct H as [H | H]; [try discriminate H |]
         end;
  try contradiction.

Ltac send_close :=
  split;
  [ eexists; split; [reflexivity |];
    split;
    [ intros Hb; try discriminate Hb;
      match goal with
      | H : is_success ?x = true |- _ => destruct x; [| discriminate H]
      end;
      eexists; cbn; eauto 10
    | intros [args Hin]; split_in Hin; try reflexivity;
      match goal with
      | H : HalCall _ _ _ _ = HalCall _ _ _ _ |- _ =>
          injection H; intros;
          repeat match goal with
                 | Hx : ext_status _ _ = _ |- _ => rewrite Hx in *
                 end;
          discriminate
      end ]
  | intros [Hn | Hok];
    [ subst; discriminate | try discriminate Hok; split; reflexivity ] ].

Lemma send_pass_through_result address key_code key_state e s :
  let r := run (AvrcpController.sendPassThroughCommandNative address
                  key_code key_state) e s in
  (exists b, fst (fst r) = Some b
     /\ (b = JNI_TRUE <->
         exists args, In (HalCall AvrcpCtrl "send_pass_through_cmd" args
                            (RStatus BT_STATUS_SUCCESS)) (snd r)))
  /\ (sBluetoothAvrcpInterface (globals s) = NULL \/ ext_ok e (tick s) = false ->
      fst (fst r) = Some JNI_FALSE /\ hal_calls (snd r) = []).
Proof.
  destruct s as [[b v cb m1 m2 bv mc] t]. cbn [globals tick sBluetoothAvrcpInterface].
  apply wp_run. wp_exec.
  - split.
    + exists JNI_FALSE. split; [reflexivity |]. split; [discriminate |].
      intros [args []].
    + intros _. split; reflexivity.
  - send_close.
  - send_close.
  - send_close.
Qed.

Lemma send_group_navigation_result address key_code key_state e s :
  let r := run (AvrcpController.sendGroupNavigationCommandNative address
                  key_code key_state) e s in
  (exists b, fst (fst r) = Some b
     /\ (b = JNI_TRUE <->
         exists args, In (HalCall AvrcpCtrl "send_group_navigation_cmd" args
                            (RStatus BT_STATUS_SUCCESS)) (snd r)))
  /\ (sBluetoothAvrcpInterface (globals s) = NULL \/ ext_ok e (tick s) = false ->
      fst (fst r) = Some JNI_FALSE /\ hal_calls (snd r) = []).
Proof.
  destruct s as [[b v cb m1 m2 bv mc] t]. cbn [globals tick sBluetoothAvrcpInterface].
  apply wp_run. wp_exec.
  - split.
    + exists JNI_FALSE. split; [reflexivity |]. split; [discriminate |].
      intros [args []].
    + intros _. split; reflexivity.
  - send_close.
  - send_close.
  - send_close.
Qed.

Lemma send_pass_through_sent address key_code key_state e s :
  sBluetoothAvrcpInterface (globals s) <> NULL ->
  ext_ok e (tick s) = true ->
  let r := run (AvrcpController.sendPassThroughCommandNative address
                  key_code key_state) e s in
  let status := ext_status e (S (tick s)) in
  hal_calls (snd r)
  = [HalCall AvrcpCtrl "send_pass_through_cmd"
       [AAddr address; AInt (to_uint8 key_code); AInt (to_uint8 key_state)]
       (RStatus status)]
  /\ fst (fst r) = Some (is_success status).
Proof.
  destruct s as [[b v cb m1 m2 bv mc] t].
  cbn [globals tick sBluetoothAvrcpInterface]. intros Hn Hok.
  destruct b as [| b]; [exfalso; apply Hn; reflexivity |].
  apply wp_run.
  wp_exec_with
    ltac:(idtac;
          lazymatch goal with
          | |- context [ext_ok e t] => rewrite Hok; wp_simpl
          end);
    split; reflexivity.
Qed.

Lemma send_group_navigation_sent address key_code key_state e s :
  sBluetoothAvrcpInterface (globals s) <> NULL ->
  ext_ok e (tick s) = true ->
  let r := run (AvrcpController.sendGroupNavigationCommandNative address
                  key_code key_state) e s in
  let status := ext_status e (S (tick s)) in
  hal_calls (snd r)
  = [HalCall AvrcpCtrl "send_group_navigation_cmd"
       [AAddr address; AInt (to_uint8 key_code); AInt (to_uint8 key_state)]
       (RStatus status)]
  /\ fst (fst r) = Some (is_success status).
Proof.
  destruct s as [[b v cb m1 m2 bv mc] t].
  cbn [globals tick sBluetoothAvrcpInterface]. intros Hn Hok.
  destruct b as [| b]; [exfalso; apply Hn; reflexivity |].
  apply wp_run.
  wp_exec_with
    ltac:(idtac;
          lazymatch goal with
          | |- context [ext_ok e t] => rewrite Hok; wp_simpl
          end);
    split; reflexivity.
Qed.

(** C6. sendPassThroughCommandNative and sendGroupNavigationCommandNative
    return JNI_TRUE exactly when the corresponding HAL send call was made
    and returned BT_STATUS_SUCCESS.  With a non-NULL
    sBluetoothAvrcpInterface and the address array pinned they make that
    call, once, with the address and the key code and key state cast to
    uint8_t, and return whether its status is BT_STATUS_SUCCESS; when
    sBluetoothAvrcpInterface is NULL or the address array cannot be pinned
    they return JNI_FALSE and make no HAL call. *)
Theorem send_command_result (address : list byte) (key_code key_state : Z)
  (e : env) (s : state) :
  let r1 := run (AvrcpController.sendPassThroughCommandNative address
                   key_code key_state) e s in
  let r2 := run (AvrcpController.sendGroupNavigationCommandNative address
                   key_code key_state) e s in
  let status := ext_status e (S (tick s)) in
  let args := [AAddr address; AInt (to_uint8 key_code);
               AInt (to_uint8 key_state)] in
  (exists b, fst (fst r1) = Some b
     /\ (b = JNI_TRUE <->
         exists args, In (HalCall AvrcpCtrl "send_pass_through_cmd" args
                            (RStatus BT_STATUS_SUCCESS)) (snd r1)))
  /\ (exists b, fst (fst r2) = Some b
     /\ (b = JNI_TRUE <->
         exists args, In (HalCall AvrcpCtrl "send_group_navigation_cmd" args
                            (RStatus BT_STATUS_SUCCESS)) (snd r2)))
  /\ (sBluetoothAvrcpInterface (globals s) = NULL \/ ext_ok e (tick s) = false ->
      (fst (fst r1) = Some JNI_FALSE /\ hal_calls (snd r1) = [])
      /\ (fst (fst r2) = Some JNI_FALSE /\ hal_calls (snd r2) = []))
  /\ (sBluetoothAvrcpInterface (globals s) <> NULL ->
      ext_ok e (tick s) = true ->
      (hal_calls (snd r1)
       = [HalCall AvrcpCtrl "send_pass_through_cmd" args (RStatus status)]
       /\ fst (fst r1) = Some (is_success status))
      /\ (hal_calls (snd r2)
          = [HalCall AvrcpCtrl "send_group_navigation_cmd" args
               (RStatus status)]
          /\ fst (fst r2) = Some (is_success status))).
Proof.
  intros r1 r2 status args.
  destruct (send_pass_through_result address key_code key_state e s)
    as [H1 H1'].
  destruct (send_group_navigation_result address key_code key_state e s)
    as [H2 H2'].
  split; [exact H1 |]. split; [exact H2 |].
  split; [intros H; split; [apply H1' | apply H2']; exact H |].
  intros Hn Hok. split.
  - apply send_pass_through_sent; assumption.
  - apply send_group_navigation_sent; assumption.
Qed.

Lemma send_command_result_witness :
  (ext_ok (failing_at 10) (tick connected_state) = false
   /\ fst (fst (run (AvrcpController.sendPassThroughCommandNative [] 65 0)
                  (failing_at 10) connected_state)) = Some JNI_FALSE)
  /\ (sBluetoothAvrcpInterface (globals connected_state) <> NULL
      /\ ext_ok friendly_env (tick connected_state) = true
      /\ hal_calls (snd (run (AvrcpController.sendPassThroughCommandNative
                                (raw_bytes sample_address) 65 256)
                           friendly_env connected_state))
         = [HalCall AvrcpCtrl "send_pass_through_cmd"
              [AAddr (raw_bytes sample_address); AInt 65; AInt 0]
              (RStatus BT_STATUS_SUCCESS)]).
Proof.
  split.
  - split; [reflexivity |].
    apply (proj1 (proj2 (proj2 (send_command_result [] 65 0 (failing_at 10)
                                  connected_state)))).
    right. reflexivity.
  - assert (Hn : sBluetoothAvrcpInterface (globals connected_state) <> NULL)
      by (cbv; discriminate).
    split; [exact Hn |]. split; [reflexivity |].
    exact (proj1 (proj1 (proj2 (proj2 (proj2
             (send_command_result (raw_bytes sample_address) 65 256
                friendly_env connected_state))) Hn eq_refl))).
Defined.

(** ** The bound on the attribute count *)

Ltac pins_close :=
  split; [reflexivity |]; split; [reflexivity |];
  cbn [error_logs filter is_error_log];
  split;
  [ intros Hne;
    first
      [ solve [exfalso; apply Hne; reflexivity]
      | split;
        [ intros ->; discriminate
        | intros k Hk;
          repeat (destruct k as [| k];
                  [ rewrite ?Nat.add_0_r, ?Nat.add_1_r; assumption |]);
          exfalso; lia ] ]
  | intros [Hv Hk]; try discriminate;
    exfalso;
    first [ match goal with
            | H : is_null ?v = true |- _ =>
                destruct v; [apply Hv; reflexivity | discriminate H]
            end
          | pose proof (Hk 0 ltac:(lia)) as H0;
            rewrite Nat.add_0_r in H0; congruence
          | pose proof (Hk 1 ltac:(lia)) as H1;
            rewrite Nat.add_1_r in H1; congruence ] ].

Section WithHeader.
Context {hdr : AvrcpController.bt_rc_h}.

(** C9 (amended). A call of getItemElementAttributesNative,
    getElementAttributesNative, getFolderItemsNative or
    getItemAttributesNative with numAttr above BTRC_MAX_ELEM_ATTR_SIZE
    returns without invoking any HAL function.  It logs an error exactly
    when the tests that come first let it through:
    sBluetoothAvrcpVendorInterface is non-NULL and the arrays pinned before
    the comparison (the address, and the uid for getItemAttributesNative)
    were pinned. *)
Theorem num_attr_above_bound (c : AvrcpController.command) (numAttr : byte)
  (pins : nat) (e : env) (s : state) :
  num_attr_of c = Some (numAttr, pins) ->
  (jbyte_val numAttr > AvrcpController.BTRC_MAX_ELEM_ATTR_SIZE)%Z ->
  let r := AvrcpController.exec_command c e s in
  completed r = true
  /\ hal_calls (trace_of r) = []
  /\ (error_logs (trace_of r) <> [] <->
      sBluetoothAvrcpVendorInterface (globals s) <> NULL
      /\ forall k, k < pins -> ext_ok e (tick s + k) = true).
Proof.
  intros Hc Hgt. apply Z.gt_lt, Z.gtb_lt in Hgt.
  destruct s as [[b v cb m1 m2 bv mc] t].
  unfold completed, trace_of.
  cbn [globals tick sBluetoothAvrcpVendorInterface].
  destruct c; try discriminate Hc; cbn in Hc; injection Hc as <- <-;
    cbn [AvrcpController.exec_command]; apply wp_enter; wp_exec;
    pins_close.
Qed.

End WithHeader.

Lemma num_attr_above_bound_witness :
  num_attr_of (AvrcpController.GetItemAttributes [] x00 [] 0 x7f None)
  = Some (x7f, 2)
  /\ (jbyte_val x7f > 8)%Z
  /\ hal_calls (trace_of (AvrcpController.exec_command (hdr := aosp_bt_rc_h)
       (AvrcpController.GetItemAttributes [] x00 [] 0 x7f None)
       friendly_env connected_state)) = [].
Proof.
  split; [reflexivity |]. split; [reflexivity |].
  apply (num_attr_above_bound (hdr := aosp_bt_rc_h)
           (AvrcpController.GetItemAttributes [] x00 [] 0 x7f None) x7f 2
           friendly_env connected_state).
  - reflexivity.
  - reflexivity.
Defined.

(** With sBluetoothAvrcpVendorInterface NULL, a count above the bound is
    not logged: the function has returned before the comparison. *)
Lemma num_attr_above_bound_unlogged :
  ~ ((jbyte_val x64 > 8)%Z ->
     error_logs (snd (run
       (AvrcpController.getElementAttributesNative (hdr := aosp_bt_rc_h)
          [] x64 None) friendly_env initial_state)) <> []
     /\ hal_calls (snd (run
       (AvrcpController.getElementAttributesNative (hdr := aosp_bt_rc_h)
          [] x64 None) friendly_env initial_state)) = []).
Proof.
  intros H. destruct (H eq_refl) as [Hlog _]. apply Hlog. reflexivity.
Qed.

(** ** The link key *)

Lemma format_02X_byte (b : byte) : Vendor.format_02X (u8 b) = hex_of_byte b.
Proof. destruct b; reflexivity. Qed.

Lemma length_hex_encode (l : list byte) : length (hex_encode l) = 2 * length l.
Proof.
  induction l as [| b l IH]; simpl; [reflexivity |]. rewrite IH. lia.
Qed.


Lemma c_str_hex_of_byte (b : byte) (rest : list byte) :
  c_str (Vendor.ascii_bytes (hex_of_byte b) ++ rest)
  = Vendor.ascii_bytes (hex_of_byte b) ++ c_str rest.
Proof. destruct b; reflexivity. Qed.

Lemma ascii_bytes_app (a b : list ascii) :
  Vendor.ascii_bytes (a ++ b) = Vendor.ascii_bytes a ++ Vendor.ascii_bytes b.
Proof. apply map_app. Qed.

Lemma c_str_hex_encode (l : list byte) :
  c_str (Vendor.ascii_bytes (hex_encode l)) = Vendor.ascii_bytes (hex_encode l).
Proof.
  induction l as [| b l IH]; [reflexivity |].
  change (hex_encode (b :: l)) with (hex_of_byte b ++ hex_encode l).
  rewrite ascii_bytes_app, c_str_hex_of_byte, IH. reflexivity.
Qed.

(** The characters that snprintf leaves in c_linkkey, as NewStringUTF
    reads them. *)
Lemma link_key_chars (l : list byte) :
  length l = 16 ->
  c_str (Vendor.ascii_bytes (Vendor.snprintf 128
           (concat (map (fun k => Vendor.format_02X (u8 k)) l))))
  = Vendor.ascii_bytes (hex_encode l).
Proof.
  intros Hl.
  assert (Hc : concat (map (fun k => Vendor.format_02X (u8 k)) l)
               = hex_encode l).
  { unfold hex_encode. rewrite flat_map_concat_map. f_equal.
    apply map_ext. intro b. apply format_02X_byte. }
  rewrite Hc. unfold Vendor.snprintf.
  rewrite firstn_all2 by (rewrite length_hex_encode; lia).
  apply c_str_hex_encode.
Qed.

Lemma run_create_link_key_string (link_key : list byte) e s :
  length link_key = 16 ->
  Vendor.create_link_key_string link_key e s
  = (Val (if ext_ok e (tick s)
          then JString (Vendor.ascii_bytes (hex_encode link_key))
          else JNull),
     mkState (globals s) (S (tick s)), []).
Proof.
  intros Hl.
  rewrite <- (link_key_chars link_key Hl).
  do 16 (destruct link_key as [| ? link_key]; [discriminate Hl |]).
  destruct link_key; [| discriminate Hl].
  destruct (ext_ok e (tick s)) eqn:Hok;
    unfold Vendor.create_link_key_string, index, NewStringUTF, bind, ret,
      ask_ok; cbn [nth_error]; rewrite Hok; reflexivity.
Qed.




(** ** Lists as C arrays *)

Lemma skipn_repeat {A} (z : A) (n m : nat) :
  skipn n (repeat z m) = repeat z (m - n).
Proof.
  revert m. induction n as [| n IH]; intros m.
  - rewrite Nat.sub_0_r. reflexivity.
  - destruct m as [| m]; [reflexivity |]. simpl. apply IH.
Qed.

Lemma set_region_prefix {A} (z : A) (pre src : list A) (k m : nat) :
  length pre = k -> length src <= m ->
  set_region (pre ++ repeat z m) k src
  = (pre ++ src) ++ repeat z (m - length src).
Proof.
  intros Hk Hm. unfold set_region. subst k.
  rewrite firstn_app, Nat.sub_diag, firstn_all, firstn_O, app_nil_r.
  rewrite skipn_app, skipn_all2 by lia.
  replace (length pre + length src - length pre) with (length src) by lia.
  rewrite skipn_repeat. rewrite <- app_assoc. reflexivity.
Qed.

Lemma SetArrayRegion_prefix {R A} (z : A) (pre buf : list A) (k len m : nat) :
  length pre = k -> len <= m -> len <= length buf ->
  @SetArrayRegion R A (pre ++ repeat z m) k len buf
  = ret ((pre ++ firstn len buf) ++ repeat z (m - len)).
Proof.
  intros Hk Hm Hb. unfold SetArrayRegion, read_n.
  rewrite length_app, repeat_length.
  replace (k + len <=? length pre + m) with true
    by (symmetry; apply Nat.leb_le; lia).
  replace (len <=? length buf) with true by (symmetry; apply Nat.leb_le; lia).
  rewrite set_region_prefix by (rewrite ?length_firstn; lia).
  rewrite length_firstn, Nat.min_l by lia. reflexivity.
Qed.

Lemma SetArrayRegion_short_buffer {R A} (z : A) (pre buf : list A)
  (k len m : nat) :
  length pre = k -> len <= m -> length buf < len ->
  @SetArrayRegion R A (pre ++ repeat z m) k len buf = crash OutOfBounds.
Proof.
  intros Hk Hm Hb. unfold SetArrayRegion, read_n.
  rewrite length_app, repeat_length.
  replace (k + len <=? length pre + m) with true
    by (symmetry; apply Nat.leb_le; lia).
  replace (len <=? length buf) with false
    by (symmetry; apply Nat.leb_gt; lia).
  reflexivity.
Qed.

Lemma skipn_cons_nth_error {A} (l : list A) (i : nat) (a : A) (r : list A) :
  skipn i l = a :: r -> nth_error l i = Some a /\ skipn (S i) l = r.
Proof.
  revert l. induction i as [| i IH]; intros l H.
  - destruct l; [discriminate H |]. injection H as -> ->. split; reflexivity.
  - destruct l as [| x l]; [discriminate H |]. apply (IH l H).
Qed.

Lemma skipn_nil_nth_error {A} (l : list A) (i : nat) :
  skipn i l = [] -> nth_error l i = None.
Proof.
  revert l. induction i as [| i IH]; intros l H.
  - destruct l; [reflexivity | discriminate H].
  - destruct l as [| x l]; [reflexivity |]. apply (IH l H).
Qed.

Lemma index_some {R A} (l : list A) (i : nat) (a : A) e s :
  nth_error l i = Some a -> @index R A l i e s = (Val a, s, []).
Proof. intros H. unfold index. rewrite H. reflexivity. Qed.

Lemma index_none {R A} (l : list A) (i : nat) e s :
  nth_error l i = None -> @index R A l i e s = (Crash OutOfBounds, s, []).
Proof. intros H. unfold index. rewrite H. reflexivity. Qed.


(** ** The flattening of the player application settings *)

Section AppAttrs.
Import AvrcpController.
Variable n : nat.
Variable attrs : list btrc_player_app_attr_t.

Lemma arraylen_loop fuel : forall i rest acc e s,
  skipn i attrs = rest -> i + fuel = n ->
  for_loop (R := unit) fuel i (fun i _ => (i <? n) && true)
    (fun i arraylen =>
       a <- index attrs i ;;
       ret (arraylen + (2 + u8 (app_num_val a)))) acc e s
  = (if fuel <=? length rest
     then Val (acc + sum_list (map app_attr_size (firstn fuel rest)))
     else Crash OutOfBounds, s, []).
Proof.
  induction fuel as [| fuel IH]; intros i rest acc e s Hrest Hn.
  - simpl. rewrite Nat.add_0_r. reflexivity.
  - cbn [for_loop].
    replace (i <? n) with true by (symmetry; apply Nat.ltb_lt; lia).
    cbn [andb].
    destruct rest as [| a rest].
    + apply skipn_nil_nth_error in Hrest.
      erewrite bind_crash; [reflexivity |].
      erewrite bind_crash; [reflexivity |].
      apply index_none. exact Hrest.
    + apply skipn_cons_nth_error in Hrest. destruct Hrest as [Hi Hrest].
      erewrite bind_pure.
      2:{ erewrite bind_pure; [| apply index_some; exact Hi]. reflexivity. }
      rewrite (IH (S i) rest) by (assumption || lia).
      cbn [length firstn map sum_list fold_right Nat.leb].
      destruct (fuel <=? length rest); [| reflexivity].
      unfold app_attr_size, sum_list. do 3 f_equal. cbn [fold_right]. lia.
Qed.

Lemma bind_ret {R A B} (a : A) (k : A -> M R B) e s :
  bind (ret a) k e s = k a e s.
Proof. apply bind_pure. reflexivity. Qed.

Lemma bind_crash_now {R A B} (f : fault) (k : A -> M R B) e s :
  bind (crash f) k e s = (Crash f, s, []).
Proof. reflexivity. Qed.

Let flatten_body (i : nat) (st : nat * list byte) : M unit (nat * list byte) :=
  let k := fst st in
  let arr := snd st in
  a <- index attrs i ;;
  arr <- SetByteArrayRegion arr k 1 [app_attr_id a] ;;
  let k := k + 1 in
  arr <- SetByteArrayRegion arr k 1 [app_num_val a] ;;
  let k := k + 1 in
  arr <- SetByteArrayRegion arr k (u8 (app_num_val a)) (app_attr_val a) ;;
  let k := k + u8 (app_num_val a) in
  ret (k, arr).

Lemma flatten_body_ok i a k pre m e s :
  nth_error attrs i = Some a -> length pre = k ->
  2 + u8 (app_num_val a) <= m -> app_attr_ok a = true ->
  flatten_body i (k, pre ++ repeat x00 m) e s
  = (Val (k + (2 + u8 (app_num_val a)),
          (pre ++ flat_app_attr a) ++ repeat x00 (m - (2 + u8 (app_num_val a)))),
     s, []).
Proof.
  intros Hi Hk Hm Hok. apply Nat.leb_le in Hok.
  unfold flatten_body, SetByteArrayRegion. cbn [fst snd]. cbv zeta.
  erewrite bind_pure by (apply index_some; exact Hi).
  rewrite (SetArrayRegion_prefix x00 pre) by (cbn [length]; lia).
  rewrite bind_ret.
  rewrite (SetArrayRegion_prefix x00 (pre ++ _))
    by (rewrite ?length_app; cbn [length firstn]; lia).
  rewrite bind_ret.
  rewrite (SetArrayRegion_prefix x00 ((pre ++ _) ++ _))
    by (rewrite ?length_app; cbn [length firstn]; lia).
  rewrite bind_ret.
  unfold ret, flat_app_attr. cbn [firstn].
  repeat rewrite <- app_assoc. cbn [app].
  replace (k + 1 + 1 + u8 (app_num_val a))
    with (k + (2 + u8 (app_num_val a))) by lia.
  replace (m - 1 - 1 - u8 (app_num_val a))
    with (m - (2 + u8 (app_num_val a))) by lia.
  reflexivity.
Qed.

Lemma flatten_body_short i a k pre m e s :
  nth_error attrs i = Some a -> length pre = k ->
  2 + u8 (app_num_val a) <= m -> app_attr_ok a = false ->
  flatten_body i (k, pre ++ repeat x00 m) e s = (Crash OutOfBounds, s, []).
Proof.
  intros Hi Hk Hm Hok. apply Nat.leb_gt in Hok.
  unfold flatten_body, SetByteArrayRegion. cbn [fst snd]. cbv zeta.
  erewrite bind_pure by (apply index_some; exact Hi).
  rewrite (SetArrayRegion_prefix x00 pre) by (cbn [length]; lia).
  rewrite bind_ret.
  rewrite (SetArrayRegion_prefix x00 (pre ++ _))
    by (rewrite ?length_app; cbn [length firstn]; lia).
  rewrite bind_ret.
  rewrite (SetArrayRegion_short_buffer x00 ((pre ++ _) ++ _))
    by (rewrite ?length_app; cbn [length firstn]; lia).
  apply bind_crash_now.
Qed.

Lemma flatten_loop (arraylen : nat) fuel : forall i rest k pre e s,
  skipn i attrs = rest -> i + fuel = n -> fuel <= length rest ->
  length pre = k ->
  k + sum_list (map app_attr_size (firstn fuel rest)) = arraylen ->
  for_loop fuel i (fun i st => (i <? n) && (fst st <? arraylen))
    flatten_body (k, pre ++ repeat x00 (arraylen - k)) e s
  = (if forallb app_attr_ok (firstn fuel rest)
     then Val (arraylen, pre ++ flat_map flat_app_attr (firstn fuel rest))
     else Crash OutOfBounds, s, []).
Proof.
  induction fuel as [| fuel IH]; intros i rest k pre e s Hrest Hn Hlen Hk Hsum.
  - cbn in Hsum. rewrite Nat.add_0_r in Hsum. subst arraylen.
    cbn. rewrite Nat.sub_diag. reflexivity.
  - destruct rest as [| a rest]; [cbn in Hlen; lia |].
    apply skipn_cons_nth_error in Hrest. destruct Hrest as [Hi Hrest].
    cbn [firstn map sum_list fold_right] in Hsum.
    fold (sum_list (map app_attr_size (firstn fuel rest))) in Hsum.
    unfold app_attr_size at 1 in Hsum.
    cbn [for_loop fst snd].
    replace (i <? n) with true by (symmetry; apply Nat.ltb_lt; lia).
    replace (k <? arraylen) with true by (symmetry; apply Nat.ltb_lt; lia).
    cbn [andb firstn forallb flat_map].
    destruct (app_attr_ok a) eqn:Hok; cbn [andb].
    + erewrite bind_pure
        by (apply flatten_body_ok; [exact Hi | exact Hk | lia | exact Hok]).
      replace (arraylen - k - (2 + u8 (app_num_val a)))
        with (arraylen - (k + (2 + u8 (app_num_val a)))) by lia.
      rewrite (IH (S i) rest); cbn [length] in *;
        try assumption; try lia.
      * rewrite <- app_assoc. reflexivity.
      * rewrite length_app. unfold flat_app_attr. cbn [length].
        rewrite length_firstn. apply Nat.leb_le in Hok. lia.
    + rewrite (bind_crash _ _ e s OutOfBounds s [])
        by (apply (flatten_body_short i a); [exact Hi | exact Hk | lia | exact Hok]).
      reflexivity.
Qed.

End AppAttrs.

Lemma wp_playerapplicationsetting_arraylen num_attr attrs e s
  (Q : outcome unit nat -> state -> list event -> Prop) :
  Q (if u8 num_attr <=? length attrs
     then Val (sum_list (map app_attr_size (firstn (u8 num_attr) attrs)))
     else Crash OutOfBounds) s [] ->
  wp (AvrcpController.playerapplicationsetting_arraylen num_attr attrs) e s Q.
Proof.
  intros HQ. refine (wp_of_eq _ _ _ _ _ _ _ _ HQ).
  unfold AvrcpController.playerapplicationsetting_arraylen, for_upto.
  apply (arraylen_loop (u8 num_attr) attrs (u8 num_attr) 0 attrs 0 e s);
    reflexivity.
Qed.

Lemma wp_playerapplicationsetting_flatten num_attr attrs e s
  (Q : outcome unit (nat * list byte) -> state -> list event -> Prop) :
  u8 num_attr <= length attrs ->
  let arraylen := sum_list (map app_attr_size (firstn (u8 num_attr) attrs)) in
  Q (if forallb app_attr_ok (firstn (u8 num_attr) attrs)
     then Val (arraylen, flat_app_attrs (u8 num_attr) attrs)
     else Crash OutOfBounds) s [] ->
  wp (AvrcpController.playerapplicationsetting_flatten num_attr attrs
        arraylen (repeat x00 arraylen)) e s Q.
Proof.
  intros Hn arraylen HQ. refine (wp_of_eq _ _ _ _ _ _ _ _ HQ).
  unfold AvrcpController.playerapplicationsetting_flatten, for_upto.
  pose proof (flatten_loop (u8 num_attr) attrs arraylen (u8 num_attr) 0 attrs
                0 [] e s eq_refl eq_refl Hn eq_refl eq_refl) as H.
  rewrite Nat.sub_0_r in H. exact H.
Qed.

Lemma length_flat_app_attrs (n : nat) attrs :
  forallb app_attr_ok (firstn n attrs) = true ->
  length (flat_app_attrs n attrs)
  = sum_list (map app_attr_size (firstn n attrs)).
Proof.
  unfold flat_app_attrs. generalize (firstn n attrs) as l.
  induction l as [| a l IH]; intros H; [reflexivity |].
  cbn [forallb] in H. apply andb_true_iff in H. destruct H as [Ha Hl].
  cbn [flat_map map sum_list fold_right]. rewrite length_app, (IH Hl).
  unfold flat_app_attr, app_attr_size, sum_list. cbn [length].
  rewrite length_firstn. apply Nat.leb_le in Ha. lia.
Qed.

Lemma playerapplicationsetting_calls bd_addr num_attr app_attrs num_ext_attr
  ext_attrs e s :
  java_calls (snd (run (AvrcpController.btavrcp_playerapplicationsetting_callback
                          bd_addr num_attr app_attrs num_ext_attr ext_attrs)
                     e s))
  = match bd_addr with
    | Some a =>
        if ext_ok e (tick s) && ext_ok e (S (tick s))
           && (u8 num_attr <=? length app_attrs)
           && ext_ok e (S (S (tick s)))
           && forallb app_attr_ok (firstn (u8 num_attr) app_attrs)
        then [JavaCall (sCallbacksObj (globals s))
                AvrcpController.method_handleplayerappsetting
                [JByteArray (raw_bytes a);
                 JByteArray (flat_app_attrs (u8 num_attr) app_attrs);
                 JInt (Z.of_nat (sum_list (map app_attr_size
                                   (firstn (u8 num_attr) app_attrs))))]]
        else []
    | None => []
    end.
Proof.
  destruct s as [[b v cb m1 m2 bv mc] t]. cbn [globals tick sCallbacksObj].
  apply wp_run.
  destruct bd_addr as [a |];
    wp_exec_with
      ltac:(idtac;
            lazymatch goal with
            | |- wp (AvrcpController.playerapplicationsetting_arraylen _ _)
                   _ _ _ =>
                apply wp_playerapplicationsetting_arraylen;
                destruct (u8 num_attr <=? length app_attrs) eqn:Hn; wp_simpl
            | |- wp (AvrcpController.playerapplicationsetting_flatten _ _ _ _)
                   _ _ _ =>
                apply wp_playerapplicationsetting_flatten;
                [ apply Nat.leb_le; exact Hn |];
                destruct (forallb app_attr_ok (firstn (u8 num_attr) app_attrs));
                wp_simpl
            end);
    try reflexivity.
Qed.

Section Settings.
Import AvrcpController.
Variable p_vals : btrc_player_settings_t.
Let n := u8 (settings_num_attr p_vals).
Let ids := settings_attr_ids p_vals.
Let vals := settings_attr_values p_vals.

Let changed_body (i : nat) (st : nat * list byte) : M unit (nat * list byte) :=
  let k := fst st in
  let arr := snd st in
  id <- index (settings_attr_ids p_vals) i ;;
  arr <- SetByteArrayRegion arr k 1 [id] ;;
  let k := k + 1 in
  v <- index (settings_attr_values p_vals) i ;;
  arr <- SetByteArrayRegion arr k 1 [v] ;;
  let k := k + 1 in
  ret (k, arr).

Lemma changed_loop (arraylen : nat) fuel : forall i rids rvals k pre e s,
  skipn i ids = rids -> skipn i vals = rvals -> i + fuel = n ->
  length pre = k -> k + 2 * fuel = arraylen ->
  for_loop fuel i (fun i st => (i <? n) && (fst st <? arraylen))
    changed_body (k, pre ++ repeat x00 (arraylen - k)) e s
  = (if (fuel <=? length rids) && (fuel <=? length rvals)
     then Val (arraylen,
               pre ++ flat_map (fun iv => [fst iv; snd iv])
                        (combine (firstn fuel rids) (firstn fuel rvals)))
     else Crash OutOfBounds, s, []).
Proof.
  induction fuel as [| fuel IH];
    intros i rids rvals k pre e s Hids Hvals Hn Hk Hsum.
  - rewrite Nat.mul_0_r, Nat.add_0_r in Hsum. subst arraylen.
    cbn. rewrite Nat.sub_diag. reflexivity.
  - cbn [for_loop fst snd].
    replace (i <? n) with true by (symmetry; apply Nat.ltb_lt; lia).
    replace (k <? arraylen) with true by (symmetry; apply Nat.ltb_lt; lia).
    cbn [andb]. unfold changed_body at 1, SetByteArrayRegion.
    cbn [fst snd]. cbv zeta.
    destruct rids as [| id rids].
    { apply skipn_nil_nth_error in Hids.
      rewrite (bind_crash _ _ e s OutOfBounds s []); [reflexivity |].
      rewrite (bind_crash _ _ e s OutOfBounds s []); [reflexivity |].
      apply index_none. exact Hids. }
    apply skipn_cons_nth_error in Hids. destruct Hids as [Hid Hids].
    destruct rvals as [| v rvals].
    { apply skipn_nil_nth_error in Hvals.
      cbn [length Nat.leb]. rewrite andb_false_r.
      rewrite (bind_crash _ _ e s OutOfBounds s []); [reflexivity |].
      erewrite bind_pure by (apply index_some; exact Hid).
      rewrite (SetArrayRegion_prefix x00 pre) by (cbn [length]; lia).
      rewrite bind_ret.
      rewrite (bind_crash _ _ e s OutOfBounds s []); [reflexivity |].
      apply index_none. exact Hvals. }
    apply skipn_cons_nth_error in Hvals. destruct Hvals as [Hv Hvals].
    erewrite bind_pure.
    2:{ erewrite bind_pure by (apply index_some; exact Hid).
        rewrite (SetArrayRegion_prefix x00 pre) by (cbn [length]; lia).
        rewrite bind_ret.
        erewrite bind_pure by (apply index_some; exact Hv).
        rewrite (SetArrayRegion_prefix x00 (pre ++ _))
          by (rewrite ?length_app; cbn [length firstn]; lia).
        rewrite bind_ret. reflexivity. }
    cbn [firstn length].
    replace (arraylen - k - 1 - 1) with (arraylen - (k + 1 + 1)) by lia.
    rewrite (IH (S i) rids rvals);
      try assumption; try lia;
      [| rewrite !length_app; cbn [length]; lia].
    cbn [length Nat.leb firstn combine flat_map fst snd].
    repeat rewrite <- app_assoc. reflexivity.
Qed.

End Settings.

Lemma wp_playerapplicationsetting_changed_flatten p_vals e s
  (Q : outcome unit (nat * list byte) -> state -> list event -> Prop) :
  let n := u8 (AvrcpController.settings_num_attr p_vals) in
  let ids := AvrcpController.settings_attr_ids p_vals in
  let vals := AvrcpController.settings_attr_values p_vals in
  Q (if (n <=? length ids) && (n <=? length vals)
     then Val (n * 2, flat_settings n ids vals)
     else Crash OutOfBounds) s [] ->
  wp (AvrcpController.playerapplicationsetting_changed_flatten p_vals
        (n * 2) (repeat x00 (n * 2))) e s Q.
Proof.
  intros n ids vals HQ. refine (wp_of_eq _ _ _ _ _ _ _ _ HQ).
  unfold AvrcpController.playerapplicationsetting_changed_flatten, for_upto.
  pose proof (changed_loop p_vals (n * 2) n 0 ids vals 0 [] e s
                eq_refl eq_refl eq_refl eq_refl) as H.
  rewrite Nat.sub_0_r in H. apply H. subst n. lia.
Qed.

Lemma playerapplicationsetting_changed_calls bd_addr p_vals e s :
  let n := u8 (AvrcpController.settings_num_attr p_vals) in
  let ids := AvrcpController.settings_attr_ids p_vals in
  let vals := AvrcpController.settings_attr_values p_vals in
  java_calls (snd (run
    (AvrcpController.btavrcp_playerapplicationsetting_changed_callback
       bd_addr (Some p_vals)) e s))
  = match bd_addr with
    | Some a =>
        if ext_ok e (tick s) && ext_ok e (S (tick s))
           && ext_ok e (S (S (tick s)))
           && ((n <=? length ids) && (n <=? length vals))
        then [JavaCall (sCallbacksObj (globals s))
                AvrcpController.method_handleplayerappsettingchanged
                [JByteArray (raw_bytes a);
                 JByteArray (flat_settings n ids vals);
                 JInt (Z.of_nat (n * 2))]]
        else []
    | None => []
    end.
Proof.
  intros n ids vals.
  destruct s as [[b v cb m1 m2 bv mc] t]. cbn [globals tick sCallbacksObj].
  apply wp_run.
  destruct bd_addr as [a |];
    wp_exec_with
      ltac:(idtac;
            lazymatch goal with
            | |- wp (AvrcpController.playerapplicationsetting_changed_flatten
                       _ _ _) _ _ _ =>
                apply wp_playerapplicationsetting_changed_flatten;
                fold n ids vals;
                destruct ((n <=? length ids) && (n <=? length vals));
                wp_simpl
            end);
    try reflexivity.
Qed.


(** ** The attribute responses *)

Lemma SetObjectArrayElement_prefix {R} (pre : list jvalue) (v : jvalue)
  (i m : nat) :
  length pre = i ->
  @SetObjectArrayElement R (pre ++ repeat JNull (S m)) i v
  = ret ((pre ++ [v]) ++ repeat JNull m).
Proof.
  intros Hi. unfold SetObjectArrayElement.
  rewrite length_app, repeat_length.
  replace (i <? length pre + S m) with true
    by (symmetry; apply Nat.ltb_lt; lia).
  rewrite set_region_prefix by (cbn [length]; lia).
  replace (S m - length [v]) with m by (cbn [length]; lia). reflexivity.
Qed.

Lemma java_calls_app (t1 t2 : list event) :
  java_calls (t1 ++ t2) = java_calls t1 ++ java_calls t2.
Proof. apply filter_app. Qed.

Lemma NewStringUTF_run {R} (p : list byte) e s :
  @NewStringUTF R p e s
  = (Val (if ext_ok e (tick s) then JString (c_str p) else JNull),
     mkState (globals s) (S (tick s)), []).
Proof. reflexivity. Qed.

Section AttrRsp.
Import AvrcpController.
Variable n : nat.
Variable attrs : list btrc_element_attr_val_t.





End AttrRsp.




(** C3. btavrcp_playerapplicationsetting_callback makes one Java call, of
    handlePlayerAppSetting, when its binding calls succeed and its native
    arguments are readable (an address, num_attr attributes, each with its
    num_val values), and none otherwise.  The byte array of that call is the
    concatenation, per attribute, of attr_id, num_val and the num_val bytes
    of attr_val; its length, also passed, is the sum of 2 + num_val over the
    attributes.  btavrcp_playerapplicationsetting_changed_callback does the
    same with onPlayerAppSettingChanged and the concatenation of attr_id,
    attr_value per attribute, of length 2 * num_attr. *)
Theorem player_app_settings_flattened (bd_addr : option RawAddress)
  (num_attr : byte) (app_attrs : list AvrcpController.btrc_player_app_attr_t)
  (num_ext_attr : byte) (ext_attrs : ptr)
  (p_vals : AvrcpController.btrc_player_settings_t) (e : env) (s : state) :
  let n := u8 num_attr in
  let arraylen := sum_list (map app_attr_size (firstn n app_attrs)) in
  let m := u8 (AvrcpController.settings_num_attr p_vals) in
  let ids := AvrcpController.settings_attr_ids p_vals in
  let vals := AvrcpController.settings_attr_values p_vals in
  java_calls (snd (run (AvrcpController.btavrcp_playerapplicationsetting_callback
                          bd_addr num_attr app_attrs num_ext_attr ext_attrs)
                     e s))
  = match bd_addr with
    | Some a =>
        if ext_ok e (tick s) && ext_ok e (S (tick s))
           && (n <=? length app_attrs)
           && ext_ok e (S (S (tick s)))
           && forallb app_attr_ok (firstn n app_attrs)
        then [JavaCall (sCallbacksObj (globals s))
                AvrcpController.method_handleplayerappsetting
                [JByteArray (raw_bytes a);
                 JByteArray (flat_app_attrs n app_attrs);
                 JInt (Z.of_nat arraylen)]]
        else []
    | None => []
    end
  /\ (forallb app_attr_ok (firstn n app_attrs) = true ->
      length (flat_app_attrs n app_attrs) = arraylen)
  /\ java_calls (snd (run
        (AvrcpController.btavrcp_playerapplicationsetting_changed_callback
           bd_addr (Some p_vals)) e s))
     = match bd_addr with
       | Some a =>
           if ext_ok e (tick s) && ext_ok e (S (tick s))
              && ext_ok e (S (S (tick s)))
              && ((m <=? length ids) && (m <=? length vals))
           then [JavaCall (sCallbacksObj (globals s))
                   AvrcpController.method_handleplayerappsettingchanged
                   [JByteArray (raw_bytes a);
                    JByteArray (flat_settings m ids vals);
                    JInt (Z.of_nat (m * 2))]]
           else []
       | None => []
       end
  /\ (m <= length ids -> m <= length vals ->
      length (flat_settings m ids vals) = 2 * m)
  /\ java_name AvrcpController.method_handleplayerappsetting
     = "handlePlayerAppSetting"
  /\ java_name AvrcpController.method_handleplayerappsettingchanged
     = "onPlayerAppSettingChanged".
Proof.
  intros n arraylen m ids vals.
  split; [apply playerapplicationsetting_calls |].
  split; [apply length_flat_app_attrs |].
  split; [apply playerapplicationsetting_changed_calls |].
  split; [| split; reflexivity].
  intros Hi Hv. unfold flat_settings.
  assert (H : forall l : list (byte * byte),
             length (flat_map (fun iv => [fst iv; snd iv]) l) = 2 * length l).
  { induction l as [| x l IH]; [reflexivity |].
    cbn [flat_map app length]. rewrite IH. lia. }
  rewrite H, length_combine, !length_firstn. lia.
Qed.





(** ** The folder items *)

Lemma SetByteArrayRegion_whole {R} (n : nat) (buf : list byte) :
  n <= length buf ->
  @SetByteArrayRegion R (repeat x00 n) 0 n buf = ret (firstn n buf).
Proof.
  intros H. unfold SetByteArrayRegion.
  rewrite (SetArrayRegion_prefix x00 [] buf 0 n n) by (cbn [length]; lia).
  rewrite Nat.sub_diag. cbn [app repeat]. rewrite app_nil_r. reflexivity.
Qed.

Lemma length_set_region_one {A} (arr : list A) (i : nat) (v : A) :
  i < length arr -> length (set_region arr i [v]) = length arr.
Proof.
  intros H. unfold set_region.
  rewrite !length_app, length_firstn, length_skipn. cbn [length]. lia.
Qed.

Lemma SetObjectArrayElement_in {R} (arr : list jvalue) (i : nat) (v : jvalue) :
  i < length arr ->
  @SetObjectArrayElement R arr i v = ret (set_region arr i [v]).
Proof.
  intros H. unfold SetObjectArrayElement.
  replace (i <? length arr) with true by (symmetry; apply Nat.ltb_lt; exact H).
  reflexivity.
Qed.

Section MediaAttrs.
Import AvrcpController.
Variable n : nat.
Variable attrs : list btrc_element_attr_val_t.
Variable uidByteArray : list byte.
Variable e : env.
Hypothesis Hok : forall k, ext_ok e k = true.

Let media_body (j : nat) (st : list Z * list jvalue)
  : M unit (list Z * list jvalue) :=
  a <- index attrs j ;;
  ids <- SetIntArrayRegion (fst st) j 1 [attr_id_jint a] ;;
  attrValStr <- NewStringUTF (elem_text a) ;;
  _ <- check_nonnull (Some uidByteArray)
         (ALOGE "%s can't allocate uid array!") tt ;;
  vals <- SetObjectArrayElement (snd st) j attrValStr ;;
  ret (ids, vals).

Lemma media_body_ok j a pre_ids pre_strs m s :
  nth_error attrs j = Some a ->
  length pre_ids = j -> length pre_strs = j ->
  media_body j (pre_ids ++ repeat 0%Z (S m), pre_strs ++ repeat JNull (S m)) e s
  = (Val ((pre_ids ++ [attr_id_jint a]) ++ repeat 0%Z m,
          (pre_strs ++ [jstring_of_text a]) ++ repeat JNull m),
     mkState (globals s) (S (tick s)), []).
Proof.
  intros Hj Hids Hstrs.
  unfold media_body, SetIntArrayRegion. cbn [fst snd].
  erewrite bind_pure by (apply index_some; exact Hj).
  rewrite (SetArrayRegion_prefix 0%Z pre_ids) by (cbn [length]; lia).
  rewrite bind_ret.
  rewrite (bind_val _ _ e s _ _ _ (NewStringUTF_run _ e s)).
  rewrite Hok. cbn [check_nonnull].
  rewrite bind_ret.
  rewrite (SetObjectArrayElement_prefix pre_strs) by exact Hstrs.
  rewrite bind_ret. cbn [Nat.sub]. rewrite Nat.sub_0_r. reflexivity.
Qed.

Lemma media_loop fuel : forall i rest pre_ids pre_strs s,
  skipn i attrs = rest -> i + fuel = n -> fuel <= length rest ->
  length pre_ids = i -> length pre_strs = i ->
  for_loop fuel i (fun i _ => (i <? n) && true) media_body
    (pre_ids ++ repeat 0%Z fuel, pre_strs ++ repeat JNull fuel) e s
  = (Val (pre_ids ++ map attr_id_jint (firstn fuel rest),
          pre_strs ++ map jstring_of_text (firstn fuel rest)),
     mkState (globals s) (tick s + fuel), []).
Proof.
  induction fuel as [| fuel IH];
    intros i rest pre_ids pre_strs s Hrest Hn Hlen Hids Hstrs.
  - cbn. rewrite Nat.add_0_r. destruct s. reflexivity.
  - cbn [for_loop].
    replace (i <? n) with true by (symmetry; apply Nat.ltb_lt; lia).
    cbn [andb].
    destruct rest as [| a rest]; [cbn in Hlen; lia |].
    apply skipn_cons_nth_error in Hrest. destruct Hrest as [Hi Hrest].
    rewrite (bind_val _ _ e s _ _ _
               (media_body_ok i a pre_ids pre_strs fuel s Hi Hids Hstrs)).
    rewrite (IH (S i) rest); cbn [length] in *;
      try assumption; try lia;
      try (rewrite length_app; cbn [length]; lia).
    cbn [fst snd app firstn map tick globals].
    repeat rewrite <- app_assoc. cbn [app].
    replace (tick s + S fuel) with (S (tick s + fuel)) by lia.
    reflexivity.
Qed.

End MediaAttrs.

Lemma media_attrs_run (n : nat) attrs (uidByteArray : list byte) e s :
  (forall k, ext_ok e k = true) -> n <= length attrs ->
  for_upto n (fun _ _ => true)
    (fun j st =>
       a <- index attrs j ;;
       ids <- SetIntArrayRegion (fst st) j 1 [AvrcpController.attr_id_jint a] ;;
       attrValStr <- NewStringUTF (AvrcpController.elem_text a) ;;
       _ <- check_nonnull (R := unit) (Some uidByteArray)
              (ALOGE "%s can't allocate uid array!") tt ;;
       vals <- SetObjectArrayElement (snd st) j attrValStr ;;
       ret (ids, vals))
    (repeat 0%Z n, repeat JNull n) e s
  = (Val (map AvrcpController.attr_id_jint (firstn n attrs),
          map jstring_of_text (firstn n attrs)),
     mkState (globals s) (tick s + n), []).
Proof.
  intros Hok Hn. unfold for_upto.
  exact (media_loop n attrs uidByteArray e Hok n 0 attrs [] [] s
           eq_refl eq_refl Hn eq_refl eq_refl).
Qed.

Lemma wp_elim {R A} (m : M R A) e s
  (Q : outcome R A -> state -> list event -> Prop) :
  wp m e s Q -> exists o s' t, m e s = (o, s', t) /\ Q o s' t.
Proof.
  unfold wp. destruct (m e s) as [[o s'] t]. intros H.
  exists o, s', t. split; [reflexivity | exact H].
Qed.

Lemma length_built_items e t items :
  length (built_items e t items) = length items.
Proof.
  revert t. induction items as [| it items IH]; intros t; [reflexivity |].
  cbn [built_items length]. rewrite IH. reflexivity.
Qed.

Lemma SetObjectArrayElement_prefix' {R} (pre : list jvalue) (m : nat)
  (v : jvalue) :
  @SetObjectArrayElement R (pre ++ repeat JNull (S m)) (length pre) v
  = ret ((pre ++ [v]) ++ repeat JNull m).
Proof.
  apply SetObjectArrayElement_prefix. reflexivity.
Qed.

Section FolderItems.
Import AvrcpController.
Context {hdr : bt_rc_h}.
Variable e : env.
Hypothesis Hok : forall k, ext_ok e k = true.
Hypothesis Hptr : forall k, ext_ptr e k <> NULL.

Ltac ok_step :=
  idtac;
  lazymatch goal with
  | H : ext_ptr e ?k = NULL |- _ => exfalso; exact (Hptr k H)
  | |- wp (SetByteArrayRegion (repeat x00 ?n) 0 ?n ?buf) _ _ _ =>
      rewrite (SetByteArrayRegion_whole n buf) by assumption
  | |- wp (SetObjectArrayElement (?pre ++ repeat JNull (S ?m)) _ ?v) _ _ _ =>
      rewrite (SetObjectArrayElement_prefix' pre m v)
  | |- wp (for_upto _ _ _ _) _ _ _ =>
      eapply wp_of_eq; [apply media_attrs_run; assumption |]; wp_simpl
  | |- context [ext_ok e _] => rewrite !Hok; wp_simpl
  end.

Lemma folder_items_body_ok items it b pre m s :
  nth_error items (length pre) = Some it -> item_ok it = true ->
  wp (folder_items_body items (length pre) (b, pre ++ repeat JNull (S m))) e s
    (translated e s it b pre m).
Proof.
  intros Hi Hit.
  destruct s as [g t]. unfold translated. cbn [globals tick].
  destruct it as [p | f | md | ty]; cbn [item_ok] in Hit;
    try (apply andb_true_iff in Hit; destruct Hit as [Hu Hn]);
    repeat match goal with
           | H : (_ <=? _) = true |- _ => apply Nat.leb_le in H
           end;
    unfold folder_items_body;
    wp_exec_with ok_step.
  all: cbn [built_item item_calls is_player].
  all: rewrite ?orb_true_r, ?orb_false_r.
  all: unfold object_at.
  all: repeat match goal with
              | H : ext_ptr e ?k = Ptr _ |- _ =>
                  match goal with
                  | |- context [ext_ptr e ?k'] =>
                      replace k' with k by lia; rewrite H
                  end
              end.
  all: try (split; [reflexivity |]; split; [f_equal; lia | reflexivity]).
  rewrite <- app_assoc, Nat.add_0_r. cbn [app repeat].
  split; [reflexivity |]. split; reflexivity.
Qed.

Lemma items_loop (n : nat) items fuel : forall rest b pre s,
  skipn (length pre) items = rest -> length pre + fuel = n ->
  fuel <= length rest ->
  forallb item_ok (firstn fuel rest) = true ->
  wp (for_loop fuel (length pre) (fun i _ => (i <? n) && true)
        (folder_items_body items) (b, pre ++ repeat JNull fuel)) e s
    (fun o s' t =>
       o = Val (b || existsb is_player (firstn fuel rest),
                pre ++ built_items e (tick s) (firstn fuel rest))
       /\ globals s' = globals s
       /\ java_calls t
          = flat_map (constructor_call (sCallbacksObj (globals s)))
              (firstn fuel rest)).
Proof.
  induction fuel as [| fuel IH]; intros rest b pre s Hrest Hn Hlen Hwf.
  - cbn. rewrite orb_false_r. repeat split; reflexivity.
  - destruct rest as [| it rest]; [cbn in Hlen; lia |].
    apply skipn_cons_nth_error in Hrest. destruct Hrest as [Hi Hrest].
    cbn [firstn forallb] in Hwf. apply andb_true_iff in Hwf.
    destruct Hwf as [Hit Hwf].
    cbn [for_loop].
    replace (length pre <? n) with true by (symmetry; apply Nat.ltb_lt; lia).
    cbn [andb]. apply wp_bind.
    pose proof (folder_items_body_ok items it b pre fuel s Hi Hit) as Hbody.
    revert Hbody. apply wp_conseq.
    intros o s1 t1 [-> [-> Hj1]].
    assert (Hl : length (pre ++ [built_item e (tick s) it]) = S (length pre))
      by (rewrite length_app; cbn [length]; lia).
    specialize (IH rest (b || is_player it)
                  (pre ++ [built_item e (tick s) it])
                  (mkState (globals s) (tick s + item_calls it))).
    rewrite Hl in IH.
    specialize (IH Hrest ltac:(lia) ltac:(cbn [length] in Hlen; lia) Hwf).
    revert IH. apply wp_conseq.
    intros o2 s2 t2 [-> [Hg2 Hj2]].
    cbn [firstn existsb flat_map built_items globals tick] in *.
    rewrite orb_assoc, <- app_assoc. cbn [app].
    split; [reflexivity |].
    split; [exact Hg2 |].
    rewrite java_calls_app, Hj1, Hj2. reflexivity.
Qed.

Lemma first_is_player_exists (l : list btrc_folder_items_t) :
  first_is_player l || existsb is_player l = existsb is_player l.
Proof.
  destruct l as [| it l]; [reflexivity |]. cbn.
  destruct (is_player it); reflexivity.
Qed.

Lemma first_listing (n : nat) (items : list btrc_folder_items_t) s :
  n <= length items ->
  (if 0 <? n
   then first <- index (R := unit) items 0 ;; ret (is_player first)
   else ret false) e s
  = (Val (first_is_player (firstn n items)), s, []).
Proof.
  intros Hn. destruct n as [| n]; [reflexivity |].
  destruct items as [| it items]; [cbn in Hn; lia |]. reflexivity.
Qed.

Lemma folder_items_calls bd_addr status items count s :
  u8 count <= length items ->
  forallb item_ok (firstn (u8 count) items) = true ->
  class_AvrcpPlayer (globals s) <> NoClass ->
  class_MediaBrowser_MediaItem (globals s) <> NoClass ->
  let items' := firstn (u8 count) items in
  java_calls (snd (run (btavrcp_get_folder_items_callback bd_addr status
                          items count) e s))
  = flat_map (constructor_call (sCallbacksObj (globals s))) items'
    ++ [handler_call (globals s) status (existsb is_player items')
          (first_is_player items')
          (built_items e (S (S (tick s))) items')].
Proof.
  intros Hn Hwf Hc1 Hc2 items'.
  destruct s as [[b v cb m1 m2 bv mc] t].
  cbn [globals tick class_AvrcpPlayer class_MediaBrowser_MediaItem
       sCallbacksObj] in *.
  destruct m1 as [| c1]; [contradiction |].
  destruct m2 as [| c2]; [contradiction |].
  apply (wp_run _ _ _ (fun r => java_calls (snd r) = _)).
  unfold btavrcp_get_folder_items_callback.
  wp_exec_with
    ltac:(idtac;
          lazymatch goal with
          | |- wp (if 0 <? u8 count then _ else _) _ _ _ =>
              eapply wp_of_eq; [apply first_listing; exact Hn |]; wp_simpl;
              fold items'
          | |- wp (for_upto _ _ _ _) _ _ _ => unfold for_upto; fail
          | |- context [ext_ok e _] => rewrite !Hok; wp_simpl
          end);
    (eapply wp_conseq;
     [| apply (items_loop (u8 count) items (u8 count) items _ []);
        [ reflexivity | reflexivity | exact Hn | exact Hwf ] ]);
    cbn beta;
    intros o s1 t1 [-> [Hg Hj]];
    cbn [globals tick sCallbacksObj app] in Hg, Hj |- *;
    fold items' in Hj |- *;
    pose proof (first_is_player_exists items') as He;
    rewrite Heqb0 in He; cbn [orb] in He |- *; rewrite <- ?He;
    destruct (existsb is_player items');
    wp_exec; rewrite Hg; cbn [sCallbacksObj];
    cbn [java_calls filter is_java_call]; fold java_calls;
    rewrite java_calls_app, Hj; reflexivity.
Qed.

End FolderItems.

(** At most one call of a handler, whatever the foreign side answers. *)
Lemma one_handler_bind {R A B} (m : M R A) (k : A -> M R B) :
  emits not_handler m ->
  (forall a e s, length (filter is_handler_call (snd (k a e s))) <= 1) ->
  forall e s, length (filter is_handler_call (snd (bind m k e s))) <= 1.
Proof.
  intros Hm Hk e s. unfold bind. specialize (Hm e s).
  destruct (m e s) as [[o s1] t1]. cbn [snd] in Hm.
  assert (H1 : filter is_handler_call t1 = []).
  { clear -Hm. induction Hm as [| ev t Hev Ht IH]; [reflexivity |].
    cbn [filter]. unfold not_handler in Hev. rewrite Hev. exact IH. }
  destruct o as [a | r | f]; cbn [snd]; try (rewrite H1; cbn; lia).
  specialize (Hk a e s1). destruct (k a e s1) as [[o2 s2] t2].
  cbn [snd] in *. rewrite filter_app, H1. exact Hk.
Qed.

Lemma folder_items_one_handler {hdr : AvrcpController.bt_rc_h}
  bd_addr status items count e s :
  length (filter is_handler_call
            (snd (run (AvrcpController.btavrcp_get_folder_items_callback
                         bd_addr status items count) e s))) <= 1.
Proof.
  assert (H : forall e s,
             length (filter is_handler_call
               (snd (AvrcpController.btavrcp_get_folder_items_callback
                       bd_addr status items count e s))) <= 1).
  { unfold AvrcpController.btavrcp_get_folder_items_callback.
    repeat (apply one_handler_bind;
            [emits_tac ltac:(reflexivity) | intro]).
    intros e0 s0.
    match goal with
    | |- context [if ?b then _ else _] => destruct b
    end; cbn; lia. }
  specialize (H e s). unfold run.
  destruct (AvrcpController.btavrcp_get_folder_items_callback _ _ _ _ e s)
    as [[[a | a | f] s1] t1]; exact H.
Qed.

Lemma exclusive_first (items : list AvrcpController.btrc_folder_items_t) :
  exclusive items ->
  existsb AvrcpController.is_player items = first_is_player items.
Proof.
  intros [Hall | Hnone].
  - destruct items as [| it items]; [reflexivity |].
    cbn in *. apply andb_true_iff in Hall. destruct Hall as [-> _].
    reflexivity.
  - rewrite Hnone. destruct items as [| it items]; [reflexivity |].
    cbn in *. apply orb_false_iff in Hnone. destruct Hnone as [-> _].
    reflexivity.
Qed.

Section WithHeader.
Context {hdr : AvrcpController.bt_rc_h}.

(** C5. btavrcp_get_folder_items_callback invokes a handler at most once.
    When every binding call succeeds, the count items are readable, the two
    item classes were resolved and the listing is exclusive (player items
    only, or no player item), it calls, for each item in order, the Java
    constructor that matches its item_type (media, folder or player; an
    item of another type is logged and left out) and then exactly one
    handler, decided by the first element's item_type:
    handleGetPlayerItemsRsp for a player listing, otherwise
    handleGetFolderItemsRsp with the status.  The handler receives the
    array of count elements that holds, for each item in order, the object
    its constructor returned. *)
Theorem folder_items_handled (bd_addr : option RawAddress) (status : Z)
  (items : list AvrcpController.btrc_folder_items_t) (count : byte)
  (e : env) (s : state) :
  let items' := firstn (u8 count) items in
  let t := snd (run (AvrcpController.btavrcp_get_folder_items_callback
                       bd_addr status items count) e s) in
  let arr := built_items e (S (S (tick s))) items' in
  length (filter is_handler_call t) <= 1
  /\ (all_ok e ->
      u8 count <= length items ->
      forallb item_ok items' = true ->
      class_AvrcpPlayer (globals s) <> NoClass ->
      class_MediaBrowser_MediaItem (globals s) <> NoClass ->
      exclusive items' ->
      java_calls t
      = flat_map (constructor_call (sCallbacksObj (globals s))) items'
        ++ [handler_call (globals s) status (first_is_player items')
              (first_is_player items') arr]
      /\ length arr = u8 count).
Proof.
  intros items' t arr. split.
  - apply folder_items_one_handler.
  - intros [Hok Hptr] Hn Hwf Hc1 Hc2 Hex. split.
    + rewrite <- (exclusive_first items' Hex) at 1.
      apply (folder_items_calls e Hok Hptr bd_addr status items count s
               Hn Hwf Hc1 Hc2).
    + unfold arr, items'. rewrite length_built_items, length_firstn. lia.
Qed.

End WithHeader.

Lemma all_ok_friendly : all_ok friendly_env.
Proof. split; intros n; [reflexivity | discriminate]. Qed.

Lemma folder_items_handled_witness :
  all_ok friendly_env
  /\ exclusive [AvrcpController.BTRC_ITEM_FOLDER sample_folder;
                AvrcpController.BTRC_ITEM_MEDIA sample_media]
  /\ java_calls (snd (run
       (AvrcpController.btavrcp_get_folder_items_callback
          (hdr := aosp_bt_rc_h) (Some sample_address) 0
          [AvrcpController.BTRC_ITEM_FOLDER sample_folder;
           AvrcpController.BTRC_ITEM_MEDIA sample_media] x02)
       friendly_env connected_state))
     = flat_map (constructor_call (hdr := aosp_bt_rc_h) (Ptr 1))
         [AvrcpController.BTRC_ITEM_FOLDER sample_folder;
          AvrcpController.BTRC_ITEM_MEDIA sample_media]
       ++ [handler_call (globals connected_state) 0 false false
             [JObject 15; JObject 22]].
Proof.
  assert (Hex : exclusive [AvrcpController.BTRC_ITEM_FOLDER sample_folder;
                           AvrcpController.BTRC_ITEM_MEDIA sample_media])
    by (right; reflexivity).
  split; [exact all_ok_friendly |]. split; [exact Hex |].
  apply (proj2 (folder_items_handled (hdr := aosp_bt_rc_h)
                  (Some sample_address) 0
                  [AvrcpController.BTRC_ITEM_FOLDER sample_folder;
                   AvrcpController.BTRC_ITEM_MEDIA sample_media] x02
                  friendly_env connected_state)).
  - exact all_ok_friendly.
  - simpl. lia.
  - reflexivity.
  - cbn. intros H. inversion H.
  - cbn. intros H. inversion H.
  - exact Hex.
Defined.

Lemma player_app_settings_flattened_witness :
  forallb app_attr_ok (firstn (u8 x02) sample_app_attrs) = true
  /\ length (flat_app_attrs (u8 x02) sample_app_attrs) = 7
  /\ java_calls (snd (run
       (AvrcpController.btavrcp_playerapplicationsetting_callback
          (Some sample_address) x02 sample_app_attrs x00 NULL)
       friendly_env connected_state))
     = [JavaCall (Ptr 1) AvrcpController.method_handleplayerappsetting
          [JByteArray [x00; x1a; x7d; xda; x71; x13];
           JByteArray [x01; x02; x01; x02; x02; x01; x03]; JInt 7]].
Proof.
  pose proof (player_app_settings_flattened (Some sample_address) x02
                sample_app_attrs x00 NULL sample_settings friendly_env
                connected_state) as H.
  split; [reflexivity |].
  split; [exact (proj1 (proj2 H) eq_refl) | exact (proj1 H)].
Defined.



(** ** Null results of the binding calls *)

Section NullResults.
Context {R : Type}.

Lemma emits_bind_yields {A B} (P : event -> Prop) (Q : A -> Prop)
  (m : M R A) (k : A -> M R B) :
  yields Q m -> emits P m -> (forall a, Q a -> emits P (k a)) ->
  emits P (bind m k).
Proof.
  intros Hy Hm Hk e s. unfold bind.
  specialize (Hy e s). specialize (Hm e s).
  destruct (m e s) as [[o s1] t1]. simpl in Hy, Hm.
  destruct o as [a | r | f]; simpl; auto.
  specialize (Hk a Hy e s1). destruct (k a e s1) as [[o2 s2] t2].
  simpl in *. apply Forall_app. split; assumption.
Qed.


End NullResults.





Section WithHeader.
Context {hdr : AvrcpController.bt_rc_h}.


End WithHeader.

(** ** A callback that does not reach its Java method has logged an error *)

Lemma error_logs_app (t1 t2 : list event) :
  error_logs (t1 ++ t2) = error_logs t1 ++ error_logs t2.
Proof. apply filter_app. Qed.



Section Logged.
Context {R : Type}.















End Logged.













(** ** A command that throws makes no HAL call *)

Section Silent.
Context {R : Type}.

Lemma silent_ret {A} (a : A) : silent (@ret R A a).
Proof. intros e s. eexists. reflexivity. Qed.

Lemma silent_crash {A} (f : fault) : silent (@crash R A f).
Proof. intros e s. eexists. reflexivity. Qed.

Lemma silent_bind {A B} (m : M R A) (k : A -> M R B) :
  silent m -> (forall a, silent (k a)) -> silent (bind m k).
Proof.
  intros Hm Hk e s. destruct (Hm e s) as [o Ho].
  destruct o as [a | r | f].
  - rewrite (bind_pure _ _ _ _ _ Ho). apply Hk.
  - rewrite (bind_return _ _ _ _ _ _ _ Ho). eexists. reflexivity.
  - rewrite (bind_crash _ _ _ _ _ _ _ Ho). eexists. reflexivity.
Qed.

Lemma silent_index {A} (p : list A) (i : nat) : silent (@index R A p i).
Proof.
  unfold index. destruct (nth_error p i); [apply silent_ret | apply silent_crash].
Qed.

Lemma silent_index_pinned name p i : silent (@index_pinned R name p i).
Proof. intros e s. eexists. reflexivity. Qed.

Lemma silent_for_loop {S} fuel i cond (body : nat -> S -> M R S) st :
  (forall i st, silent (body i st)) -> silent (for_loop fuel i cond body st).
Proof.
  intros Hb. revert i st.
  induction fuel as [| fuel IH]; intros i st; simpl.
  - apply silent_ret.
  - destruct (cond i st).
    + apply silent_bind; [apply Hb | intro; apply IH].
    + apply silent_ret.
Qed.

Lemma wp_silent {A} (m : M R A) e s
  (Q : outcome R A -> state -> list event -> Prop) :
  silent m -> (forall o, Q o s []) -> wp m e s Q.
Proof.
  intros Hm HQ. destruct (Hm e s) as [o Ho].
  apply (wp_of_eq _ _ _ _ _ _ _ Ho). apply HQ.
Qed.

End Silent.

(** The loops of the commands copy between native arrays. *)
Ltac silent_loop :=
  idtac;
  lazymatch goal with
  | |- wp (for_loop _ _ _ _ _) _ _ _ =>
      apply wp_silent;
      [ apply silent_for_loop; intros;
        repeat first [ apply silent_bind; [| intro]
                     | apply silent_index
                     | apply silent_index_pinned
                     | apply silent_ret ]
      | intros [? | ? | ?]; wp_simpl ]
  end.




Ltac pin_rewrite :=
  repeat match goal with
         | H : (_ >? _)%Z = _ |- _ => rewrite H
         | H : (_ <? _)%Z = _ |- _ => rewrite H
         | H : ext_ok _ _ = _ |- _ => rewrite H
         | H : is_null _ = _ |- _ => rewrite H
         end.

Ltac pin_close :=
  subst;
  repeat (progress
            (cbn [existsb is_throw hal_calls error_logs filter is_hal_call
                  is_error_log app orb negb andb all_ok_from avrcp_pin_calls
                  pin_calls is_some];
             unfold no_ids;
             rewrite ?andb_false_r, ?andb_true_r;
             pin_rewrite));
  repeat match goal with
         | |- context [if ?c then _ else _] =>
             destruct c;
             cbn [all_ok_from andb negb is_some]; pin_rewrite
         end;
  rewrite ?andb_true_r, ?andb_false_r;
  cbn [negb andb];
  (split; [reflexivity
          | intros Ht; try discriminate Ht; repeat split; reflexivity]).

Lemma avrcp_command_throws {hdr : AvrcpController.bt_rc_h}
  (c : AvrcpController.command) e s :
  paired (globals s) ->
  throws_on_failed_pin (AvrcpCommand c) e s
    (AvrcpController.exec_command c e s).
Proof.
  destruct s as [[b v cb m1 m2 bv mc] t]. unfold paired. cbn [globals].
  intros Hp. cbn in Hp.
  unfold throws_on_failed_pin, trace_of, completed.
  cbn [tick globals hal_iface pins_tested].
  destruct c;
    cbn [AvrcpController.exec_command AvrcpController.hal_iface iface_ptr
         avrcp_pins_tested sBluetoothAvrcpInterface
         sBluetoothAvrcpVendorInterface];
    apply wp_enter; wp_exec_with silent_loop; pin_close.
Qed.

Lemma vendor_command_throws {hdr : AvrcpController.bt_rc_h}
  (c : Vendor.command) e s :
  throws_on_failed_pin (VendorCommand c) e s
    (Vendor.exec_command c e s).
Proof.
  destruct s as [[b v cb m1 m2 bv mc] t].
  unfold throws_on_failed_pin, trace_of, completed.
  cbn [tick globals hal_iface pins_tested iface_ptr
       sBluetoothVendorInterface].
  destruct c; cbn [Vendor.exec_command pin_calls];
    apply wp_enter; wp_exec; pin_close.
Qed.


Section WithHeader.
Context {hdr : AvrcpController.bt_rc_h}.


End WithHeader.



(** The string that GetStringUTFChars fails to pin in searchNative goes to
    search_cmd as it is. *)
Example search_string_untested :
  trace_of (exec (hdr := aosp_bt_rc_h)
              (Command (AvrcpCommand (AvrcpController.Search
                                        (raw_bytes sample_address) 106 3
                                        [x61; x62; x63])))
              (failing_at 11) connected_state)
  = [Log LogI "%s: sBluetoothAvrcpVendorInterface: %p";
     HalCall AvrcpVendorCtrl "search_cmd"
       [AAddr (raw_bytes sample_address); AInt 106; AInt 3; ABytes None]
       (RStatus BT_STATUS_SUCCESS);
     Jni "ReleaseByteArrayElements"; Jni "ReleaseStringUTFChars"].
Proof. reflexivity. Qed.

(** The string that NewStringUTF fails to build for the value of a media
    attribute is stored in the array as it is (the test that follows looks
    at uidByteArray), and the array goes to createFromNativeMediaItem. *)
Example media_attribute_string_untested :
  trace_of (exec (hdr := aosp_bt_rc_h)
              (AvrcpCallback (AvrcpController.GetFolderItemsCb
                                (Some sample_address) 0
                                [AvrcpController.BTRC_ITEM_MEDIA sample_media]
                                x01))
              (failing_at 17) connected_state)
  = [Log LogV "%s count %d"; Log LogV "%s item type %d";
     JavaCall (Ptr 1) AvrcpController.method_createFromNativeMediaItem
       [JByteArray (repeat x01 8); JInt 0; JString [x4d]; JIntArray [1%Z];
        JObjectArray (Class "java/lang/String") [JNull]];
     JavaCall (Ptr 1) AvrcpController.method_handleGetFolderItemsRsp
       [JInt 0;
        JObjectArray (Class "android/media/browse/MediaBrowser$MediaItem")
          [JObject 19]]].
Proof. reflexivity. Qed.

(** The link-key string that NewStringUTF fails to build goes to
    onGetLinkKey as a null reference. *)
Example link_key_string_untested :
  trace_of (exec (hdr := aosp_bt_rc_h)
              (VendorCallback (Vendor.GetLinkKeyCb (Some sample_address) true
                                 sample_link_key 4))
              (failing_at 2) initial_state)
  = [Log LogI "%s";
     JavaCall NULL Vendor.method_getLinkKeyCallback
       [JNull; JByteArray (raw_bytes sample_address); JBool true; JInt 4]].
Proof. reflexivity. Qed.

(** ** The life cycle of the interfaces *)

Lemma backed_avrcp_init (o : ptr) e s :
  callbacks_backed (globals s) ->
  callbacks_backed (globals (snd (fst (enter (AvrcpController.initNative o) e s)))).
Proof.
  destruct s as [[b v c m1 m2 bv mc] t]. unfold callbacks_backed. cbn.
  intros Hp. apply wp_enter. wp_exec; bool_close; intuition congruence.
Qed.

Lemma backed_avrcp_cleanup (o : ptr) e s :
  callbacks_backed (globals s) ->
  callbacks_backed (globals (snd (fst (enter (AvrcpController.cleanupNative o) e s)))).
Proof.
  destruct s as [[b v c m1 m2 bv mc] t]. unfold callbacks_backed. cbn.
  intros Hp. apply wp_enter. wp_exec; bool_close; intuition congruence.
Qed.

Lemma backed_vendor_init (o : ptr) e s :
  callbacks_backed (globals s) ->
  callbacks_backed (globals (snd (fst (enter (Vendor.initNative o) e s)))).
Proof.
  destruct s as [[b v c m1 m2 bv mc] t]. unfold callbacks_backed. cbn.
  intros Hp. apply wp_enter. wp_exec; bool_close; intuition congruence.
Qed.

Lemma backed_vendor_cleanup (o : ptr) e s :
  callbacks_backed (globals s) ->
  callbacks_backed (globals (snd (fst (enter (Vendor.cleanupNative o) e s)))).
Proof.
  destruct s as [[b v c m1 m2 bv mc] t]. unfold callbacks_backed. cbn.
  intros Hp. apply wp_enter. wp_exec; bool_close; intuition congruence.
Qed.

Section WithHeader.
Context {hdr : AvrcpController.bt_rc_h}.

Lemma backed_exec (op : operation) e s :
  callbacks_backed (globals s) ->
  callbacks_backed (globals (state_after (exec op e s))).
Proof.
  intros Hp. destruct op; unfold state_after; simpl.
  - exact Hp.
  - exact Hp.
  - apply backed_avrcp_init; exact Hp.
  - apply backed_avrcp_cleanup; exact Hp.
  - apply backed_vendor_init; exact Hp.
  - apply backed_vendor_cleanup; exact Hp.
  - pose proof (frames_command c e s) as H. unfold state_after in H.
    rewrite H. exact Hp.
  - rewrite frames_avrcp_callback. exact Hp.
  - rewrite frames_vendor_callback. exact Hp.
Qed.

(** X1. In every state the process can be in, a callback object reference
    is held only while the interfaces it serves are: sCallbacksObj is
    non-NULL only if sBluetoothAvrcpInterface and
    sBluetoothAvrcpVendorInterface are, and mCallbacksObj only if
    sBluetoothVendorInterface is. *)
Theorem callback_objects_backed (s : state) :
  reachable s -> callbacks_backed (globals s).
Proof.
  induction 1 as [| s op e Hr IH].
  - split; discriminate.
  - apply backed_exec. exact IH.
Qed.

End WithHeader.

Lemma callback_objects_backed_witness :
  reachable (hdr := aosp_bt_rc_h) connected_state
  /\ is_null (sCallbacksObj (globals connected_state)) = false
  /\ is_null (sBluetoothAvrcpInterface (globals connected_state)) = false.
Proof.
  split; [exact reachable_connected |].
  split; [reflexivity |].
  exact (proj1 (proj1 (callback_objects_backed (hdr := aosp_bt_rc_h)
                         connected_state reachable_connected) eq_refl)).
Defined.

(** ** Initialisation and cleanup of the AVRCP interfaces *)

Lemma fold_neutral (via : iface) (t : list event) (h : bool) :
  Forall (neutral via) t -> fold_left (track via) t h = h.
Proof.
  intros H. revert h. induction H as [| ev t Hev Ht IH]; intros h; simpl.
  - reflexivity.
  - rewrite Hev. apply IH.
Qed.

Ltac neutral_tac := idtac; unfold neutral; intros ?; reflexivity.

(** The events are counted as they are recorded. *)
Ltac track_step :=
  idtac;
  lazymatch goal with
  | |- wp (emit _) _ _ _ =>
      apply wp_emit; wp_simpl;
      cbn [app fold_left track iface_eqb init_fn cleanup_fn String.eqb
           Ascii.eqb Bool.eqb andb]
  end.

Ltac track_close :=
  cbn [negb];
  repeat match goal with
         | H : is_success _ = _ |- _ => rewrite H
         | H : is_null _ = _ |- _ => rewrite H
         end;
  reflexivity.

Lemma tracked_avrcp_init (via : iface) (o : ptr) e s h :
  via = AvrcpCtrl \/ via = AvrcpVendorCtrl ->
  h = negb (is_null (iface_ptr (globals s) via)) ->
  fold_left (track via) (snd (enter (AvrcpController.initNative o) e s)) h
  = negb (is_null (iface_ptr (globals (snd (fst (enter
            (AvrcpController.initNative o) e s)))) via)).
Proof.
  destruct s as [[b v c m1 m2 bv mc] t]. cbn [globals].
  intros [-> | ->] ->; cbn [iface_ptr sBluetoothAvrcpInterface
                             sBluetoothAvrcpVendorInterface];
    apply wp_enter; wp_exec_with track_step; track_close.
Qed.

Lemma tracked_avrcp_cleanup (via : iface) (o : ptr) e s h :
  via = AvrcpCtrl \/ via = AvrcpVendorCtrl ->
  h = negb (is_null (iface_ptr (globals s) via)) ->
  fold_left (track via) (snd (enter (AvrcpController.cleanupNative o) e s)) h
  = negb (is_null (iface_ptr (globals (snd (fst (enter
            (AvrcpController.cleanupNative o) e s)))) via)).
Proof.
  destruct s as [[b v c m1 m2 bv mc] t]. cbn [globals].
  intros [-> | ->] ->; cbn [iface_ptr sBluetoothAvrcpInterface
                             sBluetoothAvrcpVendorInterface];
    apply wp_enter; wp_exec_with track_step; track_close.
Qed.

Section WithHeader.
Context {hdr : AvrcpController.bt_rc_h}.

Lemma tracked_exec (via : iface) (op : operation) e s h :
  via = AvrcpCtrl \/ via = AvrcpVendorCtrl ->
  h = negb (is_null (iface_ptr (globals s) via)) ->
  fold_left (track via) (trace_of (exec op e s)) h
  = negb (is_null (iface_ptr (globals (state_after (exec op e s))) via)).
Proof.
  intros Hv Hh. unfold trace_of, state_after.
  destruct op as [| | o | o | o | o | [c | c] | cb | cb];
    cbn [exec exec_command].
  - subst h. destruct Hv as [-> | ->]; reflexivity.
  - subst h. destruct Hv as [-> | ->]; reflexivity.
  - apply tracked_avrcp_init; assumption.
  - apply tracked_avrcp_cleanup; assumption.
  - rewrite fold_neutral.
    + subst h. destruct Hv as [-> | ->]; cbn [iface_ptr];
        apply wp_enter; wp_exec; reflexivity.
    + destruct Hv as [-> | ->]; apply emits_enter; emits_tac neutral_tac.
  - rewrite fold_neutral.
    + subst h. destruct Hv as [-> | ->]; cbn [iface_ptr];
        apply wp_enter; wp_exec; reflexivity.
    + destruct Hv as [-> | ->]; apply emits_enter; emits_tac neutral_tac.
  - rewrite fold_neutral.
    + rewrite frames_avrcp_command. exact Hh.
    + destruct Hv as [-> | ->]; destruct c; simpl; apply emits_enter;
        emits_tac neutral_tac.
  - rewrite fold_neutral.
    + rewrite frames_vendor_command. exact Hh.
    + destruct Hv as [-> | ->]; destruct c; simpl; apply emits_enter;
        emits_tac neutral_tac.
  - rewrite fold_neutral.
    + rewrite frames_avrcp_callback. exact Hh.
    + destruct Hv as [-> | ->]; destruct cb; simpl; apply emits_enter;
        emits_tac neutral_tac.
  - rewrite fold_neutral.
    + rewrite frames_vendor_callback. exact Hh.
    + destruct Hv as [-> | ->]; destruct cb; simpl; apply emits_enter;
        emits_tac neutral_tac.
Qed.

(** X2. Along every run of the process, each of the two AVRCP interface
    pointers is non-NULL exactly while its interface is initialised: the
    last init on it reported success and no cleanup on it has followed. *)
Theorem avrcp_pointers_track_initialisation (t : list event) (s : state) :
  history t s ->
  initialised AvrcpCtrl t
  = negb (is_null (sBluetoothAvrcpInterface (globals s)))
  /\ initialised AvrcpVendorCtrl t
     = negb (is_null (sBluetoothAvrcpVendorInterface (globals s))).
Proof.
  induction 1 as [| t s op e Hh [IH1 IH2]].
  - split; reflexivity.
  - unfold initialised. rewrite !fold_left_app. split.
    + apply (tracked_exec AvrcpCtrl); [left; reflexivity | exact IH1].
    + apply (tracked_exec AvrcpVendorCtrl); [right; reflexivity | exact IH2].
Qed.

End WithHeader.

Lemma avrcp_pointers_track_initialisation_witness :
  let r := exec (hdr := aosp_bt_rc_h) (AvrcpInit (Ptr 1)) friendly_env
             initial_state in
  history (hdr := aosp_bt_rc_h) ([] ++ trace_of r) (state_after r)
  /\ initialised AvrcpCtrl ([] ++ trace_of r)
     = negb (is_null (sBluetoothAvrcpInterface (globals (state_after r))))
  /\ negb (is_null (sBluetoothAvrcpInterface (globals (state_after r))))
     = true.
Proof.
  intros r.
  assert (H : history (hdr := aosp_bt_rc_h) ([] ++ trace_of r) (state_after r))
    by exact (history_step [] initial_state (AvrcpInit (Ptr 1)) friendly_env
                history_start).
  split; [exact H |].
  split; [| vm_compute; reflexivity].
  exact (proj1 (avrcp_pointers_track_initialisation (hdr := aosp_bt_rc_h)
                  ([] ++ trace_of r) (state_after r) H)).
Defined.

(** ** The shape of a command *)

Lemma fold_count_acc (p : event -> bool) (t : list event) (n : nat) :
  fold_left (fun n ev => if p ev then S n else n) t n
  = n + length (filter p t).
Proof.
  revert n. induction t as [| ev t IH]; intros n; simpl.
  - lia.
  - rewrite IH. destruct (p ev); simpl; lia.
Qed.

Lemma count_length (p : event -> bool) (t : list event) :
  count p t = length (filter p t).
Proof. unfold count. rewrite fold_count_acc. reflexivity. Qed.

Ltac count_step :=
  idtac;
  lazymatch goal with
  | |- wp (emit _) _ _ _ =>
      apply wp_emit; wp_simpl;
      cbn [app fold_left is_hal_call is_release String.eqb Ascii.eqb
           Bool.eqb andb orb]
  end.

Ltac count_first :=
  first [silent_loop | count_step].

Ltac numbers_close :=
  try (exfalso; congruence);
  cbn [app fold_left is_hal_call is_release String.eqb Ascii.eqb
       Bool.eqb andb orb];
  unfold no_ids;
  repeat match goal with
         | H : (_ >? _)%Z = _ |- _ => rewrite H
         end;
  rewrite ?andb_false_r;
  cbn [andb negb is_some];
  split; [lia |];
  split; [intros H0; first [discriminate H0 | reflexivity | lia] |];
  split;
  [ intros H0; first [exfalso; apply H0; reflexivity | split; lia]
  | intros H0; first [discriminate H0 | reflexivity] ].

Lemma avrcp_command_numbers {hdr : AvrcpController.bt_rc_h}
  (c : AvrcpController.command) e s :
  paired (globals s) ->
  command_numbers (AvrcpCommand c) s (AvrcpController.exec_command c e s).
Proof.
  destruct s as [[b v cb m1 m2 bv mc] t]. unfold paired. cbn [globals].
  intros Hp. cbn in Hp.
  unfold command_numbers, count, trace_of, state_after, completed.
  cbn [tick].
  destruct c; cbn [AvrcpController.exec_command pin_calls avrcp_pin_calls
                   unreleased indexes_arrays];
    apply wp_enter; wp_exec_with count_first; numbers_close.
Qed.

Lemma vendor_command_numbers (c : Vendor.command) e s :
  command_numbers (VendorCommand c) s (Vendor.exec_command c e s).
Proof.
  destruct s as [g t].
  unfold command_numbers, count, trace_of, state_after, completed.
  cbn [tick].
  destruct c; cbn [Vendor.exec_command pin_calls unreleased indexes_arrays];
    apply wp_enter; wp_exec_with count_first; numbers_close.
Qed.

Lemma command_numbers_run {hdr : AvrcpController.bt_rc_h} (c : command) e s :
  paired (globals s) -> command_numbers c s (exec_command c e s).
Proof.
  intros Hp. destruct c as [c | c]; cbn [exec_command].
  - apply avrcp_command_numbers. exact Hp.
  - apply vendor_command_numbers.
Qed.

Lemma count_zero_nil (p : event -> bool) (t : list event) :
  count p t = 0 <-> filter p t = [].
Proof.
  rewrite count_length. split.
  - apply length_zero_iff_nil.
  - intros ->. reflexivity.
Qed.

Section WithHeader.
Context {hdr : AvrcpController.bt_rc_h}.

(** X3. In every state the process can be in, a command makes at most one
    HAL call, and that through the interface pointer it belongs to; every
    command other than setPlayerApplicationSettingValuesNative runs to its
    end without a fault. *)
Theorem command_calls_hal_once (c : command) (e : env) (s : state) :
  reachable s ->
  let r := exec_command c e s in
  length (hal_calls (trace_of r)) <= 1
  /\ Forall (via_iface (hal_iface c)) (trace_of r)
  /\ (indexes_arrays c = false -> completed r = true).
Proof.
  intros Hr r. subst r.
  destruct (command_numbers_run c e s (reachable_paired s Hr))
    as (H1 & _ & _ & H4).
  split; [| split].
  - unfold hal_calls. rewrite <- count_length. exact H1.
  - apply hal_iface_sound.
  - intros Hi. destruct (completed (exec_command c e s)); [reflexivity |].
    rewrite (H4 eq_refl) in Hi. discriminate Hi.
Qed.

End WithHeader.

(** ** Releases come after the HAL call *)

Lemma filter_none {A} (p : A -> bool) (l : list A) :
  Forall (fun x => p x = false) l -> filter p l = [].
Proof.
  induction 1 as [| x l Hx Hl IH]; simpl; [reflexivity |].
  rewrite Hx. exact IH.
Qed.

Lemma before_hal_app (t1 t2 : list event) :
  hal_calls t1 = [] -> before_hal (t1 ++ t2) = t1 ++ before_hal t2.
Proof.
  induction t1 as [| ev t1 IH]; intros H; [reflexivity |].
  cbn in *. destruct (is_hal_call ev); [discriminate H |].
  rewrite (IH H). reflexivity.
Qed.

Section Late.
Context {R : Type}.

Lemma holds_pins_split {A} (m : M R A) :
  emits holds_pins m ->
  forall e s, hal_calls (snd (m e s)) = [] /\ releases (snd (m e s)) = [].
Proof.
  intros H e s. specialize (H e s). split; apply filter_none.
  - eapply Forall_impl; [| exact H]. intros ev [Hh _]. exact Hh.
  - eapply Forall_impl; [| exact H]. intros ev [_ Hr]. exact Hr.
Qed.

Lemma releases_late_quiet {A} (m : M R A) :
  emits not_hal m -> releases_late m.
Proof.
  intros H e s Hn. exfalso. apply Hn. apply filter_none. apply H.
Qed.

Lemma releases_late_bind {A B} (m : M R A) (k : A -> M R B) :
  emits holds_pins m -> (forall a, releases_late (k a)) ->
  releases_late (bind m k).
Proof.
  intros Hm Hk e s. unfold bind.
  destruct (holds_pins_split m Hm e s) as [Hh Hr].
  destruct (m e s) as [[[a | r | f] s1] t1]; cbn [fst snd] in *;
    try (intros Hn; exfalso; exact (Hn Hh)).
  specialize (Hk a e s1). destruct (k a e s1) as [[o2 s2] t2].
  cbn [fst snd] in *.
  unfold hal_calls in *. rewrite filter_app, Hh. cbn [app]. intros Hn.
  rewrite (before_hal_app t1 t2 Hh). unfold releases in *.
  rewrite filter_app, Hr. exact (Hk Hn).
Qed.

Lemma releases_late_hal_status {B} via fn args (k : bt_status_t -> M R B) :
  releases_late (bind (hal_status via fn args) k).
Proof.
  intros e s.
  unfold hal_status, deref, bind, get_globals, ask_status, emit, ret.
  destruct (is_null (iface_ptr (globals s) via)); cbn [fst snd app];
    [intros Hn; exfalso; apply Hn; reflexivity |].
  destruct (k _ e _) as [[o2 s2] t2]. reflexivity.
Qed.

Lemma releases_late_hal_void {B} via fn args (k : unit -> M R B) :
  releases_late (bind (hal_void via fn args) k).
Proof.
  intros e s.
  unfold hal_void, deref, bind, get_globals, foreign, emit, ret.
  destruct (is_null (iface_ptr (globals s) via)); cbn [fst snd app];
    [intros Hn; exfalso; apply Hn; reflexivity |].
  destruct (k _ e _) as [[o2 s2] t2]. reflexivity.
Qed.

Lemma releases_late_hal_bool {B} via fn args (k : bool -> M R B) :
  releases_late (bind (hal_bool via fn args) k).
Proof.
  intros e s.
  unfold hal_bool, deref, bind, get_globals, ask_ok, foreign, emit, ret.
  destruct (is_null (iface_ptr (globals s) via)); cbn [fst snd app];
    [intros Hn; exfalso; apply Hn; reflexivity |].
  destruct (k _ e _) as [[o2 s2] t2]. reflexivity.
Qed.

End Late.

Lemma releases_late_enter {A} (m : M A A) e s :
  releases_late m ->
  hal_calls (snd (enter m e s)) <> [] ->
  releases (before_hal (snd (enter m e s))) = [].
Proof.
  intros H. unfold enter, run. specialize (H e s).
  destruct (m e s) as [[[a | a | f] s1] t1]; exact H.
Qed.

Ltac late_step :=
  lazymatch goal with
  | |- releases_late (bind (hal_status _ _ _) _) =>
      apply releases_late_hal_status
  | |- releases_late (bind (hal_void _ _ _) _) =>
      apply releases_late_hal_void
  | |- releases_late (bind (hal_bool _ _ _) _) =>
      apply releases_late_hal_bool
  | |- releases_late (bind _ _) =>
      apply releases_late_bind;
      [emits_tac ltac:(split; reflexivity) | intro]
  | |- releases_late (match ?x with _ => _ end) => destruct x
  | |- releases_late (let _ := _ in _) => cbv zeta
  | |- releases_late ?m =>
      first [ apply releases_late_quiet; solve [emits_tac ltac:(reflexivity)]
            | let h := head_of m in unfold h ]
  end.

Ltac late_tac := repeat late_step.

Section WithHeader.
Context {hdr : AvrcpController.bt_rc_h}.

Lemma command_releases_late (c : command) e s :
  hal_calls (trace_of (exec_command c e s)) <> [] ->
  releases (before_hal (trace_of (exec_command c e s))) = [].
Proof.
  unfold trace_of.
  destruct c as [c | c]; cbn [exec_command].
  - destruct c; cbn [AvrcpController.exec_command];
      apply releases_late_enter; late_tac.
  - destruct c; cbn [Vendor.exec_command];
      apply releases_late_enter; late_tac.
Qed.

End WithHeader.

Section WithHeader.
Context {hdr : AvrcpController.bt_rc_h}.

Lemma command_pins_succeeded (c : command) e s :
  paired (globals s) ->
  hal_calls (trace_of (exec_command c e s)) <> [] ->
  all_ok_from e (tick s) (pins_tested c) = true.
Proof.
  intros Hp Hn.
  destruct (all_ok_from e (tick s) (pins_tested c)) eqn:Ha; [reflexivity |].
  exfalso. apply Hn.
  destruct (iface_ptr (globals s) (hal_iface c)) as [| a] eqn:Hi.
  - destruct c as [c | c]; cbn [exec_command hal_iface] in *.
    + apply (avrcp_command_null_iface c e s Hp Hi).
    + apply (vendor_command_null_iface c e s Hi).
  - assert (H : throws_on_failed_pin c e s (exec_command c e s)).
    { destruct c as [c | c]; cbn [exec_command].
      - apply avrcp_command_throws. exact Hp.
      - apply vendor_command_throws. }
    destruct H as [E Ht]. rewrite Hi, Ha in E. cbn in E.
    apply (Ht E).
Qed.

(** X4. In every state the process can be in, a command that returns
    without a HAL call makes no Release call, whatever it has pinned
    before.  A command that makes its HAL call makes it after its
    [pin_calls] pinning calls, every one of those it tests having
    succeeded; it makes no Release call before the HAL call, and after it
    one Release call per pinning call, except changeFolderPathNative, which
    makes one Release call for the two arrays it pins. *)
Theorem pinned_arrays_released (c : command) (e : env) (s : state) :
  reachable s ->
  let r := exec_command c e s in
  (hal_calls (trace_of r) = [] -> releases (trace_of r) = [])
  /\ (hal_calls (trace_of r) <> [] ->
      all_ok_from e (tick s) (pins_tested c) = true
      /\ tick (state_after r) = tick s + pin_calls c + 1
      /\ releases (before_hal (trace_of r)) = []
      /\ length (releases (trace_of r)) + unreleased c = pin_calls c).
Proof.
  intros Hr r. subst r.
  destruct (command_numbers_run c e s (reachable_paired s Hr))
    as (_ & H2 & H3 & _).
  split.
  - unfold hal_calls, releases.
    intros Hn. apply count_zero_nil. apply H2. apply count_zero_nil. exact Hn.
  - intros Hn.
    split; [exact (command_pins_succeeded c e s (reachable_paired s Hr) Hn) |].
    assert (H0 : count is_hal_call (trace_of (exec_command c e s)) <> 0).
    { intros H0. apply Hn. apply count_zero_nil. exact H0. }
    destruct (H3 H0) as [Ht Hl].
    split; [exact Ht |].
    split; [exact (command_releases_late c e s Hn) |].
    unfold releases. rewrite <- count_length. exact Hl.
Qed.

End WithHeader.


Lemma command_calls_hal_once_witness :
  reachable (hdr := aosp_bt_rc_h) connected_state
  /\ length (hal_calls (trace_of (exec_command (hdr := aosp_bt_rc_h)
       (AvrcpCommand (AvrcpController.PlayItem (raw_bytes sample_address)
                        x01 (repeat x01 8) 7))
       friendly_env connected_state))) <= 1.
Proof.
  split; [exact reachable_connected |].
  exact (proj1 (command_calls_hal_once (hdr := aosp_bt_rc_h)
                  (AvrcpCommand (AvrcpController.PlayItem
                                   (raw_bytes sample_address) x01
                                   (repeat x01 8) 7))
                  friendly_env connected_state reachable_connected)).
Defined.

Lemma pinned_arrays_released_witness :
  let c := AvrcpCommand (AvrcpController.ChangeFolderPath
                           (raw_bytes sample_address) 7 x01 (repeat x01 8)) in
  let r := exec_command (hdr := aosp_bt_rc_h) c friendly_env connected_state in
  reachable (hdr := aosp_bt_rc_h) connected_state
  /\ hal_calls (trace_of r) <> []
  /\ tick (state_after r) = tick connected_state + 2 + 1
  /\ releases (before_hal (trace_of r)) = []
  /\ length (releases (trace_of r)) + 1 = 2.
Proof.
  intros c r.
  assert (Hn : hal_calls (trace_of r) <> []) by (cbv; discriminate).
  split; [exact reachable_connected |].
  split; [exact Hn |].
  exact (proj2 (proj2 (pinned_arrays_released (hdr := aosp_bt_rc_h) c
                         friendly_env connected_state reachable_connected)
                  Hn)).
Defined.

(** ** After cleanupNative *)

Lemma avrcp_cleanup_nulls (o : ptr) e s :
  ext_ptr e (tick s) <> NULL ->
  let g := globals (snd (fst (enter (AvrcpController.cleanupNative o) e s))) in
  sBluetoothAvrcpInterface g = NULL
  /\ sBluetoothAvrcpVendorInterface g = NULL
  /\ sCallbacksObj g = NULL.
Proof.
  destruct s as [[b v c m1 m2 bv mc] t]. cbn [tick]. intros Hp.
  apply wp_enter. wp_exec; cbn in *;
    repeat match goal with
           | H : is_null ?x = true |- _ =>
               destruct x; [clear H | discriminate H]
           end;
    try (exfalso; apply Hp; reflexivity);
    repeat split; reflexivity.
Qed.

Lemma vendor_cleanup_nulls (o : ptr) e s :
  ext_ptr e (tick s) <> NULL ->
  let g := globals (snd (fst (enter (Vendor.cleanupNative o) e s))) in
  sBluetoothVendorInterface g = NULL /\ mCallbacksObj g = NULL.
Proof.
  destruct s as [[b v c m1 m2 bv mc] t]. cbn [tick]. intros Hp.
  apply wp_enter. wp_exec; cbn in *;
    repeat match goal with
           | H : is_null ?x = true |- _ =>
               destruct x; [clear H | discriminate H]
           end;
    try (exfalso; apply Hp; reflexivity);
    repeat split; reflexivity.
Qed.

Section WithHeader.
Context {hdr : AvrcpController.bt_rc_h}.

(** X5. After a cleanupNative that found the Bluetooth module loaded, every
    command of that binding returns without a HAL call and without a fault,
    and the binding holds no callback object. *)
Theorem cleanup_disables_commands (c : command) (object : ptr)
  (e1 e2 : env) (s : state) :
  ext_ptr e1 (tick s) <> NULL ->
  let s' := state_after (exec (cleanup_of c object) e1 s) in
  completed (exec_command c e2 s') = true
  /\ hal_calls (trace_of (exec_command c e2 s')) = []
  /\ match c with
     | AvrcpCommand _ => sCallbacksObj (globals s') = NULL
     | VendorCommand _ => mCallbacksObj (globals s') = NULL
     end.
Proof.
  intros Hp s'. subst s'. unfold state_after, completed, trace_of.
  destruct c as [c | c]; cbn [cleanup_of exec exec_command].
  - destruct (avrcp_cleanup_nulls object e1 s Hp) as (Hb & Hv & Hc).
    assert (Hq : paired (globals (snd (fst (enter
                   (AvrcpController.cleanupNative object) e1 s)))))
      by (unfold paired; rewrite Hb, Hv; reflexivity).
    assert (Hn : iface_ptr (globals (snd (fst (enter
                   (AvrcpController.cleanupNative object) e1 s))))
                   (AvrcpController.hal_iface c) = NULL)
      by (destruct c; cbn [AvrcpController.hal_iface iface_ptr]; assumption).
    destruct (avrcp_command_null_iface c e2 _ Hq Hn) as [H1 H2].
    split; [exact H1 | split; [exact H2 | exact Hc]].
  - destruct (vendor_cleanup_nulls object e1 s Hp) as (Hb & Hc).
    destruct (vendor_command_null_iface c e2 _ Hb) as [H1 H2].
    split; [exact H1 | split; [exact H2 | exact Hc]].
Qed.

End WithHeader.

Lemma cleanup_disables_commands_witness :
  ext_ptr friendly_env (tick connected_state) <> NULL
  /\ hal_calls (trace_of (exec_command (hdr := aosp_bt_rc_h)
       (AvrcpCommand (AvrcpController.GetPlaybackState
                        (raw_bytes sample_address)))
       friendly_env
       (state_after (exec (hdr := aosp_bt_rc_h) (AvrcpCleanup (Ptr 1))
                       friendly_env connected_state)))) = [].
Proof.
  assert (H : ext_ptr friendly_env (tick connected_state) <> NULL)
    by (cbv; discriminate).
  split; [exact H |].
  exact (proj1 (proj2 (cleanup_disables_commands (hdr := aosp_bt_rc_h)
                         (AvrcpCommand (AvrcpController.GetPlaybackState
                                          (raw_bytes sample_address)))
                         (Ptr 1) friendly_env friendly_env connected_state
                         H))).
Defined.

(** ** initNative and cleanupNative without the Bluetooth module *)

Section WithHeader.
Context {hdr : AvrcpController.bt_rc_h}.

(** X6. When getBluetoothInterface yields NULL, initNative and
    cleanupNative of either binding log that the module is not loaded and
    return: no HAL call is made, and the interface pointers and callback
    object references stay as they were. *)
Theorem module_not_loaded (op : operation) (k : nat) (e : env) (s : state) :
  module_query op s = Some k ->
  ext_ptr e k = NULL ->
  let r := exec op e s in
  completed r = true
  /\ hal_calls (trace_of r) = []
  /\ error_logs (trace_of r) = [Log LogE "Bluetooth module is not loaded"]
  /\ references (globals (state_after r)) = references (globals s).
Proof.
  destruct s as [[b v c m1 m2 bv mc] t].
  unfold completed, trace_of, state_after, references.
  destruct op; try discriminate; cbn [module_query tick exec];
    intros Hk; injection Hk as <-; intros Hp;
    rewrite ?Nat.add_succ_r, ?Nat.add_0_r in Hp;
    apply wp_enter;
    wp_exec_with
      ltac:(idtac;
            lazymatch goal with
            | |- context [ext_ptr e _] => rewrite Hp; wp_simpl
            end);
    repeat split; reflexivity.
Qed.

End WithHeader.

Lemma module_not_loaded_witness :
  let e := mkEnv (fun _ => true) (fun _ => NULL) (fun _ => BT_STATUS_SUCCESS)
             (fun _ _ => x00) in
  module_query (AvrcpInit (Ptr 1)) connected_state = Some 14
  /\ ext_ptr e 14 = NULL
  /\ references (globals (state_after (exec (hdr := aosp_bt_rc_h)
                                         (AvrcpInit (Ptr 1)) e
                                         connected_state)))
     = references (globals connected_state).
Proof.
  intros e. split; [reflexivity |]. split; [reflexivity |].
  apply (module_not_loaded (hdr := aosp_bt_rc_h) (AvrcpInit (Ptr 1)) 14 e
           connected_state); reflexivity.
Defined.

(** ** The commands of the vendor binding *)

(** X7. bredrcleanupNative and setWifiStateNative return JNI_TRUE exactly
    when sBluetoothVendorInterface is non-NULL, and then have made their one
    HAL call (setWifiStateNative with the status it was given);
    getProfileInfoNative returns what get_profile_info returned, and
    JNI_FALSE without a HAL call when the interface is NULL. *)
Theorem vendor_command_results (status : jboolean)
  (profile_id profile_info : Z) (e : env) (s : state) :
  let up := negb (is_null (sBluetoothVendorInterface (globals s))) in
  let r1 := run Vendor.bredrcleanupNative e s in
  let r2 := run (Vendor.setWifiStateNative status) e s in
  let r3 := run (Vendor.getProfileInfoNative profile_id profile_info) e s in
  (fst (fst r1) = Some up
   /\ hal_calls (snd r1)
      = if up then [HalCall BtVendor "bredrcleanup" [] RVoid] else [])
  /\ (fst (fst r2) = Some up
      /\ hal_calls (snd r2)
         = if up then [HalCall BtVendor "set_wifi_state" [ABool status] RVoid]
           else [])
  /\ (fst (fst r3) = Some (up && ext_ok e (tick s))
      /\ hal_calls (snd r3)
         = if up
           then [HalCall BtVendor "get_profile_info"
                   [AInt profile_id; AInt profile_info]
                   (RBool (ext_ok e (tick s)))]
           else []).
Proof.
  intros up r1 r2 r3. subst up r1 r2 r3.
  destruct s as [[b v c m1 m2 bv mc] t].
  cbn [globals tick sBluetoothVendorInterface].
  split; [| split]; apply wp_run; wp_exec;
    repeat match goal with
           | H : is_null _ = _ |- _ => rewrite H
           end;
    split; reflexivity.
Qed.

(** ** Who calls whom *)

Section WithHeader.
Context {hdr : AvrcpController.bt_rc_h}.

(** X8. A callback makes no HAL call and throws no IOException; every
    other operation (command, classInitNative, initNative, cleanupNative)
    makes no Java call. *)
Theorem calls_go_one_way (op : operation) (e : env) (s : state) :
  let t := trace_of (exec op e s) in
  if is_callback op
  then hal_calls t = []
       /\ ~ In (Throw "java/io/IOException EINVAL") t
  else java_calls t = [].
Proof.
  intros t. subst t. unfold trace_of.
  destruct op as [| | o | o | o | o | [c | c] | cb | cb];
    cbn [is_callback exec exec_command].
  - apply filter_none, emits_enter. emits_tac ltac:(reflexivity).
  - apply filter_none, emits_enter. emits_tac ltac:(reflexivity).
  - apply filter_none, emits_enter. emits_tac ltac:(reflexivity).
  - apply filter_none, emits_enter. emits_tac ltac:(reflexivity).
  - apply filter_none, emits_enter. emits_tac ltac:(reflexivity).
  - apply filter_none, emits_enter. emits_tac ltac:(reflexivity).
  - apply filter_none. destruct c; simpl; apply emits_enter;
      emits_tac ltac:(reflexivity).
  - apply filter_none. destruct c; simpl; apply emits_enter;
      emits_tac ltac:(reflexivity).
  - split.
    + apply filter_none. destruct cb; simpl; apply emits_enter;
        emits_tac ltac:(reflexivity).
    + intros Hin.
      assert (H : Forall (fun ev => ev <> Throw "java/io/IOException EINVAL")
                    (snd (AvrcpController.exec_callback cb e s)))
        by (destruct cb; simpl; apply emits_enter;
            emits_tac ltac:(discriminate)).
      rewrite Forall_forall in H. exact (H _ Hin eq_refl).
  - split.
    + apply filter_none. destruct cb; simpl; apply emits_enter;
        emits_tac ltac:(reflexivity).
    + intros Hin.
      assert (H : Forall (fun ev => ev <> Throw "java/io/IOException EINVAL")
                    (snd (Vendor.exec_callback cb e s)))
        by (destruct cb; simpl; apply emits_enter;
            emits_tac ltac:(discriminate)).
      rewrite Forall_forall in H. exact (H _ Hin eq_refl).
Qed.

End WithHeader.

(** ** A callback without a callback environment *)

Lemma skips_entry (ev : event) (rest : M unit unit) :
  is_java_call ev = false ->
  skips (emit ev ;; AvrcpController.callback_entry ;; rest).
Proof.
  intros Hj e s Hv.
  unfold bind, emit, AvrcpController.callback_entry, CallbackEnv_valid,
    ask_ok, foreign, bind, when, ret, return_.
  cbn. rewrite Hv. cbn. unfold java_calls. cbn. rewrite Hj.
  repeat split; reflexivity.
Qed.

Lemma skips_entry_vendor (ev : event) (rest : M unit unit) :
  is_java_call ev = false ->
  skips (emit ev ;;
         valid <- CallbackEnv_valid ;;
         when (negb valid) (return_ tt) ;;
         rest).
Proof.
  intros Hj e s Hv.
  unfold bind, emit, CallbackEnv_valid, ask_ok, foreign, bind, when, ret,
    return_.
  cbn. rewrite Hv. cbn. unfold java_calls. cbn. rewrite Hj.
  repeat split; reflexivity.
Qed.

Lemma skips_call (ev : event) (m : M unit unit) :
  is_java_call ev = false ->
  skips m -> skips (emit ev ;; call m).
Proof.
  intros Hj H e s Hv. destruct (H e s Hv) as (H1 & H2 & H4).
  unfold bind, emit, call. cbn.
  destruct (m e s) as [[[[] | [] | f] s1] t1]; cbn in *;
    try discriminate H1;
    unfold java_calls in *; cbn; rewrite Hj;
    repeat split; assumption.
Qed.

Lemma skips_enter (m : M unit unit) e s :
  skips m ->
  ext_ok e (tick s) = false ->
  completed (enter m e s) = true
  /\ java_calls (trace_of (enter m e s)) = []
  /\ state_after (enter m e s) = mkState (globals s) (S (tick s)).
Proof.
  intros H Hv. destruct (H e s Hv) as (H1 & H2 & H4).
  unfold completed, trace_of, state_after, enter, run.
  destruct (m e s) as [[[a | a | f] s1] t1]; cbn in *;
    try discriminate H1; repeat split; assumption.
Qed.

Ltac skips_tac :=
  first [ apply skips_entry; reflexivity
        | apply skips_entry_vendor; reflexivity
        | apply skips_call; [reflexivity |];
          unfold AvrcpController.btavrcp_attr_rsp_callback;
          apply skips_entry; reflexivity ].

Section WithHeader.
Context {hdr : AvrcpController.bt_rc_h}.

(** X9. A callback that finds no valid callback environment returns at
    once: it makes no Java call, reads none of its native arguments (so it
    cannot fault on them) and makes no further binding call. *)
Theorem callback_without_environment (op : operation) (e : env) (s : state) :
  is_callback op = true ->
  ext_ok e (tick s) = false ->
  let r := exec op e s in
  completed r = true
  /\ java_calls (trace_of r) = []
  /\ state_after r = mkState (globals s) (S (tick s)).
Proof.
  intros Hc Hv r. subst r.
  destruct op as [| | o | o | o | o | c | cb | cb]; try discriminate Hc;
    cbn [exec].
  - destruct cb; cbn [AvrcpController.exec_callback];
      apply skips_enter; try exact Hv;
      match goal with |- skips ?m => let h := head_of m in unfold h end;
      skips_tac.
  - destruct cb; cbn [Vendor.exec_callback];
      apply skips_enter; try exact Hv;
      match goal with |- skips ?m => let h := head_of m in unfold h end;
      skips_tac.
Qed.

End WithHeader.

Lemma callback_without_environment_witness :
  let op := AvrcpCallback (AvrcpController.TrackChanged None x02 []) in
  is_callback op = true
  /\ ext_ok (failing_at 10) (tick connected_state) = false
  /\ completed (exec (hdr := aosp_bt_rc_h) op (failing_at 10) connected_state)
     = true.
Proof.
  intros op. split; [reflexivity |]. split; [reflexivity |].
  exact (proj1 (callback_without_environment (hdr := aosp_bt_rc_h) op
                  (failing_at 10) connected_state eq_refl eq_refl)).
Defined.

(** ** setPlayerApplicationSettingValuesNative *)

Section CopyLoop.
Variables (a v : list byte) (n : nat).

Let copy_body (i : nat) (st : list byte * list byte)
  : M unit (list byte * list byte) :=
  x <- index_pinned "attrib_ids" a i ;;
  y <- index_pinned "attrib_val" v i ;;
  ret (set_region (fst st) i [x], set_region (snd st) i [y]).

Lemma copy_loop fuel : forall i pa pv e s,
  i + fuel = n -> length pa = i -> length pv = i ->
  for_loop fuel i (fun i _ => (i <? n) && true) copy_body
    (pa ++ repeat x00 fuel, pv ++ repeat x00 fuel) e s
  = (Val (pa ++ map (peek e "attrib_ids" a) (seq i fuel),
          pv ++ map (peek e "attrib_val" v) (seq i fuel)), s, []).
Proof.
  induction fuel as [| fuel IH]; intros i pa pv e s Hn Hpa Hpv.
  - reflexivity.
  - cbn [for_loop].
    replace (i <? n) with true by (symmetry; apply Nat.ltb_lt; lia).
    cbn [andb]. unfold copy_body at 1. cbn [fst snd].
    erewrite bind_pure.
    2:{ erewrite bind_pure by reflexivity.
        erewrite bind_pure by reflexivity.
        rewrite (set_region_prefix x00 pa [peek e "attrib_ids" a i] i (S fuel))
          by (cbn; lia).
        rewrite (set_region_prefix x00 pv [peek e "attrib_val" v i] i (S fuel))
          by (cbn; lia).
        reflexivity. }
    cbn [length Nat.sub]. rewrite Nat.sub_0_r.
    rewrite (IH (S i) (pa ++ [peek e "attrib_ids" a i])
               (pv ++ [peek e "attrib_val" v i]) e s)
      by (rewrite ?length_app; cbn [length]; lia).
    cbn [seq map]. rewrite <- !app_assoc. reflexivity.
Qed.

End CopyLoop.

Lemma pinned_bytes_in_range (e : env) (name : string) (p : list byte)
  (n : nat) :
  n <= length p -> pinned_bytes e name p n = firstn n p.
Proof.
  unfold pinned_bytes. revert p.
  assert (H : forall k p, k + n <= length p ->
                map (peek e name p) (seq k n) = firstn n (skipn k p)).
  { induction n as [| n IH]; intros k p Hk; [reflexivity |].
    cbn [seq map]. rewrite (IH (S k) p) by lia.
    unfold peek.
    destruct (nth_error p k) as [x |] eqn:Hx.
    - destruct (skipn k p) as [| y rest] eqn:Hs.
      + apply (f_equal (@length byte)) in Hs. rewrite length_skipn in Hs.
        cbn in Hs. lia.
      + pose proof (skipn_cons_nth_error _ _ _ _ Hs) as [Hy Hr].
        rewrite Hr. cbn [firstn]. congruence.
    - apply nth_error_None in Hx. lia. }
  intros p Hp. exact (H 0 p Hp).
Qed.

Lemma set_player_app_setting_run (address attrib_ids attrib_val : list byte)
  (num_attrib : byte) (e : env) (s : state) :
  sBluetoothAvrcpInterface (globals s) <> NULL ->
  ext_ok e (tick s) = true ->
  ext_ok e (S (tick s)) = true ->
  ext_ok e (S (S (tick s))) = true ->
  let n := u8 num_attrib in
  let nonneg := (0 <=? jbyte_val num_attrib)%Z in
  let r := enter (AvrcpController.setPlayerApplicationSettingValuesNative
                    address num_attrib attrib_ids attrib_val) e s in
  completed r = nonneg
  /\ hal_calls (trace_of r)
     = (if nonneg
        then [HalCall AvrcpCtrl "set_player_app_setting_cmd"
                [AAddr address; AByte num_attrib;
                 ABytes (Some (pinned_bytes e "attrib_ids" attrib_ids n));
                 ABytes (Some (pinned_bytes e "attrib_val" attrib_val n))]
                (RStatus (ext_status e (S (S (S (tick s))))))]
        else []).
Proof.
  intros Hb H0 H1 H2 n nonneg r. subst nonneg r.
  destruct s as [[b v c m1 m2 bv mc] t].
  cbn [globals tick sBluetoothAvrcpInterface] in *.
  unfold completed, trace_of.
  destruct b as [| b]; [exfalso; apply Hb; reflexivity |].
  replace (0 <=? jbyte_val num_attrib)%Z
    with (negb (jbyte_val num_attrib <? 0)%Z)
    by (rewrite Z.ltb_antisym, negb_involutive; reflexivity).
  apply wp_enter.
  wp_exec_with
    ltac:(idtac;
          lazymatch goal with
          | |- context [ext_ok e _] => rewrite ?H0, ?H1, ?H2; wp_simpl
          | |- wp (for_upto _ _ _ _) _ _ _ =>
              unfold for_upto;
              eapply wp_of_eq;
              [ apply (copy_loop attrib_ids attrib_val n n 0 [] []);
                reflexivity
              | cbn [app]; wp_simpl ]
          end);
    split; reflexivity.
Qed.

(** X10. setPlayerApplicationSettingValuesNative, with a non-NULL interface,
    its three arrays pinned and a count that is not negative, calls
    set_player_app_setting_cmd with the address, num_attrib and the
    num_attrib bytes it reads at the pinned elements of attrib_ids and of
    attrib_val, and returns.  It does not compare num_attrib with the
    lengths of the arrays: the bytes are the first num_attrib elements of
    an array that has as many, and past the end of a shorter one what the
    memory holds there.  With a negative count it stops at the allocation,
    before any HAL call. *)
Theorem set_player_app_setting_values (address attrib_ids attrib_val : list byte)
  (num_attrib : byte) (e : env) (s : state) :
  sBluetoothAvrcpInterface (globals s) <> NULL ->
  ext_ok e (tick s) = true ->
  ext_ok e (S (tick s)) = true ->
  ext_ok e (S (S (tick s))) = true ->
  let n := u8 num_attrib in
  let nonneg := (0 <=? jbyte_val num_attrib)%Z in
  let r := enter (AvrcpController.setPlayerApplicationSettingValuesNative
                    address num_attrib attrib_ids attrib_val) e s in
  completed r = nonneg
  /\ hal_calls (trace_of r)
     = (if nonneg
        then [HalCall AvrcpCtrl "set_player_app_setting_cmd"
                [AAddr address; AByte num_attrib;
                 ABytes (Some (pinned_bytes e "attrib_ids" attrib_ids n));
                 ABytes (Some (pinned_bytes e "attrib_val" attrib_val n))]
                (RStatus (ext_status e (S (S (S (tick s))))))]
        else [])
  /\ (n <= length attrib_ids ->
      pinned_bytes e "attrib_ids" attrib_ids n = firstn n attrib_ids)
  /\ (n <= length attrib_val ->
      pinned_bytes e "attrib_val" attrib_val n = firstn n attrib_val)
  /\ length (pinned_bytes e "attrib_ids" attrib_ids n) = n
  /\ length (pinned_bytes e "attrib_val" attrib_val n) = n.
Proof.
  intros Hb H0 H1 H2 n nonneg r.
  destruct (set_player_app_setting_run address attrib_ids attrib_val
              num_attrib e s Hb H0 H1 H2) as [Hc Hh].
  split; [exact Hc |]. split; [exact Hh |].
  split; [apply pinned_bytes_in_range |].
  split; [apply pinned_bytes_in_range |].
  unfold pinned_bytes. rewrite !length_map, !length_seq.
  split; reflexivity.
Qed.

Lemma set_player_app_setting_values_witness :
  let r := enter (AvrcpController.setPlayerApplicationSettingValuesNative
                    (raw_bytes sample_address) x03 [x01; x02]
                    [x0a; x0b; x0c]) friendly_env connected_state in
  sBluetoothAvrcpInterface (globals connected_state) <> NULL
  /\ completed r = true
  /\ hal_calls (trace_of r)
     = [HalCall AvrcpCtrl "set_player_app_setting_cmd"
          [AAddr (raw_bytes sample_address); AByte x03;
           ABytes (Some [x01; x02; x00]); ABytes (Some [x0a; x0b; x0c])]
          (RStatus BT_STATUS_SUCCESS)].
Proof.
  intros r.
  assert (H : sBluetoothAvrcpInterface (globals connected_state) <> NULL)
    by (cbv; discriminate).
  pose proof (set_player_app_setting_values (raw_bytes sample_address)
                [x01; x02] [x0a; x0b; x0c] x03 friendly_env
                connected_state H eq_refl eq_refl eq_refl) as Hx.
  split; [exact H |].
  split; [exact (proj1 Hx) | exact (proj1 (proj2 Hx))].
Defined.

(** ** The attribute ids of a command *)

Section WithHeader.
Context {hdr : AvrcpController.bt_rc_h}.

(** X11. getItemElementAttributesNative, getElementAttributesNative,
    getFolderItemsNative and getItemAttributesNative with a count that is
    not above BTRC_MAX_ELEM_ATTR_SIZE, a non-NULL interface and every array
    pinned make one HAL call.  It carries numAttr as it came and the ids of
    attrIds; when numAttr <= 0 or attrIds is null it carries a NULL id
    pointer instead.  The comparison with the bound is signed, so a
    negative numAttr passes it and reaches the HAL as a count of 128 to
    255 with a NULL id pointer. *)
Theorem attribute_ids_passed (c : AvrcpController.command) (numAttr : byte)
  (pins : nat) (e : env) (s : state) :
  num_attr_of c = Some (numAttr, pins) ->
  sBluetoothAvrcpVendorInterface (globals s) <> NULL ->
  (forall k, ext_ok e k = true) ->
  (jbyte_val numAttr <= AvrcpController.BTRC_MAX_ELEM_ATTR_SIZE)%Z ->
  exists fn args st,
    hal_calls (trace_of (AvrcpController.exec_command c e s))
    = [HalCall AvrcpVendorCtrl fn args st]
    /\ In (AByte numAttr) args
    /\ In (AInts (if no_ids numAttr (attr_ids_of c) then None
                  else attr_ids_of c)) args.
Proof.
  intros Hc Hv Hok Hle.
  assert (Hgt : (jbyte_val numAttr >? AvrcpController.BTRC_MAX_ELEM_ATTR_SIZE)%Z
                = false) by (rewrite Z.gtb_ltb; apply Z.ltb_ge; exact Hle).
  destruct s as [[b v cb m1 m2 bv mc] t].
  cbn [globals sBluetoothAvrcpVendorInterface] in Hv.
  destruct v as [| v]; [exfalso; apply Hv; reflexivity |].
  unfold trace_of, no_ids.
  destruct c; try discriminate Hc; cbn in Hc; injection Hc as <- <-;
    cbn [AvrcpController.exec_command attr_ids_of]; apply wp_enter;
    wp_exec_with
      ltac:(idtac;
            lazymatch goal with
            | |- context [ext_ok e _] => rewrite !Hok; wp_simpl
            | |- context [(jbyte_val numAttr >? AvrcpController.BTRC_MAX_ELEM_ATTR_SIZE)%Z] =>
                rewrite Hgt; wp_simpl
            end);
    repeat match goal with
           | H : (_ >? _)%Z = _ |- _ => rewrite H
           end;
    rewrite ?andb_false_r;
    cbn [andb negb is_some hal_calls filter is_hal_call];
    do 3 eexists; (split; [reflexivity |]); split; cbn; tauto.
Qed.

End WithHeader.

Lemma attribute_ids_passed_witness :
  let c := AvrcpController.GetElementAttributes (raw_bytes sample_address) xff
             (Some [1%Z; 2%Z]) in
  num_attr_of c = Some (xff, 1)
  /\ sBluetoothAvrcpVendorInterface (globals connected_state) <> NULL
  /\ (jbyte_val xff <= 8)%Z
  /\ exists fn args st,
       hal_calls (trace_of (AvrcpController.exec_command (hdr := aosp_bt_rc_h)
                              c friendly_env connected_state))
       = [HalCall AvrcpVendorCtrl fn args st]
       /\ In (AByte xff) args /\ In (AInts None) args.
Proof.
  intros c.
  assert (H : sBluetoothAvrcpVendorInterface (globals connected_state) <> NULL)
    by (cbv; discriminate).
  assert (Hle : (jbyte_val xff <= 8)%Z) by (cbv; discriminate).
  split; [reflexivity |]. split; [exact H |]. split; [exact Hle |].
  exact (attribute_ids_passed (hdr := aosp_bt_rc_h) c xff 1 friendly_env
           connected_state eq_refl H (fun _ => eq_refl) Hle).
Defined.

(** ** The arguments of the Java calls *)

Section Stringy.
Context {R : Type}.

Lemma yields_NewStringUTF (p : list byte) :
  yields (fun v => stringy v = true) (@NewStringUTF R p).
Proof.
  intros e s. unfold NewStringUTF, ask_ok, foreign, bind, ret. cbn.
  destruct (ext_ok e (tick s)); reflexivity.
Qed.

Lemma yields_check_nonnull_keep (Q : jvalue -> Prop) (v : jvalue)
  (onfail : M R unit) (r : R) :
  Q v -> yields Q (check_nonnull (nonnull_value v) onfail r).
Proof.
  intros Hv e s. destruct v; try exact Hv.
  cbn [nonnull_value check_nonnull]. unfold bind.
  destruct (onfail e s) as [[[a | r' | f] s1] t1]; exact I.
Qed.

Lemma yields_call {A} (Q : A -> Prop) (m : M A A) :
  gives Q m -> yields Q (@call R A m).
Proof.
  intros H e s. specialize (H e s). unfold call.
  destruct (m e s) as [[[a | a | f] s1] t1]; cbn in *; auto.
Qed.

End Stringy.

Lemma gives_index_bind {A B} (Q : B -> Prop) (p : list A) (i : nat)
  (k : A -> M B B) :
  (forall a, gives Q (k a)) -> gives Q (bind (index p i) k).
Proof.
  intros Hk e s. unfold index, bind.
  destruct (nth_error p i) as [a |]; cbn; [| exact I].
  specialize (Hk a e s). destruct (k a e s) as [[o s1] t1]. exact Hk.
Qed.

Lemma gives_NewStringUTF (p : list byte) :
  gives (fun v => stringy v = true) (NewStringUTF p).
Proof.
  intros e s. unfold NewStringUTF, ask_ok, foreign, bind, ret. cbn.
  destruct (ext_ok e (tick s)); reflexivity.
Qed.

Lemma gives_create_link_key_string (link_key : list byte) :
  gives (fun v => stringy v = true) (Vendor.create_link_key_string link_key).
Proof.
  unfold Vendor.create_link_key_string.
  repeat (apply gives_index_bind; intro).
  cbv zeta. apply gives_NewStringUTF.
Qed.

Ltac fits_tac :=
  idtac;
  repeat match goal with
         | H : stringy ?v = true |- _ =>
             destruct v; try discriminate H; clear H
         end;
  reflexivity.

Ltac typed_step :=
  lazymatch goal with
  | |- emits _ (bind (NewStringUTF _) _) =>
      eapply emits_bind_yields;
      [apply yields_NewStringUTF | | cbv beta; intros ? ?]
  | |- emits _ (bind (call (Vendor.create_link_key_string _)) _) =>
      eapply emits_bind_yields;
      [ apply yields_call, gives_create_link_key_string
      | | cbv beta; intros ? ?]
  | H : stringy ?v = true
    |- emits _ (bind (check_nonnull (nonnull_value ?v) _ _) _) =>
      eapply emits_bind_yields;
      [ apply (yields_check_nonnull_keep (fun x => stringy x = true) v); exact H
      | | cbv beta; intros ? ?]
  | _ => emits_step fits_tac
  end.

Ltac typed_tac := repeat typed_step.

Section WithHeader.
Context {hdr : AvrcpController.bt_rc_h}.

(** X12. Every Java call that an operation of the two bindings makes
    passes exactly as many arguments as the descriptor of the called method
    declares, an integer for each integral parameter, a byte array, an int
    array, a string or an object array (or a null reference) for each
    parameter of that type. *)
Theorem java_calls_fit_descriptors (op : operation) (e : env) (s : state) :
  Forall (fun ev => call_fits ev = true) (trace_of (exec op e s)).
Proof.
  unfold trace_of.
  destruct op as [| | o | o | o | o | [c | c] | cb | cb];
    cbn [exec exec_command].
  - apply emits_enter; typed_tac.
  - apply emits_enter; typed_tac.
  - apply emits_enter; typed_tac.
  - apply emits_enter; typed_tac.
  - apply emits_enter; typed_tac.
  - apply emits_enter; typed_tac.
  - destruct c; simpl; apply emits_enter; typed_tac.
  - destruct c; simpl; apply emits_enter; typed_tac.
  - destruct cb; simpl; apply emits_enter; typed_tac.
  - destruct cb; simpl; apply emits_enter; typed_tac.
Qed.

End WithHeader.

(** ** The native method tables *)

Lemma NoDup_by_nodup (l : list string) :
  nodup string_dec l = l -> NoDup l.
Proof. intros H. rewrite <- H. apply NoDup_nodup. Qed.

(** X13. Both sMethods tables register every native function of their file
    once, under pairwise distinct Java names, with a descriptor whose
    parameters are the parameters of the function.  The descriptors of the
    AVRCP table name the result types of the functions too; in the vendor
    table bredrcleanupNative and setWifiStateNative are registered as
    returning void while the functions return a bool. *)
Theorem native_method_tables :
  (NoDup (map NativeMethod.name AvrcpControllerTable.sMethods)
   /\ (forall f, In f (map NativeMethod.fnPtr AvrcpControllerTable.sMethods))
   /\ NoDup (map NativeMethod.fnPtr AvrcpControllerTable.sMethods)
   /\ forallb (parameters_agree AvrcpControllerTable.prototype)
        AvrcpControllerTable.sMethods = true
   /\ forallb (result_agrees AvrcpControllerTable.prototype)
        AvrcpControllerTable.sMethods = true)
  /\ (NoDup (map NativeMethod.name VendorTable.sMethods)
      /\ (forall f, In f (map NativeMethod.fnPtr VendorTable.sMethods))
      /\ NoDup (map NativeMethod.fnPtr VendorTable.sMethods)
      /\ forallb (parameters_agree VendorTable.prototype)
           VendorTable.sMethods = true
      /\ map NativeMethod.name (filter (fun m => negb (result_agrees VendorTable.prototype m))
                     VendorTable.sMethods)
         = ["bredrcleanupNative"; "setWifiStateNative"]).
Proof.
  split.
  - split; [apply NoDup_by_nodup; reflexivity |].
    split; [intros f; destruct f; cbn; tauto |].
    split; [| split; reflexivity].
    cbn. repeat (constructor; [cbn; intuition discriminate |]). constructor.
  - split; [apply NoDup_by_nodup; reflexivity |].
    split; [intros f; destruct f; cbn; tauto |].
    split; [| split; reflexivity].
    cbn. repeat (constructor; [cbn; intuition discriminate |]). constructor.
Qed.

(** ** Reading a link-key string back *)

Lemma hex_decode_of_byte (b : byte) (r : list ascii) :
  hex_decode (hex_of_byte b ++ r) = b :: hex_decode r.
Proof. destruct b; reflexivity. Qed.

Lemma hex_decode_encode (l : list byte) : hex_decode (hex_encode l) = l.
Proof.
  induction l as [| b l IH]; [reflexivity |].
  change (hex_encode (b :: l)) with (hex_of_byte b ++ hex_encode l).
  rewrite hex_decode_of_byte, IH. reflexivity.
Qed.

Lemma ascii_of_ascii_bytes (l : list ascii) :
  map ascii_of_byte (Vendor.ascii_bytes l) = l.
Proof.
  unfold Vendor.ascii_bytes. rewrite map_map.
  rewrite <- (map_id l) at 2. apply map_ext.
  intro c. apply ascii_of_byte_of_ascii.
Qed.

(** X14. For a link key of 16 bytes, the string that create_link_key_string
    builds (when NewStringUTF succeeds) spells the key: reading its 32
    hexadecimal digits back gives the 16 bytes, so two link keys with the
    same string are the same key. *)
Theorem link_key_string_decodes (link_key : list byte) (e : env) (s : state) :
  length link_key = 16 ->
  ext_ok e (tick s) = true ->
  (exists str,
     fst (fst (run (Vendor.create_link_key_string link_key) e s))
     = Some (JString str)
     /\ hex_decode (map ascii_of_byte str) = link_key)
  /\ forall other,
       length other = 16 ->
       fst (fst (run (Vendor.create_link_key_string other) e s))
       = fst (fst (run (Vendor.create_link_key_string link_key) e s)) ->
       other = link_key.
Proof.
  intros Hl Hok.
  assert (Hrun : forall k, length k = 16 ->
            fst (fst (run (Vendor.create_link_key_string k) e s))
            = Some (JString (Vendor.ascii_bytes (hex_encode k)))).
  { intros k Hk. unfold run.
    rewrite (run_create_link_key_string k e s Hk), Hok. reflexivity. }
  split.
  - exists (Vendor.ascii_bytes (hex_encode link_key)).
    split; [apply Hrun; exact Hl |].
    rewrite ascii_of_ascii_bytes. apply hex_decode_encode.
  - intros other Ho Heq. rewrite (Hrun other Ho), (Hrun link_key Hl) in Heq.
    injection Heq as Heq.
    rewrite <- (hex_decode_encode other), <- (hex_decode_encode link_key).
    rewrite <- (ascii_of_ascii_bytes (hex_encode other)), Heq.
    rewrite ascii_of_ascii_bytes. reflexivity.
Qed.

Lemma link_key_string_decodes_witness :
  length sample_link_key = 16
  /\ ext_ok friendly_env (tick initial_state) = true
  /\ exists str,
       fst (fst (run (Vendor.create_link_key_string sample_link_key)
                   friendly_env initial_state)) = Some (JString str)
       /\ hex_decode (map ascii_of_byte str) = sample_link_key.
Proof.
  split; [reflexivity |]. split; [reflexivity |].
  exact (proj1 (link_key_string_decodes sample_link_key friendly_env
                  initial_state eq_refl eq_refl)).
Defined.

(** ** The address argument of the callbacks *)

Ltac null_address_close e :=
  split; [reflexivity |];
  split;
  [ intros Hok Ht; try discriminate Ht; try reflexivity;
    repeat match goal with
           | H : ext_ok e _ = false |- _ => rewrite Hok in H; discriminate H
           end
  | intros Ht; try discriminate Ht; reflexivity ].

Section WithHeader.
Context {hdr : AvrcpController.bt_rc_h}.

(** X15. A callback that copies bd_addr into a Java array makes no Java
    call when bd_addr is null.  Only get_link_key_callback tests the
    pointer (it logs and returns); the others read through it once the
    array is allocated, which is a fault. *)
Theorem callback_on_null_address (op : operation) (e : env) (s : state) :
  marshalled_address op = Some None ->
  let r := exec op e s in
  java_calls (trace_of r) = []
  /\ ((forall k, ext_ok e k = true) ->
      tests_address op = false -> completed r = false)
  /\ (tests_address op = true -> completed r = true).
Proof.
  intros Hm r. subst r. unfold trace_of, completed.
  destruct op as [| | o | o | o | o | c | cb | cb]; try discriminate Hm;
    cbn [exec tests_address].
  - destruct cb; try discriminate Hm; cbn in Hm; injection Hm as ->;
      cbn [AvrcpController.exec_callback]; apply wp_enter; wp_exec;
      null_address_close e.
  - destruct cb; try discriminate Hm; cbn in Hm; injection Hm as ->;
      cbn [Vendor.exec_callback]; apply wp_enter; wp_exec;
      null_address_close e.
Qed.

End WithHeader.

Lemma callback_on_null_address_witness :
  let op := AvrcpCallback (AvrcpController.PlayStatusChanged None x01) in
  marshalled_address op = Some None
  /\ (forall k, ext_ok friendly_env k = true)
  /\ tests_address op = false
  /\ completed (exec (hdr := aosp_bt_rc_h) op friendly_env connected_state)
     = false.
Proof.
  intros op. split; [reflexivity |]. split; [intro; reflexivity |].
  split; [reflexivity |].
  exact (proj1 (proj2 (callback_on_null_address (hdr := aosp_bt_rc_h) op
                         friendly_env connected_state eq_refl))
           (fun _ => eq_refl) eq_refl).
Defined.

(** ** The device address, in both directions *)

Section Tracking.
Context {R : Type}.

Lemma emits_bind_ret {A B} (P : event -> Prop) (a : A) (k : A -> M R B) :
  emits P (k a) -> emits P (bind (ret a) k).
Proof. intros H e s. rewrite bind_ret. apply H. Qed.

Lemma yields_NewByteArray (n : nat) :
  yields (fun o => o = None \/ o = Some (repeat x00 n)) (@NewByteArray R n).
Proof.
  intros e s. unfold NewByteArray, ask_ok, foreign, bind, ret. cbn.
  destruct (ext_ok e (tick s)); auto.
Qed.

Lemma yields_GetByteArrayElements (arr : list byte) :
  yields (fun o => o = None \/ o = Some arr) (@GetByteArrayElements R arr).
Proof.
  intros e s. unfold GetByteArrayElements, ask_ok, foreign, bind, ret. cbn.
  destruct (ext_ok e (tick s)); auto.
Qed.

Lemma yields_check_nonnull_some {A} (x : option A) (onfail : M R unit)
  (r : R) :
  yields (fun a => x = Some a) (check_nonnull x onfail r).
Proof.
  intros e s. destruct x as [a |]; [reflexivity |].
  cbn [check_nonnull]. unfold bind.
  destruct (onfail e s) as [[[a | r' | f] s1] t1]; exact I.
Qed.

End Tracking.

(** The steps that carry an address: the array is allocated or pinned,
    tested, and filled. *)
Ltac address_step tac :=
  lazymatch goal with
  | |- emits _ (bind (NewByteArray _) _) =>
      eapply emits_bind_yields;
      [apply yields_NewByteArray | | cbv beta; intros ? ?]
  | |- emits _ (bind (GetByteArrayElements _) _) =>
      eapply emits_bind_yields;
      [apply yields_GetByteArrayElements | | cbv beta; intros ? ?]
  | H : ?x = None \/ ?x = Some _
    |- emits _ (bind (check_nonnull ?x _ _) _) =>
      let Ha := fresh "Ha" in
      eapply emits_bind_yields;
      [ apply yields_check_nonnull_some
      |
      | cbv beta; intros ? Ha; destruct H as [H | H]; rewrite H in Ha;
        [discriminate Ha | injection Ha as <-] ]
  | |- emits _ (bind (address_bytes (Some _)) _) =>
      cbn [address_bytes]; apply emits_bind_ret; cbv beta
  | |- emits ?P (bind (SetByteArrayRegion ?arr 0 sizeof_RawAddress
                         (raw_bytes ?a)) ?k) =>
      change (emits P (bind (ret (raw_bytes a)) k));
      apply emits_bind_ret; cbv beta
  | _ => emits_step tac
  end.

Ltac address_tac tac := repeat (address_step tac).

Ltac carries :=
  idtac;
  first [ exact I
        | reflexivity
        | cbn [java_call_from In]; tauto ].

Section WithHeader.
Context {hdr : AvrcpController.bt_rc_h}.

Lemma avrcp_command_address (c : AvrcpController.command) a e s :
  command_address (AvrcpCommand c) = Some a ->
  Forall (hal_call_to a) (snd (AvrcpController.exec_command c e s)).
Proof.
  intros Ha.
  destruct c; cbn in Ha; injection Ha as <-;
    cbn [AvrcpController.exec_command]; apply emits_enter;
    address_tac carries.
Qed.

Lemma vendor_command_address (c : Vendor.command) a e s :
  command_address (VendorCommand c) = Some a ->
  Forall (hal_call_to a) (snd (Vendor.exec_command c e s)).
Proof.
  intros Ha.
  destruct c; try discriminate Ha; cbn in Ha; injection Ha as <-;
    cbn [Vendor.exec_command]; apply emits_enter;
    address_tac carries.
Qed.

(** X16. Every HAL call that a command makes has the address array the
    command was given as its first argument, as it is: the binding does
    not look at its length or its contents. *)
Theorem command_address_passed (c : command) (a : list byte)
  (e : env) (s : state) :
  command_address c = Some a ->
  Forall (hal_call_to a) (trace_of (exec_command c e s)).
Proof.
  intros Ha. unfold trace_of. destruct c as [c | c]; cbn [exec_command].
  - apply avrcp_command_address. exact Ha.
  - apply vendor_command_address. exact Ha.
Qed.

(** X17. Every Java call of a callback that marshals bd_addr has the six
    bytes of the address, in order, as a byte array among its arguments. *)
Theorem callback_address_delivered (op : operation) (a : RawAddress)
  (e : env) (s : state) :
  marshalled_address op = Some (Some a) ->
  Forall (java_call_from a) (trace_of (exec op e s)).
Proof.
  intros Hm. unfold trace_of.
  destruct op as [| | o | o | o | o | c | cb | cb]; try discriminate Hm;
    cbn [exec].
  - destruct cb; try discriminate Hm; cbn in Hm; injection Hm as ->;
      cbn [AvrcpController.exec_callback]; apply emits_enter;
      address_tac carries.
  - destruct cb; try discriminate Hm; cbn in Hm; injection Hm as ->;
      cbn [Vendor.exec_callback]; apply emits_enter;
      address_tac carries.
Qed.

End WithHeader.

Lemma command_address_passed_witness :
  let c := AvrcpCommand (AvrcpController.Disconnect (raw_bytes sample_address)) in
  command_address c = Some (raw_bytes sample_address)
  /\ Forall (hal_call_to (raw_bytes sample_address))
       (trace_of (exec_command (hdr := aosp_bt_rc_h) c friendly_env
                    connected_state)).
Proof.
  intros c. split; [reflexivity |].
  exact (command_address_passed (hdr := aosp_bt_rc_h) c
           (raw_bytes sample_address) friendly_env connected_state eq_refl).
Defined.

Lemma callback_address_delivered_witness :
  let op := AvrcpCallback (AvrcpController.UidsChanged (Some sample_address) 3) in
  marshalled_address op = Some (Some sample_address)
  /\ Forall (java_call_from sample_address)
       (trace_of (exec (hdr := aosp_bt_rc_h) op friendly_env connected_state)).
Proof.
  intros op. split; [reflexivity |].
  exact (callback_address_delivered (hdr := aosp_bt_rc_h) op sample_address
           friendly_env connected_state eq_refl).
Defined.

(** ** The Java calls of a callback *)

Lemma java_calls_none (t : list event) :
  Forall not_java t -> java_calls t = [].
Proof. apply filter_none. Qed.

Section Once.
Context {R : Type}.

Lemma calls_once_bind {A B} (m : M R A) (k : A -> M R B) :
  emits not_java m -> (forall a, calls_once (k a)) -> calls_once (bind m k).
Proof.
  intros Hm Hk e s. unfold bind.
  specialize (Hm e s). destruct (m e s) as [[o s1] t1]. simpl in Hm.
  apply java_calls_none in Hm.
  destruct o as [a | r | f]; simpl; try (rewrite Hm; simpl; lia).
  specialize (Hk a e s1). destruct (k a e s1) as [[o2 s2] t2].
  simpl in *. rewrite java_calls_app, Hm. exact Hk.
Qed.

Lemma calls_once_CallVoidMethod obj m args :
  calls_once (@CallVoidMethod R obj m args).
Proof. intros e s. cbn. lia. Qed.

Lemma calls_once_call {A} (m : M A A) :
  calls_once m -> calls_once (@call R A m).
Proof.
  intros H e s. specialize (H e s). unfold call.
  destruct (m e s) as [[[a | a | f] s1] t1]; exact H.
Qed.

End Once.

Lemma calls_once_enter {A} (m : M A A) e s :
  calls_once m -> length (java_calls (snd (enter m e s))) <= 1.
Proof.
  intros H. specialize (H e s). unfold enter, run.
  destruct (m e s) as [[[a | a | f] s1] t1]; exact H.
Qed.

Ltac once_step :=
  lazymatch goal with
  | |- calls_once (bind _ _) =>
      apply calls_once_bind; [emits_tac ltac:(reflexivity) | intro]
  | |- calls_once (CallVoidMethod _ _ _) => apply calls_once_CallVoidMethod
  | |- calls_once (call _) => apply calls_once_call
  | |- calls_once (match ?x with _ => _ end) => destruct x
  | |- calls_once (let _ := _ in _) => cbv zeta
  | |- calls_once ?m => let h := head_of m in unfold h
  end.

Ltac once_tac := repeat once_step.

Section WithHeader.
Context {hdr : AvrcpController.bt_rc_h}.

(** X18. Every callback other than btavrcp_get_folder_items_callback makes
    at most one Java call, whatever its arguments and whatever the binding
    calls return. *)
Theorem callback_calls_java_once (op : operation) (e : env) (s : state) :
  is_callback op = true ->
  builds_items op = false ->
  length (java_calls (trace_of (exec op e s))) <= 1.
Proof.
  intros Hc Hb. unfold trace_of.
  destruct op as [| | o | o | o | o | c | cb | cb]; try discriminate Hc;
    cbn [exec].
  - destruct cb; try discriminate Hb; cbn [AvrcpController.exec_callback];
      apply calls_once_enter; once_tac.
  - destruct cb; cbn [Vendor.exec_callback];
      apply calls_once_enter; once_tac.
Qed.

End WithHeader.

Lemma callback_calls_java_once_witness :
  let op := VendorCallback (Vendor.BredrCleanup true) in
  is_callback op = true /\ builds_items op = false
  /\ length (java_calls (trace_of (exec (hdr := aosp_bt_rc_h) op friendly_env
                                     connected_state))) <= 1.
Proof.
  intros op. split; [reflexivity |]. split; [reflexivity |].
  exact (callback_calls_java_once (hdr := aosp_bt_rc_h) op friendly_env
           connected_state eq_refl eq_refl).
Defined.

(** ** The class references *)

Lemma classes_avrcp_init (o : ptr) e s :
  classes_resolved (globals (snd (fst (enter (AvrcpController.initNative o) e s)))).
Proof.
  destruct s as [[b v c m1 m2 bv mc] t]. unfold classes_resolved.
  apply wp_enter. wp_exec;
    (split;
     repeat match goal with
            | |- context [if ?b then _ else _] => destruct b
            end;
     auto).
Qed.

Lemma classes_kept {R A} (m : M R A) e s :
  (forall e s,
     class_MediaBrowser_MediaItem (globals (snd (fst (m e s))))
     = class_MediaBrowser_MediaItem (globals s)
     /\ class_AvrcpPlayer (globals (snd (fst (m e s))))
        = class_AvrcpPlayer (globals s)) ->
  classes_resolved (globals s) ->
  classes_resolved (globals (snd (fst (m e s)))).
Proof.
  intros H Hs. destruct (H e s) as [H1 H2]. unfold classes_resolved.
  rewrite H1, H2. exact Hs.
Qed.

Lemma classes_avrcp_cleanup (o : ptr) e s :
  classes_resolved (globals s) ->
  classes_resolved (globals (snd (fst (enter (AvrcpController.cleanupNative o) e s)))).
Proof.
  destruct s as [[b v c m1 m2 bv mc] t]. unfold classes_resolved. cbn.
  intros Hp. apply wp_enter. wp_exec; exact Hp.
Qed.

Lemma classes_vendor_init (o : ptr) e s :
  classes_resolved (globals s) ->
  classes_resolved (globals (snd (fst (enter (Vendor.initNative o) e s)))).
Proof.
  destruct s as [[b v c m1 m2 bv mc] t]. unfold classes_resolved. cbn.
  intros Hp. apply wp_enter. wp_exec; exact Hp.
Qed.

Lemma classes_vendor_cleanup (o : ptr) e s :
  classes_resolved (globals s) ->
  classes_resolved (globals (snd (fst (enter (Vendor.cleanupNative o) e s)))).
Proof.
  destruct s as [[b v c m1 m2 bv mc] t]. unfold classes_resolved. cbn.
  intros Hp. apply wp_enter. wp_exec; exact Hp.
Qed.

Section WithHeader.
Context {hdr : AvrcpController.bt_rc_h}.

(** X19. In every state the process can be in, class_MediaBrowser_MediaItem
    and class_AvrcpPlayer are each null or the class of that name: they are
    null until initNative has run, initNative assigns both on every call
    (before it asks for the Bluetooth module) and leaves a null reference
    where FindClass or NewGlobalRef failed, and nothing else assigns
    them. *)
Theorem class_references_resolved (s : state) :
  reachable s -> classes_resolved (globals s).
Proof.
  induction 1 as [| s op e Hr IH].
  - split; left; reflexivity.
  - destruct op; unfold state_after; simpl.
    + exact IH.
    + exact IH.
    + apply classes_avrcp_init.
    + apply classes_avrcp_cleanup; exact IH.
    + apply classes_vendor_init; exact IH.
    + apply classes_vendor_cleanup; exact IH.
    + pose proof (frames_command c e s) as H. unfold state_after in H.
      rewrite H. exact IH.
    + rewrite frames_avrcp_callback. exact IH.
    + rewrite frames_vendor_callback. exact IH.
Qed.

End WithHeader.

Lemma class_references_resolved_witness :
  reachable (hdr := aosp_bt_rc_h) connected_state
  /\ classes_resolved (globals connected_state).
Proof.
  split; [exact reachable_connected |].
  exact (class_references_resolved (hdr := aosp_bt_rc_h) connected_state
           reachable_connected).
Defined.

(** ** Writes to Java arrays stay inside them *)

Section Bounds.
Context {R : Type}.

Lemma length_set_region {A} (arr src : list A) (start : nat) :
  start + length src <= length arr ->
  length (set_region arr start src) = length arr.
Proof.
  intros H. unfold set_region.
  rewrite !length_app, length_firstn, length_skipn. lia.
Qed.

Lemma yields_SetArrayRegion {A} (arr : list A) (start len : nat)
  (buf : list A) :
  yields (fun a => length a = length arr)
    (@SetArrayRegion R A arr start len buf).
Proof.
  intros e s. unfold SetArrayRegion, read_n.
  destruct (start + len <=? length arr) eqn:Hin; [| reflexivity].
  destruct (len <=? length buf) eqn:Hbuf; [| exact I].
  cbn. apply Nat.leb_le in Hin, Hbuf.
  apply length_set_region. rewrite length_firstn. lia.
Qed.

Lemma yields_SetObjectArrayElement (arr : list jvalue) (i : nat)
  (v : jvalue) :
  yields (fun a => length a = length arr)
    (@SetObjectArrayElement R arr i v).
Proof.
  intros e s. unfold SetObjectArrayElement.
  destruct (i <? length arr) eqn:Hin; [| reflexivity].
  cbn. apply Nat.ltb_lt in Hin. apply length_set_region. cbn. lia.
Qed.

Lemma emits_SetArrayRegion {A} (P : event -> Prop) (arr : list A)
  (start len : nat) (buf : list A) :
  start + len <= length arr ->
  emits P (@SetArrayRegion R A arr start len buf).
Proof.
  intros H e s. unfold SetArrayRegion, read_n.
  apply Nat.leb_le in H. rewrite H.
  destruct (len <=? length buf); constructor.
Qed.

Lemma emits_SetObjectArrayElement (P : event -> Prop) (arr : list jvalue)
  (i : nat) (v : jvalue) :
  i < length arr -> emits P (@SetObjectArrayElement R arr i v).
Proof.
  intros H e s. unfold SetObjectArrayElement.
  apply Nat.ltb_lt in H. rewrite H. constructor.
Qed.

Lemma yields_bind {A B} (Q1 : A -> Prop) (Q : B -> Prop) (m : M R A)
  (k : A -> M R B) :
  yields Q1 m -> (forall a, Q1 a -> yields Q (k a)) -> yields Q (bind m k).
Proof.
  intros Hm Hk e s. unfold bind. specialize (Hm e s).
  destruct (m e s) as [[[a | r | f] s1] t1]; cbn in *; try exact I.
  specialize (Hk a Hm e s1).
  destruct (k a e s1) as [[o2 s2] t2]. exact Hk.
Qed.

Lemma yields_skip {A B} (Q : B -> Prop) (m : M R A) (k : A -> M R B) :
  (forall a, yields Q (k a)) -> yields Q (bind m k).
Proof.
  intros Hk. apply (yields_bind (fun _ => True)); [| intros a _; apply Hk].
  intros e s. destruct (fst (fst (m e s))); exact I.
Qed.

Lemma yields_ret {A} (Q : A -> Prop) (a : A) : Q a -> yields Q (@ret R A a).
Proof. intros H e s. exact H. Qed.

Lemma emits_for_loop_inv {S} (P : event -> Prop) (Inv : S -> Prop)
  (cond : nat -> S -> bool) (body : nat -> S -> M R S) (fuel : nat) :
  (forall i st, Inv st -> cond i st = true -> emits P (body i st)) ->
  (forall i st, Inv st -> cond i st = true -> yields Inv (body i st)) ->
  forall i st, Inv st -> emits P (for_loop fuel i cond body st).
Proof.
  intros He Hy. induction fuel as [| fuel IH]; intros i st Hst; simpl.
  - apply emits_ret.
  - destruct (cond i st) eqn:Hc; [| apply emits_ret].
    apply (emits_bind_yields P Inv); [apply Hy | apply He | intros a Ha]; auto.
Qed.

Lemma yields_NewIntArray (n : nat) :
  yields (fun o => o = None \/ o = Some (repeat 0%Z n)) (@NewIntArray R n).
Proof.
  intros e s. unfold NewIntArray, ask_ok, foreign, bind, ret. cbn.
  destruct (ext_ok e (tick s)); auto.
Qed.

Lemma yields_NewObjectArray (n : nat) (cls : jclass) :
  yields (fun o => o = None \/ o = Some (repeat JNull n))
    (@NewObjectArray R n cls).
Proof.
  intros e s. unfold NewObjectArray. destruct cls; [exact I |].
  unfold ask_ok, foreign, bind, ret. cbn.
  destruct (ext_ok e (tick s)); auto.
Qed.

End Bounds.

(** What is known of the arrays: their lengths. *)
Ltac bounds_side :=
  repeat match goal with
         | H : length _ = _ |- _ => rewrite H
         | H : (_ <? _) && _ = true |- _ =>
             apply andb_true_iff in H; destruct H as [H _];
             apply Nat.ltb_lt in H
         end;
  rewrite ?repeat_length; first [lia | unfold sizeof_RawAddress; cbn; lia].

Ltac bounds_new lem :=
  let H := fresh "H" in
  let Ha := fresh "Ha" in
  eapply emits_bind_yields; [apply lem | emits_tac ltac:(discriminate) |];
  intros ? H; cbv beta;
  eapply emits_bind_yields;
  [apply yields_check_nonnull_some | emits_tac ltac:(discriminate) |];
  intros ? Ha; destruct H as [H | H]; rewrite H in Ha;
  [discriminate Ha | injection Ha as <-].

Ltac bounds_set :=
  let H := fresh "Hlen" in
  eapply emits_bind_yields;
  [apply yields_SetArrayRegion
  | apply emits_SetArrayRegion; bounds_side
  | intros ? H; cbv beta in H; rewrite ?repeat_length in H].

Ltac bounds_put :=
  let H := fresh "Hlen" in
  eapply emits_bind_yields;
  [apply yields_SetObjectArrayElement
  | apply emits_SetObjectArrayElement; bounds_side
  | intros ? H; cbv beta in H; rewrite ?repeat_length in H].

Ltac bounds_step :=
  lazymatch goal with
  | |- emits _ (bind (NewByteArray _) _) => bounds_new @yields_NewByteArray
  | |- emits _ (bind (NewIntArray _) _) => bounds_new @yields_NewIntArray
  | |- emits _ (bind (NewObjectArray _ _) _) =>
      bounds_new @yields_NewObjectArray
  | |- emits _ (bind (SetByteArrayRegion _ _ _ _) _) => bounds_set
  | |- emits _ (bind (SetIntArrayRegion _ _ _ _) _) => bounds_set
  | |- emits _ (bind (SetObjectArrayElement _ _ _) _) => bounds_put
  | |- emits _ (SetObjectArrayElement _ _ _) =>
      apply emits_SetObjectArrayElement; bounds_side
  | |- emits _ (for_upto _ _ _ _) => fail "loop"
  | |- emits _ (bind (for_upto _ _ _ _) _) => fail "loop"
  | |- emits _ (bind (AvrcpController.playerapplicationsetting_arraylen _ _) _)
    => fail "loop"
  | |- emits _ (bind (AvrcpController.playerapplicationsetting_flatten
                        _ _ _ _) _) => fail "loop"
  | |- emits _ (bind (AvrcpController.playerapplicationsetting_changed_flatten
                        _ _ _) _) => fail "loop"
  | |- emits _ (bind (AvrcpController.folder_items_media _ _ _) _) =>
      fail "loop"
  | |- emits _ (bind (AvrcpController.folder_items_folder _ _ _) _) =>
      fail "loop"
  | |- emits _ (bind (AvrcpController.folder_items_player _ _ _) _) =>
      fail "loop"
  | |- emits _ (call (AvrcpController.btavrcp_attr_rsp_callback _ _ _ _)) =>
      fail "loop"
  | |- emits _ (bind _ _) => apply emits_bind; [| intro]
  | |- _ => emits_step ltac:(discriminate)
  end.

Ltac bounds_tac := repeat bounds_step.

Ltac yields_step :=
  lazymatch goal with
  | |- yields _ (bind (SetByteArrayRegion _ _ _ _) _) =>
      eapply yields_bind; [apply yields_SetArrayRegion | intros ? ?]
  | |- yields _ (bind (SetIntArrayRegion _ _ _ _) _) =>
      eapply yields_bind; [apply yields_SetArrayRegion | intros ? ?]
  | |- yields _ (bind (SetObjectArrayElement _ _ _) _) =>
      eapply yields_bind; [apply yields_SetObjectArrayElement | intros ? ?]
  | |- yields _ (SetObjectArrayElement _ _ _) =>
      apply yields_SetObjectArrayElement
  | |- yields _ (bind _ _) => apply yields_skip; intro
  | |- yields _ (ret _) => apply yields_ret
  | |- yields _ (match ?x with _ => _ end) => destruct x
  | |- yields _ (let _ := _ in _) => cbv zeta
  | |- yields _ ?m => let h := head_of m in unfold h
  end.

Ltac yields_tac := repeat yields_step.

Section WithHeader.
Context {hdr : AvrcpController.bt_rc_h}.

Lemma in_bounds_attr_rsp bd_addr num_attr p_attrs method :
  emits in_bounds
    (AvrcpController.btavrcp_attr_rsp_callback bd_addr num_attr p_attrs
       method).
Proof.
  unfold AvrcpController.btavrcp_attr_rsp_callback.
  bounds_tac.
  - apply emits_bind; [| intro; bounds_tac].
    unfold for_upto.
    apply (emits_for_loop_inv in_bounds
             (fun st => length (fst st) = u8 num_attr
                        /\ length (snd st) = u8 num_attr)).
    + intros i [ids strs] [Hi Hs] Hc. cbn [fst snd] in *. bounds_tac.
    + intros i [ids strs] [Hi Hs] Hc. cbn [fst snd] in *. yields_tac.
      cbn [fst snd]. split; congruence.
    + cbn [fst snd]. rewrite !repeat_length. split; reflexivity.
Qed.

Lemma in_bounds_playerapplicationsetting bd_addr num_attr app_attrs
  num_ext_attr ext_attrs :
  emits in_bounds
    (AvrcpController.btavrcp_playerapplicationsetting_callback bd_addr
       num_attr app_attrs num_ext_attr ext_attrs).
Proof.
  unfold AvrcpController.btavrcp_playerapplicationsetting_callback.
  bounds_tac.
  apply (emits_bind_yields in_bounds
           (fun arraylen =>
              u8 num_attr <= length app_attrs
              /\ arraylen = sum_list (map app_attr_size
                                        (firstn (u8 num_attr) app_attrs)))).
  - intros e s.
    apply (wp_playerapplicationsetting_arraylen num_attr app_attrs e s
             (fun o _ _ =>
                match o with
                | Val arraylen =>
                    u8 num_attr <= length app_attrs
                    /\ arraylen
                       = sum_list (map app_attr_size
                                     (firstn (u8 num_attr) app_attrs))
                | _ => True
                end)).
    destruct (u8 num_attr <=? length app_attrs) eqn:Hn; [| exact I].
    apply Nat.leb_le in Hn. split; [exact Hn | reflexivity].
  - intros e s.
    apply (wp_playerapplicationsetting_arraylen num_attr app_attrs e s
             (fun _ _ t => Forall in_bounds t)).
    constructor.
  - intros arraylen [Hn ->]. bounds_tac.
    apply emits_bind; [| intro; bounds_tac].
    intros e s.
    apply (wp_playerapplicationsetting_flatten num_attr app_attrs e s
             (fun _ _ t => Forall in_bounds t) Hn).
    constructor.
Qed.

Lemma in_bounds_playerapplicationsetting_changed bd_addr p_vals :
  emits in_bounds
    (AvrcpController.btavrcp_playerapplicationsetting_changed_callback
       bd_addr p_vals).
Proof.
  unfold AvrcpController.btavrcp_playerapplicationsetting_changed_callback.
  bounds_tac.
  apply emits_bind; [| intro; bounds_tac].
  intros e s.
  lazymatch goal with
  | |- Forall _ (snd (AvrcpController.playerapplicationsetting_changed_flatten
                        ?p _ _ _ _)) =>
      apply (wp_playerapplicationsetting_changed_flatten p e s
               (fun _ _ t => Forall in_bounds t))
  end.
  constructor.
Qed.

Lemma in_bounds_folder_item folder_items i (st : bool * list jvalue) :
  i < length (snd st) ->
  emits in_bounds (AvrcpController.folder_items_body folder_items i st).
Proof.
  intros Hi. destruct st as [flag itemArray]. cbn [fst snd] in Hi.
  unfold AvrcpController.folder_items_body. cbn [fst snd].
  apply emits_bind; [emits_tac ltac:(discriminate) | intros item].
  apply emits_bind; [emits_tac ltac:(discriminate) | intros _].
  destruct item as [player | folder | media | other].
  - apply emits_bind; [| intro; apply emits_ret].
    unfold AvrcpController.folder_items_player. bounds_tac.
  - apply emits_bind; [| intro; apply emits_ret].
    unfold AvrcpController.folder_items_folder. bounds_tac.
  - apply emits_bind; [| intro; apply emits_ret].
    unfold AvrcpController.folder_items_media. bounds_tac.
    apply emits_bind; [| intro; bounds_tac].
    unfold for_upto.
    apply (emits_for_loop_inv in_bounds
             (fun st =>
                length (fst st) = AvrcpController.media_num_attrs media
                /\ length (snd st) = AvrcpController.media_num_attrs media)).
    + intros j [ids vals] [Hids Hvals] Hc. cbn [fst snd] in *. bounds_tac.
    + intros j [ids vals] [Hids Hvals] Hc. cbn [fst snd] in *. yields_tac.
      cbn [fst snd]. split; congruence.
    + cbn [fst snd]. rewrite !repeat_length. split; reflexivity.
  - bounds_tac.
Qed.

Lemma length_folder_item folder_items i (st : bool * list jvalue) :
  yields (fun st' => length (snd st') = length (snd st))
    (AvrcpController.folder_items_body folder_items i st).
Proof.
  destruct st as [flag itemArray]. cbn [fst snd].
  unfold AvrcpController.folder_items_body. cbn [fst snd].
  apply yields_skip; intros item. apply yields_skip; intros _.
  destruct item as [player | folder | media | other].
  - eapply yields_bind; [| intros a Ha; apply yields_ret; exact Ha].
    unfold AvrcpController.folder_items_player. cbv zeta.
    repeat (apply yields_skip; intro). apply yields_SetObjectArrayElement.
  - eapply yields_bind; [| intros a Ha; apply yields_ret; exact Ha].
    unfold AvrcpController.folder_items_folder.
    repeat (apply yields_skip; intro). apply yields_SetObjectArrayElement.
  - eapply yields_bind; [| intros a Ha; apply yields_ret; exact Ha].
    unfold AvrcpController.folder_items_media.
    repeat (apply yields_skip; intro). apply yields_SetObjectArrayElement.
  - apply yields_skip; intros _. apply yields_ret. reflexivity.
Qed.

Lemma in_bounds_get_folder_items bd_addr status folder_items count :
  emits in_bounds
    (AvrcpController.btavrcp_get_folder_items_callback bd_addr status
       folder_items count).
Proof.
  unfold AvrcpController.btavrcp_get_folder_items_callback.
  apply emits_bind; [emits_tac ltac:(discriminate) | intros _].
  apply emits_bind; [emits_tac ltac:(discriminate) | intros _].
  apply emits_bind; [emits_tac ltac:(discriminate) | intros isPlayerListing].
  apply emits_bind; [emits_tac ltac:(discriminate) | intros g].
  cbv zeta. bounds_new @yields_NewObjectArray.
  apply emits_bind; [| intro; emits_tac ltac:(discriminate)].
  unfold for_upto.
  apply (emits_for_loop_inv in_bounds
           (fun st => length (snd st) = u8 count)).
  - intros i st Hst Hc. apply in_bounds_folder_item.
    rewrite Hst. apply andb_true_iff in Hc. destruct Hc as [Hc _].
    apply Nat.ltb_lt in Hc. exact Hc.
  - intros i st Hst Hc. rewrite <- Hst. apply length_folder_item.
  - cbn [snd]. apply repeat_length.
Qed.

(** X20. No operation writes outside a Java array it has allocated: the
    exception that SetXxxArrayRegion and SetObjectArrayElement leave
    pending on an index out of the array is never raised, whatever the
    arguments and whatever the foreign side answers. *)
Theorem arrays_written_in_bounds (op : operation) (e : env) (s : state) :
  ~ In (Throw "ArrayIndexOutOfBoundsException") (trace_of (exec op e s)).
Proof.
  intros Hin.
  assert (H : Forall in_bounds (trace_of (exec op e s))).
  { unfold trace_of.
    destruct op as [| | o | o | o | o | [c | c] | cb | cb];
      cbn [exec exec_command].
    - apply emits_enter. emits_tac ltac:(discriminate).
    - apply emits_enter. emits_tac ltac:(discriminate).
    - apply emits_enter. emits_tac ltac:(discriminate).
    - apply emits_enter. emits_tac ltac:(discriminate).
    - apply emits_enter. emits_tac ltac:(discriminate).
    - apply emits_enter. emits_tac ltac:(discriminate).
    - destruct c; simpl; apply emits_enter; emits_tac ltac:(discriminate).
    - destruct c; simpl; apply emits_enter; emits_tac ltac:(discriminate).
    - destruct cb; simpl; apply emits_enter;
        lazymatch goal with
        | |- emits _ (AvrcpController.btavrcp_playerapplicationsetting_callback
                        _ _ _ _ _) =>
            apply in_bounds_playerapplicationsetting
        | |- emits _
               (AvrcpController.btavrcp_playerapplicationsetting_changed_callback
                  _ _) =>
            apply in_bounds_playerapplicationsetting_changed
        | |- emits _ (AvrcpController.btavrcp_attr_rsp_callback _ _ _ _) =>
            apply in_bounds_attr_rsp
        | |- emits _ (AvrcpController.btavrcp_get_folder_items_callback
                        _ _ _ _) =>
            apply in_bounds_get_folder_items
        | |- _ => bounds_tac
        end.
      all: apply emits_call, in_bounds_attr_rsp.
    - destruct cb; simpl; apply emits_enter; bounds_tac. }
  rewrite Forall_forall in H. exact (H _ Hin eq_refl).
Qed.

End WithHeader.

(** ** No delivery after an error *)

Section Clean.
Context {R : Type}.
Variable p : event -> bool.

Lemma plain_split {A} (m : M R A) :
  emits (plain p) m ->
  forall e s, error_logs (snd (m e s)) = [] /\ filter p (snd (m e s)) = [].
Proof.
  intros H e s. specialize (H e s). split; apply filter_none.
  - eapply Forall_impl; [| exact H]. intros ev [He _]. exact He.
  - eapply Forall_impl; [| exact H]. intros ev [_ Hj]. exact Hj.
Qed.

Lemma clean_then {A B} (m : M R A) (k : A -> M R B) :
  clean p m -> emits (fun ev => p ev = false) m ->
  (forall a, clean p (k a)) -> clean p (bind m k).
Proof.
  intros Hc Hm Hk e s. unfold bind.
  specialize (Hc e s). specialize (Hm e s). apply filter_none in Hm.
  destruct (m e s) as [[[a | r | f] s1] t1]; cbn [fst snd] in *;
    try exact Hm.
  specialize (Hk a e s1). destruct (k a e s1) as [[o2 s2] t2].
  cbn [fst snd] in *.
  rewrite error_logs_app, filter_app, Hc, Hm. exact Hk.
Qed.

Lemma clean_plain {A} (m : M R A) : emits (plain p) m -> clean p m.
Proof.
  intros Hm e s. destruct (plain_split m Hm e s) as [He Hj].
  destruct (fst (fst (m e s))); assumption.
Qed.

Lemma clean_bind {A B} (m : M R A) (k : A -> M R B) :
  emits (plain p) m -> (forall a, clean p (k a)) -> clean p (bind m k).
Proof.
  intros Hm Hk. apply clean_then; [apply clean_plain; exact Hm | | exact Hk].
  intros e s. eapply Forall_impl; [| apply Hm]. intros ev [_ Hj]. exact Hj.
Qed.

Lemma clean_check_nonnull {A B} (x : option A) (onfail : M R unit) (r : R)
  (k : A -> M R B) :
  emits (fun ev => p ev = false) onfail -> (forall a, clean p (k a)) ->
  clean p (bind (check_nonnull x onfail r) k).
Proof.
  intros Hf Hk. destruct x as [a |]; cbn [check_nonnull].
  - intros e s. rewrite bind_ret. apply Hk.
  - intros e s. unfold bind. specialize (Hf e s).
    apply filter_none in Hf.
    destruct (onfail e s) as [[[a | r' | f] s1] t1]; cbn [fst snd] in Hf;
      unfold return_; cbn [fst snd]; rewrite ?app_nil_r; exact Hf.
Qed.

Lemma clean_when_error {B} (c : bool) (msg : string) (r : R)
  (k : unit -> M R B) :
  p (Log LogE msg) = false ->
  (forall a, clean p (k a)) ->
  clean p (bind (when c (ALOGE msg ;; return_ r)) k).
Proof.
  intros Hp Hk. destruct c; cbn [when].
  - intros e s. cbn. rewrite Hp. reflexivity.
  - intros e s. rewrite bind_ret. apply Hk.
Qed.

Lemma clean_ret {A} (a : A) : clean p (@ret R A a).
Proof. intros e s. reflexivity. Qed.

Lemma clean_return {A} (r : R) : clean p (@return_ R A r).
Proof. intros e s. reflexivity. Qed.

Lemma clean_crash {A} (f : fault) : clean p (@crash R A f).
Proof. intros e s. reflexivity. Qed.

Lemma clean_CallVoidMethod obj m args :
  clean p (@CallVoidMethod R obj m args).
Proof. intros e s. reflexivity. Qed.

Lemma clean_for_loop {S} fuel i cond (body : nat -> S -> M R S) st :
  (forall i st, clean p (body i st)) ->
  (forall i st, emits (fun ev => p ev = false) (body i st)) ->
  clean p (for_loop fuel i cond body st).
Proof.
  intros Hc Hb. revert i st.
  induction fuel as [| fuel IH]; intros i st; simpl.
  - apply clean_ret.
  - destruct (cond i st); [| apply clean_ret].
    apply clean_then; [apply Hc | apply Hb | intro; apply IH].
Qed.

End Clean.

Section Apart.
Context {R : Type}.

Lemma apart_clean {A} (m : M R A) : clean is_java_call m -> apart m.
Proof.
  intros H e s He. specialize (H e s).
  destruct (fst (fst (m e s))); [contradiction | exact H | exact H].
Qed.

Lemma apart_bind {A B} (m : M R A) (k : A -> M R B) :
  emits (plain is_java_call) m -> (forall a, apart (k a)) ->
  apart (bind m k).
Proof.
  intros Hm Hk e s. unfold bind.
  destruct (plain_split is_java_call m Hm e s) as [He Hj].
  destruct (m e s) as [[[a | r | f] s1] t1]; cbn [fst snd] in *;
    try (intros _; exact Hj).
  specialize (Hk a e s1). destruct (k a e s1) as [[o2 s2] t2].
  cbn [fst snd] in *.
  rewrite error_logs_app, java_calls_app. unfold java_calls at 1.
  rewrite He, Hj. exact Hk.
Qed.

Lemma apart_call {A} (m : M A A) : apart m -> apart (@call R A m).
Proof.
  intros H e s. specialize (H e s). unfold call.
  destruct (m e s) as [[[a | a | f] s1] t1]; exact H.
Qed.

End Apart.

Lemma apart_enter {A} (m : M A A) e s :
  apart m ->
  error_logs (snd (enter m e s)) <> [] -> java_calls (snd (enter m e s)) = [].
Proof.
  intros H. unfold enter, run. specialize (H e s).
  destruct (m e s) as [[[a | a | f] s1] t1]; exact H.
Qed.

Ltac plain_tac := emits_tac ltac:(split; reflexivity).

(** A step that can fail is followed by its test, which logs and returns;
    everything else before the Java call records neither. *)
Ltac clean_step :=
  lazymatch goal with
  | |- clean _ (bind (check_nonnull _ _ _) _) =>
      apply clean_check_nonnull; [emits_tac ltac:(reflexivity) | intro]
  | |- clean _ (bind (when _ (ALOGE _ ;; return_ _)) _) =>
      apply clean_when_error; [reflexivity | intro]
  | |- clean _ (bind (for_upto _ _ _ _) _) =>
      apply clean_then;
      [unfold for_upto; apply clean_for_loop; intros
      | emits_tac ltac:(reflexivity)
      | intro]
  | |- clean _ (bind _ _) => apply clean_bind; [plain_tac | intro]
  | |- clean _ (ret _) => apply clean_ret
  | |- clean _ (return_ _) => apply clean_return
  | |- clean _ (crash _) => apply clean_crash
  | |- clean _ (CallVoidMethod _ _ _) => apply clean_CallVoidMethod
  | |- clean _ (match ?x with _ => _ end) => destruct x
  | |- clean _ (let _ := _ in _) => cbv zeta
  | |- clean _ ?m => let h := head_of m in unfold h
  end.

Ltac clean_tac := repeat clean_step.

Section WithHeader.
Context {hdr : AvrcpController.bt_rc_h}.

Lemma clean_attr_rsp bd_addr num_attr p_attrs method :
  clean is_java_call
    (AvrcpController.btavrcp_attr_rsp_callback bd_addr num_attr p_attrs
       method).
Proof. clean_tac. emits_tac ltac:(reflexivity). Qed.

(** X21. A callback other than btavrcp_get_folder_items_callback that logs
    an error makes no Java call: what it has gathered before the failure is
    not delivered. *)
Theorem no_delivery_after_error (op : operation) (e : env) (s : state) :
  is_callback op = true ->
  builds_items op = false ->
  error_logs (trace_of (exec op e s)) <> [] ->
  java_calls (trace_of (exec op e s)) = [].
Proof.
  intros Hc Hb. unfold trace_of.
  destruct op as [| | o | o | o | o | c | cb | cb]; try discriminate Hc;
    cbn [exec].
  - destruct cb; try discriminate Hb; cbn [AvrcpController.exec_callback];
      apply apart_enter;
      first
        [ solve [apply apart_clean; clean_tac]
        | lazymatch goal with
          | |- apart ?m => let h := head_of m in unfold h
          end;
          apply apart_bind;
          [plain_tac | intro; apply apart_call, apart_clean, clean_attr_rsp] ].
  - destruct cb; cbn [Vendor.exec_callback];
      apply apart_enter, apart_clean; clean_tac.
Qed.

End WithHeader.

Lemma no_delivery_after_error_witness :
  let op := AvrcpCallback
              (AvrcpController.PlayStatusChanged (Some sample_address) x01) in
  let r := exec (hdr := aosp_bt_rc_h) op (failing_at 1) initial_state in
  is_callback op = true
  /\ builds_items op = false
  /\ error_logs (trace_of r) <> []
  /\ java_calls (trace_of r) = [].
Proof.
  intros op r.
  assert (He : error_logs (trace_of r) <> []) by (cbv; discriminate).
  split; [reflexivity |]. split; [reflexivity |]. split; [exact He |].
  exact (no_delivery_after_error (hdr := aosp_bt_rc_h) op (failing_at 1)
           initial_state eq_refl eq_refl He).
Defined.

(** ** The status of a HAL call *)

Lemma existsb_none {A} (p : A -> bool) (l : list A) :
  Forall (fun x => p x = false) l -> existsb p l = false.
Proof.
  induction 1 as [| x l Hx Hl IH]; simpl; [reflexivity |].
  rewrite Hx. exact IH.
Qed.

Lemma no_status_without_call (t : list event) :
  filter is_hal_call t = [] ->
  existsb hal_failed t = false /\ existsb hal_succeeded t = false.
Proof.
  induction t as [| ev t IH]; simpl; [split; reflexivity |].
  destruct ev; simpl; try exact IH. discriminate.
Qed.

Section Status.
Context {R : Type}.

Lemma status_logged_quiet {A} (m : M R A) :
  emits not_hal m -> status_logged m.
Proof.
  intros H e s. specialize (H e s). apply filter_none in H.
  destruct (no_status_without_call _ H) as [Hf Hs].
  rewrite Hf, Hs. split; discriminate.
Qed.

Lemma status_logged_bind {A B} (m : M R A) (k : A -> M R B) :
  emits (plain is_hal_call) m -> (forall a, status_logged (k a)) ->
  status_logged (bind m k).
Proof.
  intros Hm Hk e s. unfold bind.
  destruct (plain_split is_hal_call m Hm e s) as [He Hh].
  destruct (no_status_without_call _ Hh) as [Hf Hs].
  destruct (m e s) as [[[a | r | f] s1] t1]; cbn [fst snd] in *;
    try (rewrite Hf, Hs; split; discriminate).
  specialize (Hk a e s1). destruct (k a e s1) as [[o2 s2] t2].
  cbn [fst snd] in *.
  rewrite !existsb_app, error_logs_app, Hf, Hs, He. exact Hk.
Qed.

Lemma status_logged_when_error {B} (c : bool) (msg : string) (r : R)
  (k : unit -> M R B) :
  (forall a, status_logged (k a)) ->
  status_logged (bind (when c (ALOGE msg ;; return_ r)) k).
Proof.
  intros Hk. destruct c; cbn [when].
  - intros e s. cbn. split; discriminate.
  - intros e s. rewrite bind_ret. apply Hk.
Qed.

Lemma status_logged_hal {B} via fn args (msg : string)
  (k : bt_status_t -> M R B) :
  (forall st, emits (plain is_hal_call) (k st)) ->
  status_logged
    (status <- hal_status via fn args ;;
     when (negb (is_success status)) (ALOGE msg) ;;
     k status).
Proof.
  intros Hk e s.
  unfold hal_status, deref, bind, get_globals, ask_status, emit, ret.
  destruct (is_null (iface_ptr (globals s) via)); [split; discriminate |].
  cbn [fst snd app].
  destruct (plain_split is_hal_call _ (Hk (ext_status e (tick s))) e
              (mkState (globals s) (S (tick s)))) as [He Hh].
  destruct (no_status_without_call _ Hh) as [Hf Hs].
  destruct (ext_status e (tick s)) as [| code]; cbn [is_success negb when];
    unfold ALOGE, emit, ret;
    match goal with
    | |- context [k ?st e ?s1] =>
        destruct (k st e s1) as [[o2 s2] t2]
    end;
    cbn [fst snd app existsb hal_failed hal_succeeded is_success negb orb
         error_logs filter is_error_log] in *.
  - rewrite Hf. split; [discriminate | intros _; exact He].
  - rewrite Hs. split; discriminate.
Qed.

End Status.

Ltac status_step :=
  lazymatch goal with
  | |- status_logged (bind (hal_status _ _ _) _) =>
      apply status_logged_hal; intro; plain_tac
  | |- status_logged (bind (when _ (ALOGE _ ;; return_ _)) _) =>
      apply status_logged_when_error; intro
  | |- status_logged (bind _ _) =>
      apply status_logged_bind; [plain_tac | intro]
  | |- status_logged (match ?x with _ => _ end) => destruct x
  | |- status_logged (let _ := _ in _) => cbv zeta
  | |- status_logged ?m =>
      first [ apply status_logged_quiet; solve [emits_tac ltac:(reflexivity)]
            | let h := head_of m in unfold h ]
  end.

Ltac status_tac := repeat status_step.

Section WithHeader.
Context {hdr : AvrcpController.bt_rc_h}.

(** X22. Every command of the AVRCP binding logs an error when its HAL call
    returns a status other than BT_STATUS_SUCCESS, and logs none when the
    call returns BT_STATUS_SUCCESS: an error log of a command means that
    the call failed or was not made. *)
Theorem failed_status_logged (c : AvrcpController.command) (e : env)
  (s : state) :
  let t := trace_of (AvrcpController.exec_command c e s) in
  (existsb hal_failed t = true -> error_logs t <> [])
  /\ (existsb hal_succeeded t = true -> error_logs t = []).
Proof.
  intros t. subst t. unfold trace_of.
  assert (H : forall A (m : M A A),
             status_logged m ->
             (existsb hal_failed (snd (enter m e s)) = true ->
              error_logs (snd (enter m e s)) <> [])
             /\ (existsb hal_succeeded (snd (enter m e s)) = true ->
                 error_logs (snd (enter m e s)) = [])).
  { intros A m Hm. unfold enter, run. specialize (Hm e s).
    destruct (m e s) as [[[a | a | f] s1] t1]; exact Hm. }
  destruct c; cbn [AvrcpController.exec_command]; apply H; status_tac.
Qed.

End WithHeader.
